(** * impression_affection_plugin: the action-check relay and the update
      orchestrator of [plugin.py]

    A shallow embedding of the event handlers of [src/plugin.py] and the
    properties the design document states about them.

    Conventions of the embedding.
    - A Python [str] is a list of Unicode code points ([list N]).
    - Wall-clock readings ([time.time()]) and weight scores are Python floats;
      they are modelled as rationals ([Q]) with exact arithmetic, and a
      handler call is taken to happen at one instant [now].
    - Exceptions are explicit: a computation that can raise returns [exc].
    - The two module-level dicts of the relay are finite maps keyed by the
      stream id; the services the orchestrator calls are fields of a record
      of the environment, and every call is logged in a trace. *)

From Stdlib Require Import ZArith NArith QArith Lia List String Ascii DecimalString.
From stdpp Require Import gmap list.

(** ** Python strings *)

Module Py.
Local Open Scope N_scope.

Abbreviation str := (list N).

(** Decoding of a UTF-8 source literal into code points. *)
Fixpoint utf8_decode (bs : list N) : str :=
  match bs with
  | [] => []
  | b0 :: r0 =>
    if b0 <? 128 then b0 :: utf8_decode r0
    else if b0 <? 224 then
      match r0 with
      | b1 :: r1 => ((b0 - 192) * 64 + (b1 - 128)) :: utf8_decode r1
      | _ => []
      end
    else if b0 <? 240 then
      match r0 with
      | b1 :: b2 :: r2 =>
          (((b0 - 224) * 64 + (b1 - 128)) * 64 + (b2 - 128)) :: utf8_decode r2
      | _ => []
      end
    else
      match r0 with
      | b1 :: b2 :: b3 :: r3 =>
          ((((b0 - 240) * 64 + (b1 - 128)) * 64 + (b2 - 128)) * 64 + (b3 - 128))
            :: utf8_decode r3
      | _ => []
      end
  end.

Definition u (s : string) : str :=
  utf8_decode (List.map N_of_ascii (list_ascii_of_string s)).
#[global] Arguments u : simpl never.

Definition quote : str := [34].
Definition newline : str := [10].

(** [str.isspace] for one code point (also the class [\s] of [re] on
    [str] patterns). *)
Definition isspace (c : N) : bool :=
  ((9 <=? c) && (c <=? 13)) || ((28 <=? c) && (c <=? 32))
  || (c =? 133) || (c =? 160) || (c =? 5760)
  || ((8192 <=? c) && (c <=? 8202))
  || (c =? 8232) || (c =? 8233) || (c =? 8239) || (c =? 8287) || (c =? 12288).

Fixpoint dropwhile (p : N -> bool) (s : str) : str :=
  match s with
  | [] => []
  | c :: r => if p c then dropwhile p r else s
  end.

Fixpoint takewhile (p : N -> bool) (s : str) : str :=
  match s with
  | [] => []
  | c :: r => if p c then c :: takewhile p r else []
  end.

Definition lstrip (s : str) : str := dropwhile isspace s.
Definition rstrip (s : str) : str := rev (dropwhile isspace (rev s)).
Definition strip (s : str) : str := rstrip (lstrip s).

Definition eqb (a b : str) : bool := bool_decide (a = b).

(** [s.startswith(p)] *)
Fixpoint startswith (p s : str) : bool :=
  match p, s with
  | [], _ => true
  | _ :: _, [] => false
  | a :: p', b :: s' => (a =? b) && startswith p' s'
  end.

(** [needle in hay] *)
Fixpoint contains (needle hay : str) : bool :=
  startswith needle hay
  || match hay with
     | [] => false
     | _ :: r => contains needle r
     end.

(** [bool(s)] *)
Definition truthy (s : str) : bool :=
  match s with [] => false | _ => true end.

(** [str(n)] for an [int]. *)
Definition of_Z (z : Z) : str := u (NilZero.string_of_int (Z.to_int z)).

Definition is_ascii (c : N) : bool := c <? 128.

Definition ascii_lower (c : N) : N :=
  if (65 <=? c) && (c <=? 90) then c + 32 else c.

End Py.

Abbreviation pystr := (list N).

(** Computations that can raise: [Raised e] carries [str(e)]. *)
Inductive exc (A : Type) : Type :=
  | Ok (a : A)
  | Raised (e : pystr).
Arguments Ok {A} a.
Arguments Raised {A} e.

(** ** JSON values and [json.loads] *)

(** A number with a fraction or an exponent becomes a Python [float];
    it is kept as its literal text. *)
#[warnings="-register-all"]
Inductive json : Type :=
  | JNull
  | JBool (b : bool)
  | JInt (z : Z)
  | JFloat (lit : pystr)
  | JStr (s : pystr)
  | JArr (l : list json)
  | JObj (kv : list (pystr * json)).

Module Json.
Local Open Scope N_scope.
Import Py.

Definition is_ws (c : N) : bool :=
  (c =? 32) || (c =? 9) || (c =? 10) || (c =? 13).

Definition skip_ws (s : str) : str := dropwhile is_ws s.

Definition is_digit (c : N) : bool := (48 <=? c) && (c <=? 57).

Definition hex_val (c : N) : option N :=
  if is_digit c then Some (c - 48)
  else if (97 <=? c) && (c <=? 102) then Some (c - 87)
  else if (65 <=? c) && (c <=? 70) then Some (c - 55)
  else None.

Definition hex4 (a b c d : N) : option N :=
  match hex_val a, hex_val b, hex_val c, hex_val d with
  | Some x, Some y, Some z, Some w => Some (((x * 16 + y) * 16 + z) * 16 + w)
  | _, _, _, _ => None
  end.

Definition simple_escape (e : N) : option N :=
  if e =? 34 then Some 34
  else if e =? 92 then Some 92
  else if e =? 47 then Some 47
  else if e =? 98 then Some 8
  else if e =? 102 then Some 12
  else if e =? 110 then Some 10
  else if e =? 114 then Some 13
  else if e =? 116 then Some 9
  else None.

Definition is_high_surrogate (c : N) : bool := (55296 <=? c) && (c <=? 56319).
Definition is_low_surrogate (c : N) : bool := (56320 <=? c) && (c <=? 57343).
Definition join_surrogates (hi lo : N) : N :=
  65536 + (hi - 55296) * 1024 + (lo - 56320).

Definition push (c : N) (r : option (str * str)) : option (str * str) :=
  match r with
  | Some (body, rest) => Some (c :: body, rest)
  | None => None
  end.

(** [scanstring] in strict mode, entered after the opening quote: the
    decoded text and what follows the closing quote. *)
Fixpoint scanstring (s : str) : option (str * str) :=
  match s with
  | [] => None
  | c :: r =>
    if c =? 34 then Some ([], r)
    else if c =? 92 then
      match r with
      | [] => None
      | e :: r1 =>
        if e =? 117 then
          match r1 with
          | h1 :: h2 :: h3 :: h4 :: r2 =>
            match hex4 h1 h2 h3 h4 with
            | None => None
            | Some cp =>
              if is_high_surrogate cp then
                match r2 with
                | b :: v :: g1 :: g2 :: g3 :: g4 :: r3 =>
                  if (b =? 92) && (v =? 117) then
                    match hex4 g1 g2 g3 g4 with
                    | None => None
                    | Some cp2 =>
                      if is_low_surrogate cp2
                      then push (join_surrogates cp cp2) (scanstring r3)
                      else push cp (scanstring r2)
                    end
                  else push cp (scanstring r2)
                | _ => push cp (scanstring r2)
                end
              else push cp (scanstring r2)
            end
          | _ => None
          end
        else
          match simple_escape e with
          | Some x => push x (scanstring r1)
          | None => None
          end
      end
    else if c <? 32 then None
    else push c (scanstring r)
  end.

Definition digits_value (ds : str) : Z :=
  Z.of_N (fold_left (fun acc d => acc * 10 + (d - 48)) ds 0).

(** The number grammar of the scanner: an optional minus sign; a zero, or
    a non-zero digit and any digits; optionally a dot and one digit or
    more; optionally [e] or [E], an optional sign and one digit or more. *)
Definition match_number (s : str) : option (json * str) :=
  let '(neg, s1) :=
    match s with
    | c :: r => if c =? 45 then (true, r) else (false, s)
    | [] => (false, s)
    end in
  match s1 with
  | [] => None
  | d :: r =>
    if negb (is_digit d) then None
    else
      let '(ip, r1) :=
        if d =? 48 then ([d], r)
        else (d :: takewhile is_digit r, dropwhile is_digit r) in
      let '(frac, r2) :=
        match r1 with
        | dot :: f :: _ =>
          if (dot =? 46) && is_digit f
          then (dot :: takewhile is_digit (tl r1), dropwhile is_digit (tl r1))
          else ([], r1)
        | _ => ([], r1)
        end in
      let '(ex, r3) :=
        match r2 with
        | e :: r2' =>
          if (e =? 101) || (e =? 69) then
            let '(sgn, r2'') :=
              match r2' with
              | sg :: t => if (sg =? 45) || (sg =? 43) then ([sg], t) else ([], r2')
              | [] => ([], r2')
              end in
            match r2'' with
            | x :: _ =>
              if is_digit x
              then (e :: sgn ++ takewhile is_digit r2'', dropwhile is_digit r2'')
              else ([], r2)
            | [] => ([], r2)
            end
          else ([], r2)
        | [] => ([], r2)
        end in
      match frac, ex with
      | [], [] =>
        Some (JInt (if neg then - digits_value ip else digits_value ip)%Z, r3)
      | _, _ =>
        Some (JFloat ((if neg then [45] else []) ++ ip ++ frac ++ ex), r3)
      end
  end.

(** Outcome of a scan: a value and the rest of the text, a syntax error,
    or the recursion budget used up. *)
Inductive scan (A : Type) : Type :=
  | Done (a : A) (rest : str)
  | Error
  | OutOfFuel.
Arguments Done {A} a rest.
Arguments Error {A}.
Arguments OutOfFuel {A}.

Definition expect (word : str) (v : json) (s : str) : scan json :=
  if startswith word s then Done v (drop (length word) s) else Error.

(** [scan_once]: one JSON value at the head of [s]. [members] and
    [elements] are the loops of the object and the array parser, entered
    after the bracket and the white space that follows it. *)
Fixpoint scan_once (fuel : nat) (s : str) : scan json :=
  match fuel with
  | O => OutOfFuel
  | S f =>
    match s with
    | [] => Error
    | c :: r =>
      if c =? 34 then
        match scanstring r with
        | Some (body, rest) => Done (JStr body) rest
        | None => Error
        end
      else if c =? 123 then
        match skip_ws r with
        | c1 :: r1 =>
          if c1 =? 125 then Done (JObj []) r1 else members f [] (c1 :: r1)
        | [] => Error
        end
      else if c =? 91 then
        match skip_ws r with
        | c1 :: r1 =>
          if c1 =? 93 then Done (JArr []) r1 else elements f [] (c1 :: r1)
        | [] => Error
        end
      else if (c =? 110) && startswith (u "null") s then expect (u "null") JNull s
      else if (c =? 116) && startswith (u "true") s then expect (u "true") (JBool true) s
      else if (c =? 102) && startswith (u "false") s then expect (u "false") (JBool false) s
      else if (c =? 78) && startswith (u "NaN") s then expect (u "NaN") (JFloat (u "NaN")) s
      else if (c =? 73) && startswith (u "Infinity") s
        then expect (u "Infinity") (JFloat (u "Infinity")) s
      else if (c =? 45) && startswith (u "-Infinity") s
        then expect (u "-Infinity") (JFloat (u "-Infinity")) s
      else
        match match_number s with
        | Some (v, rest) => Done v rest
        | None => Error
        end
    end
  end
with members (fuel : nat) (acc : list (str * json)) (s : str) : scan json :=
  match fuel with
  | O => OutOfFuel
  | S f =>
    match s with
    | [] => Error
    | q :: r =>
      if negb (q =? 34) then Error
      else
        match scanstring r with
        | None => Error
        | Some (key, r1) =>
          match skip_ws r1 with
          | colon :: r2 =>
            if negb (colon =? 58) then Error
            else
              match scan_once f (skip_ws r2) with
              | Done v r3 =>
                match skip_ws r3 with
                | d :: r4 =>
                  if d =? 125 then Done (JObj (rev ((key, v) :: acc))) r4
                  else if d =? 44 then members f ((key, v) :: acc) (skip_ws r4)
                  else Error
                | [] => Error
                end
              | Error => Error
              | OutOfFuel => OutOfFuel
              end
          | [] => Error
          end
        end
    end
  end
with elements (fuel : nat) (acc : list json) (s : str) : scan json :=
  match fuel with
  | O => OutOfFuel
  | S f =>
    match scan_once f s with
    | Done v r1 =>
      match skip_ws r1 with
      | d :: r2 =>
        if d =? 93 then Done (JArr (rev (v :: acc))) r2
        else if d =? 44 then elements f (v :: acc) (skip_ws r2)
        else Error
      | [] => Error
      end
    | Error => Error
    | OutOfFuel => OutOfFuel
    end
  end.

(** [json.loads(s)]: one value between optional white space; [None]
    stands for the [JSONDecodeError] the caller catches. The budget of
    twice the length is never used up ([decode_has_fuel] below). *)
Definition decode (s : str) : scan json :=
  match scan_once (S (2 * length s)) (skip_ws s) with
  | Done v rest =>
    match skip_ws rest with
    | [] => Done v []
    | _ :: _ => Error
    end
  | Error => Error
  | OutOfFuel => OutOfFuel
  end.

Definition loads (s : str) : option json :=
  match decode s with
  | Done v _ => Some v
  | _ => None
  end.

(** [d.get(key)]: the parser keeps the pairs in document order and a later
    pair overrides an earlier one, as the dict it builds does. *)
Fixpoint get (kv : list (str * json)) (key : str) : option json :=
  match kv with
  | [] => None
  | (k, v) :: rest =>
    match get rest key with
    | Some w => Some w
    | None => if eqb k key then Some v else None
    end
  end.

End Json.


(** ** Built-ins left to the interpreter

    Conversions whose result depends on the Unicode database or on
    floating point are taken from the interpreter: they are the fields of
    [PyBuiltins], and every statement below holds for all of them. *)
Class PyBuiltins : Type := {
  (** [s.lower()] for a string with a character outside ASCII *)
  unicode_lower : pystr -> pystr;
  (** [int(s)] for a [str]; [None] is the [ValueError] *)
  int_of_str : pystr -> option Z;
  (** [int(x)] for the [float] written [lit]; [None] is the error raised
      for an infinity or a NaN *)
  int_of_float : pystr -> option Z;
  (** [str(v)] for a [float], a [list] or a [dict] *)
  repr_of : json -> pystr
}.

Section Builtins.
Context `{PyBuiltins}.
Import Py.

(** [s.lower()] *)
Definition lower (s : pystr) : pystr :=
  if forallb is_ascii s then List.map ascii_lower s else unicode_lower s.

(** [str(v)] for a decoded JSON value *)
Definition py_str (v : json) : pystr :=
  match v with
  | JStr s => s
  | JInt z => of_Z z
  | JBool true => u "True"
  | JBool false => u "False"
  | JNull => u "None"
  | _ => repr_of v
  end.

(** [int(v)] for the value of [payload.get(key)]; [None] is the
    exception [int] raises ([TypeError] for [None], a list or a dict) *)
Definition py_int (v : option json) : option Z :=
  match v with
  | Some (JInt z) => Some z
  | Some (JBool b) => Some (if b then 1 else 0)%Z
  | Some (JFloat lit) => int_of_float lit
  | Some (JStr s) => int_of_str s
  | _ => None
  end.

End Builtins.

(** ** The action-check relay: module-level state and helpers *)

Definition _ACTION_CHECK_MARKER_PREFIX : pystr := Py.u "ACTION_CHECK_JSON:".
Definition _ACTION_CHECK_SENTINEL : pystr :=
  Py.u "[impression_affection_plugin:action_check]".
Definition _ACTION_CHECK_CONTEXT_TTL_SECONDS : Q := 120.
Definition _ACTION_CHECK_PENDING_TAG_TTL_SECONDS : Q := 60.

Record ActionCheckContext : Type := {
  stream_id : pystr;
  interaction : pystr;
  chance : Z;
  result : pystr;
  created_at : Q
}.

(** The two dicts [_ACTION_CHECK_CONTEXT_BY_STREAM] and
    [_ACTION_CHECK_PENDING_TAG_BY_STREAM]. *)
Record RelayState : Type := {
  context_by_stream : gmap pystr ActionCheckContext;
  pending_tag_by_stream : gmap pystr (pystr * Q)
}.

Definition pop_context (sid : pystr) (st : RelayState) : RelayState :=
  {| context_by_stream := delete sid (context_by_stream st);
     pending_tag_by_stream := pending_tag_by_stream st |}.

Definition pop_pending (sid : pystr) (st : RelayState) : RelayState :=
  {| context_by_stream := context_by_stream st;
     pending_tag_by_stream := delete sid (pending_tag_by_stream st) |}.

Definition set_context (sid : pystr) (c : ActionCheckContext) (st : RelayState)
  : RelayState :=
  {| context_by_stream := <[sid := c]> (context_by_stream st);
     pending_tag_by_stream := pending_tag_by_stream st |}.

Definition set_pending (sid : pystr) (p : pystr * Q) (st : RelayState)
  : RelayState :=
  {| context_by_stream := context_by_stream st;
     pending_tag_by_stream := <[sid := p]> (pending_tag_by_stream st) |}.

(** [(now - created) > ttl] *)
Definition older_than (now created ttl : Q) : bool :=
  negb (Qle_bool (now - created) ttl).

Definition _clean_expired_action_check_state (sid : pystr) (now : Q)
    (st : RelayState) : RelayState :=
  let st1 :=
    match context_by_stream st !! sid with
    | Some ctx =>
      if older_than now (created_at ctx) _ACTION_CHECK_CONTEXT_TTL_SECONDS
      then pop_context sid st else st
    | None => st
    end in
  match pending_tag_by_stream st1 !! sid with
  | Some tag_entry =>
    if older_than now (snd tag_entry) _ACTION_CHECK_PENDING_TAG_TTL_SECONDS
    then pop_pending sid st1 else st1
  | None => st1
  end.

(** *** The two regular expressions *)

Module Re.
Local Open Scope N_scope.
Import Py.

Definition not_cr_lf (c : N) : bool := negb ((c =? 13) || (c =? 10)).
Definition not_lf (c : N) : bool := negb (c =? 10).

(** The longest prefix of [run] that ends with a closing brace: what the
    greedy class and the brace after it keep of the line. *)
Fixpoint upto_last_brace (run : str) : option str :=
  match run with
  | [] => None
  | c :: r =>
    match upto_last_brace r with
    | Some p => Some (c :: p)
    | None => if c =? 125 then Some [c] else None
    end
  end.

(** A match of the marker pattern (the prefix, white space, then a group
    from an opening brace to the last closing brace of the line) at the
    head of [text]: the group and the length of the match. *)
Definition match_marker (text : str) : option (str * nat) :=
  if startswith _ACTION_CHECK_MARKER_PREFIX text then
    match dropwhile isspace (drop (length _ACTION_CHECK_MARKER_PREFIX) text) with
    | b :: t3 =>
      if b =? 123 then
        match upto_last_brace (takewhile not_cr_lf t3) with
        | Some body => Some (b :: body, (length text - length t3 + length body)%nat)
        | None => None
        end
      else None
    | [] => None
    end
  else None.

(** [re.findall]: the groups of the successive matches, left to right,
    none overlapping; [skip] counts the characters of the current match
    still to pass. *)
Fixpoint findall_from (skip : nat) (text : str) : list str :=
  match text with
  | [] => []
  | _ :: rest =>
    match skip with
    | S k => findall_from k rest
    | O =>
      match match_marker text with
      | Some (g, n) => g :: findall_from (n - 1) rest
      | None => findall_from 0 rest
      end
    end
  end.

Definition findall_marker (text : str) : list str := findall_from 0 text.

(** A match of the line pattern (white space, the prefix, the rest of the
    line and its line feed) at the head of [text], which is at the start
    of a line: the length of the match. *)
Definition match_marker_line (text : str) : option nat :=
  let t1 := dropwhile isspace text in
  if startswith _ACTION_CHECK_MARKER_PREFIX t1 then
    let t3 := dropwhile not_lf (drop (length _ACTION_CHECK_MARKER_PREFIX) t1) in
    Some (length text - length (tl t3))%nat
  else None.

(** [re.sub] of the line pattern by the empty string; [bol] tells whether
    the head of [text] is at the start of a line. *)
Fixpoint sub_from (skip : nat) (bol : bool) (text : str) : str :=
  match text with
  | [] => []
  | c :: rest =>
    match skip with
    | S k => sub_from k (c =? 10) rest
    | O =>
      match (if bol then match_marker_line text else None) with
      | Some n => sub_from (n - 1) (c =? 10) rest
      | None => c :: sub_from 0 (c =? 10) rest
      end
    end
  end.

Definition sub_marker_lines (text : str) : str := sub_from 0 true text.

End Re.

Definition normalize_result (r : pystr) : option pystr :=
  if Py.eqb r (Py.u "ok") || Py.eqb r (Py.u "pass") || Py.eqb r (Py.u "passed")
     || Py.eqb r (Py.u "success")
  then Some (Py.u "success")
  else if Py.eqb r (Py.u "fail") || Py.eqb r (Py.u "failed")
          || Py.eqb r (Py.u "failure")
  then Some (Py.u "fail")
  else None.

Section Parse.
Context `{PyBuiltins}.

Definition _parse_action_check_marker (text : pystr) (now : Q)
  : option ActionCheckContext :=
  if negb (Py.truthy text) then None
  else
    match last (Re.findall_marker text) with
    | None => None
    | Some m =>
      let raw_json := Py.strip m in
      match Json.loads raw_json with
      | Some (JObj payload) =>
        let interaction :=
          Py.strip (py_str (default (JStr []) (Json.get payload (Py.u "interaction")))) in
        let result :=
          lower (Py.strip (py_str (default (JStr []) (Json.get payload (Py.u "result"))))) in
        let chance_raw := Json.get payload (Py.u "chance") in
        match py_int chance_raw with
        | None => None
        | Some chance =>
          match normalize_result result with
          | None => None
          | Some result =>
            let chance := Z.max 0 (Z.min 100 chance) in
            if negb (Py.truthy interaction) then None
            else Some {| stream_id := [];
                         interaction := interaction;
                         chance := chance;
                         result := result;
                         created_at := now |}
          end
        end
      | _ => None
      end
    end.

End Parse.

Definition _strip_action_check_marker_lines (text : pystr) : pystr :=
  if negb (Py.truthy text) then text else Re.sub_marker_lines text.

(** The four characters of the label and the full-width colon. *)
Definition tag_marker : pystr := Py.u "[动作检定：".

Definition zh_result (result : pystr) : pystr :=
  if Py.eqb result (Py.u "success") then Py.u "成功" else Py.u "失败".

Definition _format_action_check_tag (chance : Z) (result : pystr) : pystr :=
  tag_marker ++ Py.u " " ++ Py.of_Z chance ++ Py.u "% " ++ zh_result result
    ++ Py.u "]".

(** ** The message object of the host *)

(** Reading an attribute yields its value or raises. *)
Inductive attr (A : Type) : Type :=
  | Has (a : A)
  | Broken (e : pystr).
Arguments Has {A} a.
Arguments Broken {A} e.

Definition read {A : Type} (a : attr A) : exc A :=
  match a with
  | Has v => Ok v
  | Broken e => Raised e
  end.

(** The payload of a segment: a [str], or anything else (a nested list
    of segments, [None], no [data] attribute at all). *)
Inductive SegData : Type :=
  | DataStr (s : pystr)
  | DataOther.

(** [seg_type] is [getattr(seg, "type", None)]. *)
Record Seg : Type := {
  seg_type : option pystr;
  seg_data : SegData
}.

Module MaiMessages.
Record t : Type := {
  llm_prompt : attr (option pystr);
  stream_id : attr (option pystr);
  message_segments : attr (option (list Seg));
  message_base_info : attr (gmap pystr pystr)
}.

(** Modelled from the spec: the host's message object gives read and
    modify access to the prompt string; [modify_llm_prompt] stores the new
    prompt in the object. *)
Definition modify_llm_prompt (m : t) (prompt : pystr) : t :=
  {| llm_prompt := Has (Some prompt);
     stream_id := stream_id m;
     message_segments := message_segments m;
     message_base_info := message_base_info m |}.

(** Modelled from the spec: the host's message object gives read and
    modify access to the list of outgoing segments;
    [modify_message_segments] stores the new list in the object. *)
Definition modify_message_segments (m : t) (segs : list Seg) : t :=
  {| llm_prompt := llm_prompt m;
     stream_id := stream_id m;
     message_segments := Has (Some segs);
     message_base_info := message_base_info m |}.
End MaiMessages.

(** [bool(x)] for an optional string: [None] and the empty string are
    false. *)
Definition truthy_opt (x : option pystr) : bool :=
  match x with
  | Some s => Py.truthy s
  | None => false
  end.

Record CustomEventHandlerResult : Type := { message : pystr }.

(** The tuple a handler returns: the two flags, a note, a custom result,
    the modified message. *)
Definition HandlerResult : Type :=
  bool * bool * option pystr * option CustomEventHandlerResult
  * option MaiMessages.t.

(** [return True, True, None, None, None] *)
Definition pass_through : HandlerResult := (true, true, None, None, None).

(** The section [action_check] of the configuration, after [bool(...)]. *)
Record ActionCheckConfig : Type := {
  enabled : bool;
  show_roll_result : bool
}.

(** What the planner handler reads outside the message:
    [MessageService.normalize_user_id], and the row of [UserImpression]
    for a user, as the text of its score formatted with one decimal and
    its level ([None]: no level stored). *)
Record PlannerEnv : Type := {
  normalize_user_id : pystr -> exc pystr;
  select_impression : pystr -> exc (option (pystr * option pystr))
}.

(** *** Point A: [ActionCheckPlannerPromptHandler] *)

Module ActionCheckPlannerPromptHandler.
Import Py.

Definition extra_block (show : bool)
    (platform raw_user_id affection_score affection_level : pystr) : pystr :=
  _ACTION_CHECK_SENTINEL ++ u "
【动作检定（action_check）插件协议】
当你判断“用户正在尝试与麦麦进行直接动作互动”（例如：抱抱、亲亲、摸头、rua 等）时：
1) 请在同一轮规划中同时选择 reply 与 action_check（不要只选 action_check）。
2) action_check 的 JSON 需要包含字段：
   - interaction: 动作名（字符串）
   - chance: 成功率（0-100 整数，已综合基础概率/好感度/上下文）
   - result: success 或 fail（由你根据 chance 与上下文直接决定，不要让程序随机）
3) 必须在 JSON 代码块之前的推理文本末尾追加一行（仅当选择 action_check 时输出）：
   ACTION_CHECK_JSON: {" ++ quote ++ u "interaction" ++ quote ++ u ":" ++ quote
  ++ u "抱抱" ++ quote ++ u "," ++ quote ++ u "chance" ++ quote ++ u ":80,"
  ++ quote ++ u "result" ++ quote ++ u ":" ++ quote ++ u "fail" ++ quote ++ u "}
   - 这行必须是单行严格 JSON
   - 不要输出除这一行之外的其他 ACTION_CHECK_JSON 标记

当前用户信息（供你参考）：
- platform: " ++ platform ++ u "
- user_id: " ++ raw_user_id ++ u "
- affection_score: " ++ affection_score ++ u "/100
- affection_level: " ++ affection_level ++ u "

备注：" ++ (if show
            then u "机器人会在最终回复开头自动加上检定标签，你无需在回复正文里复述该标签。"
            else u "当前配置关闭了检定标签展示。").

Definition body (cfg : ActionCheckConfig) (env : PlannerEnv)
    (message : option MaiMessages.t) : exc HandlerResult :=
  if negb (enabled cfg) then Ok pass_through
  else
    match message with
    | None => Ok pass_through
    | Some msg =>
      match read (MaiMessages.llm_prompt msg) with
      | Raised e => Raised e
      | Ok p =>
        if negb (truthy_opt p) then Ok pass_through
        else
          let prompt := default [] p in
          if contains _ACTION_CHECK_SENTINEL prompt then Ok pass_through
          else
            match read (MaiMessages.message_base_info msg) with
            | Raised e => Raised e
            | Ok info =>
              let platform := default [] (info !! u "platform") in
              let raw_user_id := default [] (info !! u "user_id") in
              match normalize_user_id env raw_user_id with
              | Raised e => Raised e
              | Ok user_id =>
                let '(affection_score, affection_level) :=
                  match select_impression env user_id with
                  | Ok (Some (score, level)) =>
                    (score,
                     match level with
                     | Some l => if truthy l then l else u "一般"
                     | None => u "一般"
                     end)
                  | _ => (u "50.0", u "一般")
                  end in
                let block :=
                  extra_block (show_roll_result cfg) platform raw_user_id
                    affection_score affection_level in
                let msg' :=
                  MaiMessages.modify_llm_prompt msg
                    (rstrip prompt ++ u "

" ++ block) in
                Ok (true, true, Some (u "动作检定 planner 协议已注入"), None,
                    Some msg')
              end
            end
      end
    end.

Definition execute (cfg : ActionCheckConfig) (env : PlannerEnv)
    (message : option MaiMessages.t) : HandlerResult :=
  match body cfg env message with
  | Ok r => r
  | Raised _ => pass_through
  end.

End ActionCheckPlannerPromptHandler.

(** The body of a [try] block of a relay handler: the state as the body
    leaves it, whether it returns or raises, and its outcome. On an
    exception [execute] logs and returns the pass-through tuple. *)
Definition guarded (r : RelayState * exc HandlerResult)
  : RelayState * HandlerResult :=
  match r with
  | (st, Ok res) => (st, res)
  | (st, Raised _) => (st, pass_through)
  end.

(** *** Point B: [ActionCheckPostLLMHandler] *)

Module ActionCheckPostLLMHandler.
Import Py.
Section WithBuiltins.
Context `{PyBuiltins}.

Definition injected (parsed : ActionCheckContext) : pystr :=
  _ACTION_CHECK_SENTINEL ++ u "
【动作检定结果】
动作：" ++ interaction parsed ++ u "
成功率：" ++ of_Z (chance parsed) ++ u "%
结果：" ++ zh_result (result parsed) ++ u "

以上信息仅供你生成回复时参考。
注意：不要在回复中输出 ACTION_CHECK_JSON 或其他内部标记。".

Definition with_stream_id (sid : pystr) (c : ActionCheckContext)
  : ActionCheckContext :=
  {| stream_id := sid;
     interaction := interaction c;
     chance := chance c;
     result := result c;
     created_at := created_at c |}.

Definition body (cfg : ActionCheckConfig) (now : Q)
    (message : option MaiMessages.t) (st : RelayState)
  : RelayState * exc HandlerResult :=
  if negb (enabled cfg) then (st, Ok pass_through)
  else
    match message with
    | None => (st, Ok pass_through)
    | Some msg =>
      match read (MaiMessages.llm_prompt msg) with
      | Raised e => (st, Raised e)
      | Ok p =>
        if negb (truthy_opt p) then (st, Ok pass_through)
        else
          match read (MaiMessages.stream_id msg) with
          | Raised e => (st, Raised e)
          | Ok sid_raw =>
            if negb (truthy_opt sid_raw) then (st, Ok pass_through)
            else
              let prompt := default [] p in
              let sid := default [] sid_raw in
              let st1 := _clean_expired_action_check_state sid now st in
              match _parse_action_check_marker prompt now with
              | None => (pop_context sid st1, Ok pass_through)
              | Some parsed0 =>
                let parsed := with_stream_id sid parsed0 in
                let st2 := set_context sid parsed st1 in
                let cleaned_prompt := _strip_action_check_marker_lines prompt in
                let msg' :=
                  MaiMessages.modify_llm_prompt msg
                    (rstrip cleaned_prompt ++ u "

" ++ injected parsed) in
                (st2,
                 Ok (true, true, Some (u "动作检定结果已注入 replyer prompt"),
                     None, Some msg'))
              end
          end
      end
    end.

Definition execute (cfg : ActionCheckConfig) (now : Q)
    (message : option MaiMessages.t) (st : RelayState)
  : RelayState * HandlerResult :=
  guarded (body cfg now message st).

End WithBuiltins.
End ActionCheckPostLLMHandler.

(** *** Point C: [ActionCheckAfterLLMHandler] *)

Module ActionCheckAfterLLMHandler.
Import Py.

Definition body (cfg : ActionCheckConfig) (now : Q)
    (message : option MaiMessages.t) (st : RelayState)
  : RelayState * exc HandlerResult :=
  if negb (enabled cfg) || negb (show_roll_result cfg) then (st, Ok pass_through)
  else
    match message with
    | None => (st, Ok pass_through)
    | Some msg =>
      match read (MaiMessages.stream_id msg) with
      | Raised e => (st, Raised e)
      | Ok sid_raw =>
        if negb (truthy_opt sid_raw) then (st, Ok pass_through)
        else
          let sid := default [] sid_raw in
          let st1 := _clean_expired_action_check_state sid now st in
          match context_by_stream st1 !! sid with
          | None => (st1, Ok pass_through)
          | Some ctx =>
            let tag := _format_action_check_tag (chance ctx) (result ctx) in
            (set_pending sid (tag, now) st1,
             Ok (true, true, Some (u "动作检定标签已准备"), None, None))
          end
      end
    end.

Definition execute (cfg : ActionCheckConfig) (now : Q)
    (message : option MaiMessages.t) (st : RelayState)
  : RelayState * HandlerResult :=
  guarded (body cfg now message st).

End ActionCheckAfterLLMHandler.

(** *** Point D: [ActionCheckPostSendPrefixHandler] *)

Module ActionCheckPostSendPrefixHandler.
Import Py.

Definition is_text (seg : Seg) : bool :=
  match seg_type seg with
  | Some ty => eqb ty (u "text")
  | None => false
  end.

(** The loop over the segments: it stops at the first segment of type
    [text] whose payload is a [str]; the segment is updated in place, so
    the list the message holds is the list with that segment changed. *)
Inductive loop_result : Type :=
  | AlreadyTagged
  | Prefixed (segs : list Seg)
  | NoTextSegment.

Fixpoint prefix_loop (tag : pystr) (segs : list Seg) : loop_result :=
  match segs with
  | [] => NoTextSegment
  | seg :: rest =>
    let continue :=
      match prefix_loop tag rest with
      | Prefixed rest' => Prefixed (seg :: rest')
      | r => r
      end in
    if negb (is_text seg) then continue
    else
      match seg_data seg with
      | DataOther => continue
      | DataStr text =>
        if startswith tag_marker (lstrip text) then AlreadyTagged
        else
          let prefixed := rstrip (tag ++ u " " ++ text) in
          Prefixed ({| seg_type := seg_type seg; seg_data := DataStr prefixed |}
                      :: rest)
      end
  end.

Definition body (cfg : ActionCheckConfig) (now : Q)
    (message : option MaiMessages.t) (st : RelayState)
  : RelayState * exc HandlerResult :=
  if negb (enabled cfg) || negb (show_roll_result cfg) then (st, Ok pass_through)
  else
    match message with
    | None => (st, Ok pass_through)
    | Some msg =>
      match read (MaiMessages.stream_id msg) with
      | Raised e => (st, Raised e)
      | Ok sid_raw =>
        if negb (truthy_opt sid_raw) then (st, Ok pass_through)
        else
          let sid := default [] sid_raw in
          let st1 := _clean_expired_action_check_state sid now st in
          match pending_tag_by_stream st1 !! sid with
          | None => (st1, Ok pass_through)
          | Some (tag, _) =>
            match read (MaiMessages.message_segments msg) with
            | Raised e => (st1, Raised e)
            | Ok None | Ok (Some []) => (st1, Ok pass_through)
            | Ok (Some segs) =>
              match prefix_loop tag segs with
              | AlreadyTagged =>
                (pop_context sid (pop_pending sid st1), Ok pass_through)
              | NoTextSegment => (st1, Ok pass_through)
              | Prefixed modified_segments =>
                let msg' :=
                  MaiMessages.modify_message_segments msg modified_segments in
                (pop_context sid (pop_pending sid st1),
                 Ok (true, true, Some (u "动作检定标签已加到发送消息"), None,
                     Some msg'))
              end
            end
          end
      end
    end.

Definition execute (cfg : ActionCheckConfig) (now : Q)
    (message : option MaiMessages.t) (st : RelayState)
  : RelayState * HandlerResult :=
  guarded (body cfg now message st).

End ActionCheckPostSendPrefixHandler.

(** ** The update orchestrator: [ImpressionUpdateHandler] *)

Module ImpressionUpdateHandler.
Import Py.

(** The calls the handler makes to its services, as they appear in the
    trace. *)
Inductive Call : Type :=
  | EvIsProcessed (user_id message_id : pystr)
  | EvGetFiltered (user_id : pystr) (limit : Z)
  | EvRecordProcessed (user_id msg_id : pystr)
  | EvEvaluate (user_id message_id message_content history_context : pystr)
  | EvBuildImpression (user_id message_content latest_context : pystr)
  | EvUpdateAffection (user_id message_content : pystr)
  | EvUpdateState (user_id message_id : pystr)
      (impression_updated affection_updated : bool).

(** Modelled from the spec: the processed-ledger of [MessageService] is a
    set of (subject, message id) pairs; [is_processed] is membership and
    [record] adds the pair (recording twice changes nothing). The trace
    lists the calls made so far, oldest first. *)
Record World : Type := {
  ledger : gset (pystr * pystr);
  trace : list Call
}.

(** The services and the configuration the handler holds; the answer of a
    service may depend on everything that happened before the call. *)
Record Services : Type := {
  answer_get_filtered_messages : World -> pystr -> Z -> exc (pystr * list pystr);
  answer_evaluate_message :
    World -> pystr -> pystr -> pystr -> pystr -> exc (bool * Q * pystr);
  answer_build_impression : World -> pystr -> pystr -> pystr -> exc (bool * pystr);
  answer_update_affection : World -> pystr -> pystr -> exc (bool * pystr);
  answer_update_message_state : World -> pystr -> pystr -> bool -> bool -> exc unit;
  filter_mode : pystr;
  high_threshold : Q;
  medium_threshold : Q;
  max_messages : Z
}.

(** Lines 440 to 567 of [handle] resolve the turn from the event with the
    host's chat manager and database; their outcome is the input of the
    model: an early return with a note, or the subject, the text and the
    message id. *)
Inductive Resolution : Type :=
  | Rejected (note : pystr)
  | Resolved (user_id message_content message_id : pystr).

(** State and exceptions: the world a computation leaves is kept when it
    raises. *)
Definition M (A : Type) : Type := World -> World * exc A.

#[global] Instance M_ret : MRet M := fun A a w => (w, Ok a).
#[global] Instance M_bind : MBind M := fun A B f m w =>
  match m w with
  | (w', Ok a) => f a w'
  | (w', Raised e) => (w', Raised e)
  end.

Definition lift {A : Type} (r : exc A) : M A := fun w => (w, r).

(** [try: body except Exception as e: handler(e)] *)
Definition try_except {A : Type} (body : M A) (handler : pystr -> M A) : M A :=
  fun w =>
    match body w with
    | (w', Ok a) => (w', Ok a)
    | (w', Raised e) => handler e w'
    end.

Definition log (c : Call) (w : World) : World :=
  {| ledger := ledger w; trace := trace w ++ [c] |}.

Definition is_message_processed (user_id message_id : pystr) : M bool :=
  fun w =>
    (log (EvIsProcessed user_id message_id) w,
     Ok (bool_decide ((user_id, message_id) ∈ ledger w))).

Definition record_processed_message (user_id msg_id : pystr) : M unit :=
  fun w =>
    ({| ledger := {[ (user_id, msg_id) ]} ∪ ledger w;
        trace := trace w ++ [EvRecordProcessed user_id msg_id] |},
     Ok tt).

Section WithServices.
Variable sv : Services.

Definition get_filtered_messages (user_id : pystr) (limit : Z)
  : M (pystr * list pystr) :=
  fun w =>
    (log (EvGetFiltered user_id limit) w,
     answer_get_filtered_messages sv w user_id limit).

Definition evaluate_message (user_id message_id message_content ctx : pystr)
  : M (bool * Q * pystr) :=
  fun w =>
    (log (EvEvaluate user_id message_id message_content ctx) w,
     answer_evaluate_message sv w user_id message_id message_content ctx).

Definition build_impression (user_id message_content ctx : pystr)
  : M (bool * pystr) :=
  fun w =>
    (log (EvBuildImpression user_id message_content ctx) w,
     answer_build_impression sv w user_id message_content ctx).

Definition update_affection (user_id message_content : pystr)
  : M (bool * pystr) :=
  fun w =>
    (log (EvUpdateAffection user_id message_content) w,
     answer_update_affection sv w user_id message_content).

Definition update_message_state (user_id message_id : pystr)
    (impression_updated affection_updated : bool) : M unit :=
  fun w =>
    (log (EvUpdateState user_id message_id impression_updated affection_updated) w,
     answer_update_message_state sv w user_id message_id
       impression_updated affection_updated).

(** [for msg_id in message_ids_in_context: record_processed_message(...)] *)
Fixpoint mark_all (user_id : pystr) (ids : list pystr) : M unit :=
  match ids with
  | [] => mret tt
  | msg_id :: rest =>
    _ ← record_processed_message user_id msg_id; mark_all user_id rest
  end.

(** [len(history_context.strip()) == 0] *)
Definition is_blank (history_context : pystr) : bool :=
  negb (truthy (strip history_context)).

(** The decision of lines 612 to 635. *)
Definition should_update (history_context : pystr) (weight_success : bool)
    (weight_score : Q) : bool :=
  if is_blank history_context then false
  else if weight_success then
    if eqb (filter_mode sv) (u "disabled") then true
    else if eqb (filter_mode sv) (u "selective")
      then Qle_bool (high_threshold sv) weight_score
    else if eqb (filter_mode sv) (u "balanced")
      then Qle_bool (medium_threshold sv) weight_score
    else false
  else false.

(** [handle] from line 592 on: the evaluation of the weight, the two
    derivations and the message state. *)
Definition dispatch (user_id message_content message_id history_context : pystr)
  : M CustomEventHandlerResult :=
  '(weight_success, weight_score, weight_level) ←
    (if is_blank history_context then mret (false, 0%Q, u "low")
     else evaluate_message user_id message_id message_content history_context);
  let should_update_impression :=
    should_update history_context weight_success weight_score in
  impression_updated ←
    (if should_update_impression then
       try_except
         ('(latest_context, latest_message_ids) ←
            get_filtered_messages user_id (max_messages sv);
          '(success, impression_result) ←
            build_impression user_id message_content latest_context;
          mret success)
         (fun _ => mret false)
     else mret false);
  affection_updated ←
    try_except
      ('(success, affection_result) ← update_affection user_id message_content;
       mret success)
      (fun _ => mret false);
  _ ← update_message_state user_id message_id impression_updated
        affection_updated;
  mret {| message := u "印象和好感度更新完成" |}.

(** [handle] from the check of the ledger (line 569) to the marking of
    the window (line 590), then [dispatch]. *)
Definition process (user_id message_content message_id : pystr)
  : M CustomEventHandlerResult :=
  is_processed ← is_message_processed user_id message_id;
  if (is_processed : bool) then mret {| message := u "消息已处理，跳过" |}
  else
    '(history_context, message_ids_in_context) ←
      get_filtered_messages user_id (max_messages sv);
    _ ← mark_all user_id message_ids_in_context;
    dispatch user_id message_content message_id history_context.

Definition handle (resolved : exc Resolution) : M CustomEventHandlerResult :=
  try_except
    (r ← lift resolved;
     match r with
     | Rejected note => mret {| message := note |}
     | Resolved user_id message_content message_id =>
       process user_id message_content message_id
     end)
    (fun e => mret {| message := u "异常: " ++ e |}).

(** The detached task: an exception of [_ensure_services_initialized] or
    of [handle] is logged and dropped. *)
Definition _async_update_impression (init : exc unit)
    (resolved : exc Resolution) : M unit :=
  try_except (_ ← lift init; _ ← handle resolved; mret tt) (fun _ => mret tt).

(** [execute]: [init] is the outcome of [_ensure_services_initialized]
    and [create_task] that of handing the task to the event loop; the
    message is passed on to the task and not inspected. *)
Definition execute (init : exc unit)
    (create_task : option MaiMessages.t -> exc unit)
    (message : option MaiMessages.t) : HandlerResult :=
  match init with
  | Raised e => (true, true, Some (u "印象更新执行失败: " ++ e), None, None)
  | Ok _ =>
    match create_task message with
    | Raised e => (true, true, Some (u "印象更新执行失败: " ++ e), None, None)
    | Ok _ => (true, true, Some (u "印象更新任务已启动"), None, None)
    end
  end.

End WithServices.
End ImpressionUpdateHandler.

(** ** Vocabulary of the statements *)

(** The message the host goes on with after a handler: the one the
    handler returns, or the one it was given. *)
Definition continue_with (message : option MaiMessages.t) (r : HandlerResult)
  : option MaiMessages.t :=
  match r with
  | (_, _, _, _, Some m) => Some m
  | (_, _, _, _, None) => message
  end.

Definition modified_message (r : HandlerResult) : option MaiMessages.t :=
  snd r.

Definition error_marker (r : HandlerResult) : option CustomEventHandlerResult :=
  snd (fst r).

Definition flags (r : HandlerResult) : bool * bool :=
  fst (fst (fst r)).


(** The tuple tells the host to go on: both flags are set and there is
    no custom result. *)
Definition continues (r : HandlerResult) : Prop :=
  flags r = (true, true) /\ error_marker r = None.

(** *** The relay *)

(** The result tokens the parser accepts, and the value each stands
    for. *)
Definition synonym_table : list pystr :=
  [Py.u "ok"; Py.u "pass"; Py.u "passed"; Py.u "success";
   Py.u "fail"; Py.u "failed"; Py.u "failure"].

Definition canonical (token : pystr) : pystr :=
  if bool_decide (In token [Py.u "ok"; Py.u "pass"; Py.u "passed"; Py.u "success"])
  then Py.u "success" else Py.u "fail".

Section MarkerVocabulary.
Context `{PyBuiltins}.

(** The text of a field of the payload, as the parser reads it:
    [str(payload.get(key, ""))]. *)
Definition field_text (payload : list (pystr * json)) (key : pystr) : pystr :=
  py_str (default (JStr []) (Json.get payload key)).

(** The decision found in the group [m] of a marker is malformed: the
    JSON does not parse to an object, or the interaction is missing or
    empty, or the result token is not in the synonym table. *)
Definition malformed (m : pystr) : Prop :=
  Json.loads (Py.strip m) = None
  \/ (exists v, Json.loads (Py.strip m) = Some v
                /\ forall payload, v <> JObj payload)
  \/ (exists payload,
        Json.loads (Py.strip m) = Some (JObj payload)
        /\ (Json.get payload (Py.u "interaction") = None
            \/ Py.strip (field_text payload (Py.u "interaction")) = []
            \/ ~ In (lower (Py.strip (field_text payload (Py.u "result"))))
                    synonym_table)).

End MarkerVocabulary.

(** The head of the text after [pre] is at the start of a line, [b]
    telling it for an empty [pre]. *)
Definition bol_after (b : bool) (pre : pystr) : bool :=
  match last pre with
  | None => b
  | Some c => (c =? 10)%N
  end.

(** [s] begins, after optional white space, with the marker prefix. *)
Definition starts_marker (s : pystr) : bool :=
  Py.startswith _ACTION_CHECK_MARKER_PREFIX (Py.dropwhile Py.isspace s).

(** The position after [pre] is the start of a line. *)
Definition line_start (pre : pystr) : Prop :=
  pre = [] \/ exists pre', pre = pre' ++ [10%N].

(** No line of [s] begins, after optional white space, with the marker
    prefix. *)
Definition no_marker_line (s : pystr) : Prop :=
  forall pre post, s = pre ++ post -> line_start pre ->
                   Re.match_marker_line post = None.

(** A segment of type [text] whose payload is the string [text]. *)
Definition text_bearing (seg : Seg) (text : pystr) : Prop :=
  seg_type seg = Some (Py.u "text") /\ seg_data seg = DataStr text.

(** No segment of the list is of type [text] with a string payload. *)
Definition no_text_segment (segs : list Seg) : Prop :=
  Forall (fun seg => forall text, ~ text_bearing seg text) segs.

Definition text_segment (text : pystr) : Seg :=
  {| seg_type := Some (Py.u "text"); seg_data := DataStr text |}.

(** Both entries of a conversation are absent. *)
Definition cleared (sid : pystr) (st : RelayState) : Prop :=
  context_by_stream st !! sid = None /\ pending_tag_by_stream st !! sid = None.

(** The entries of every other conversation are the same in both
    states. *)
Definition same_elsewhere (sid : pystr) (st st' : RelayState) : Prop :=
  forall k, k <> sid ->
    context_by_stream st' !! k = context_by_stream st !! k
    /\ pending_tag_by_stream st' !! k = pending_tag_by_stream st !! k.

(** *** The turn of the orchestrator

    The worlds at which the services are asked during
    [handle (Ok (Resolved user_id message_content message_id))]. *)

Module Turn.
Import Py ImpressionUpdateHandler.

Definition after_check (user_id message_id : pystr) (w : World) : World :=
  log (EvIsProcessed user_id message_id) w.

Definition after_fetch (sv : Services) (user_id message_id : pystr) (w : World)
  : World :=
  log (EvGetFiltered user_id (max_messages sv)) (after_check user_id message_id w).

Definition after_marking (sv : Services) (user_id message_id : pystr)
    (ids : list pystr) (w : World) : World :=
  fst (mark_all user_id ids (after_fetch sv user_id message_id w)).

(** The filter mode accepts the score. *)
Definition accepts (sv : Services) (score : Q) : Prop :=
  filter_mode sv = u "disabled"
  \/ (filter_mode sv = u "selective" /\ (high_threshold sv <= score)%Q)
  \/ (filter_mode sv = u "balanced" /\ (medium_threshold sv <= score)%Q).

(** The gate passes: the window fetched is not blank, the evaluation
    succeeded and the filter mode accepts its score. *)
Definition gate_open (sv : Services) (user_id message_content message_id : pystr)
    (w : World) : Prop :=
  exists ctx ids score level,
    answer_get_filtered_messages sv (after_check user_id message_id w)
      user_id (max_messages sv) = Ok (ctx, ids)
    /\ is_blank ctx = false
    /\ answer_evaluate_message sv (after_marking sv user_id message_id ids w)
         user_id message_id message_content ctx = Ok (true, score, level)
    /\ accepts sv score.

(** The calls made between two worlds of one run. *)
Definition events_since (w w' : World) : list Call :=
  drop (length (trace w)) (trace w').

Definition is_record (ev : Call) : bool :=
  match ev with
  | EvRecordProcessed _ _ => true
  | _ => false
  end.

Definition is_profile_derivation (ev : Call) : bool :=
  match ev with
  | EvBuildImpression _ _ _ => true
  | _ => false
  end.

Definition is_score_derivation (ev : Call) : bool :=
  match ev with
  | EvUpdateAffection _ _ => true
  | _ => false
  end.

End Turn.

(** ** Sample data for the examples *)

Module Sample.
Import Py.

(** Built-ins that leave the conversions outside ASCII and the integers
    undone; the examples do not reach them. *)
Definition builtins : PyBuiltins :=
  {| unicode_lower := fun s => s;
     int_of_str := fun _ => None;
     int_of_float := fun _ => None;
     repr_of := fun _ => [] |}.

(** The marker line of a decision. *)
Definition marker (interaction chance result : string) : pystr :=
  u "ACTION_CHECK_JSON: {" ++ quote ++ u "interaction" ++ quote ++ u ":"
    ++ quote ++ u interaction ++ quote ++ u "," ++ quote ++ u "chance" ++ quote
    ++ u ":" ++ u chance ++ u "," ++ quote ++ u "result" ++ quote ++ u ":"
    ++ quote ++ u result ++ quote ++ u "}".

Definition cfg_on : ActionCheckConfig :=
  {| enabled := true; show_roll_result := true |}.

Definition env : PlannerEnv :=
  {| normalize_user_id := fun raw => Ok raw;
     select_impression := fun _ => Ok None |}.

Definition message_with (prompt : pystr) (segs : list Seg) : MaiMessages.t :=
  {| MaiMessages.llm_prompt := Has (Some prompt);
     MaiMessages.stream_id := Has (Some (u "stream-1"));
     MaiMessages.message_segments := Has (Some segs);
     MaiMessages.message_base_info := Has ∅ |}.

Definition sid : pystr := u "stream-1".

(** A message whose [stream_id] raises when read. *)
Definition broken_message : MaiMessages.t :=
  {| MaiMessages.llm_prompt := Has (Some (u "prompt"));
     MaiMessages.stream_id := Broken (u "boom");
     MaiMessages.message_segments := Broken (u "boom");
     MaiMessages.message_base_info := Broken (u "boom") |}.

Definition empty_state : RelayState :=
  {| context_by_stream := ∅; pending_tag_by_stream := ∅ |}.

(** A state whose only entry is a pending tag for the sample stream. *)
Definition pending_state (tag : pystr) (ts : Q) : RelayState :=
  {| context_by_stream := ∅;
     pending_tag_by_stream := {[ sid := (tag, ts) ]} |}.

(** A state whose only entry is a context for the sample stream. *)
Definition context_state (c : ActionCheckContext) : RelayState :=
  {| context_by_stream := {[ sid := c ]};
     pending_tag_by_stream := ∅ |}.

Definition hug_context (t : Q) : ActionCheckContext :=
  {| stream_id := sid; interaction := u "hug"; chance := 80;
     result := u "fail"; created_at := t |}.

(** Services whose history window is empty and whose derivations
    succeed. *)
Definition quiet_services : ImpressionUpdateHandler.Services :=
  {| ImpressionUpdateHandler.answer_get_filtered_messages :=
       fun _ _ _ => Ok ([], []);
     ImpressionUpdateHandler.answer_evaluate_message :=
       fun _ _ _ _ _ => Ok (true, 90%Q, u "high");
     ImpressionUpdateHandler.answer_build_impression :=
       fun _ _ _ _ => Ok (true, u "profile");
     ImpressionUpdateHandler.answer_update_affection :=
       fun _ _ _ => Ok (true, u "friendly");
     ImpressionUpdateHandler.answer_update_message_state :=
       fun _ _ _ _ _ => Ok tt;
     ImpressionUpdateHandler.filter_mode := u "selective";
     ImpressionUpdateHandler.high_threshold := 70%Q;
     ImpressionUpdateHandler.medium_threshold := 40%Q;
     ImpressionUpdateHandler.max_messages := 20%Z |}.

(** Services whose history window holds two messages. *)
Definition busy_services : ImpressionUpdateHandler.Services :=
  {| ImpressionUpdateHandler.answer_get_filtered_messages :=
       fun _ _ _ => Ok (u "hello there", [u "m1"; u "m2"]);
     ImpressionUpdateHandler.answer_evaluate_message :=
       fun _ _ _ _ _ => Ok (true, 90%Q, u "high");
     ImpressionUpdateHandler.answer_build_impression :=
       fun _ _ _ _ => Ok (true, u "profile");
     ImpressionUpdateHandler.answer_update_affection :=
       fun _ _ _ => Ok (true, u "friendly");
     ImpressionUpdateHandler.answer_update_message_state :=
       fun _ _ _ _ _ => Ok tt;
     ImpressionUpdateHandler.filter_mode := u "selective";
     ImpressionUpdateHandler.high_threshold := 70%Q;
     ImpressionUpdateHandler.medium_threshold := 40%Q;
     ImpressionUpdateHandler.max_messages := 20%Z |}.

Definition world0 : ImpressionUpdateHandler.World :=
  {| ImpressionUpdateHandler.ledger := ∅; ImpressionUpdateHandler.trace := [] |}.

Definition world_seen : ImpressionUpdateHandler.World :=
  {| ImpressionUpdateHandler.ledger := {[ (u "U1", u "m0") ]};
     ImpressionUpdateHandler.trace := [] |}.

End Sample.
(** * The rest of the plugin *)

From Stdlib Require DecimalZ DecimalPos.

(** ** Services that fail, for the examples *)

Module Faulty.
Import Py.

(** Services whose window holds two messages and whose evaluation
    raises. *)
Definition failing_evaluation : ImpressionUpdateHandler.Services :=
  {| ImpressionUpdateHandler.answer_get_filtered_messages :=
       fun _ _ _ => Ok (u "hello there", [u "m1"; u "m2"]);
     ImpressionUpdateHandler.answer_evaluate_message :=
       fun _ _ _ _ _ => Raised (u "timeout");
     ImpressionUpdateHandler.answer_build_impression :=
       fun _ _ _ _ => Ok (true, u "profile");
     ImpressionUpdateHandler.answer_update_affection :=
       fun _ _ _ => Ok (true, u "friendly");
     ImpressionUpdateHandler.answer_update_message_state :=
       fun _ _ _ _ _ => Ok tt;
     ImpressionUpdateHandler.filter_mode := u "disabled";
     ImpressionUpdateHandler.high_threshold := 70%Q;
     ImpressionUpdateHandler.medium_threshold := 40%Q;
     ImpressionUpdateHandler.max_messages := 20%Z |}.

(** Services whose evaluation lets every message through and whose two
    derivations raise. *)
Definition failing_derivations : ImpressionUpdateHandler.Services :=
  {| ImpressionUpdateHandler.answer_get_filtered_messages :=
       fun _ _ _ => Ok (u "hello there", [u "m1"; u "m2"]);
     ImpressionUpdateHandler.answer_evaluate_message :=
       fun _ _ _ _ _ => Ok (true, 90%Q, u "high");
     ImpressionUpdateHandler.answer_build_impression :=
       fun _ _ _ _ => Raised (u "no model");
     ImpressionUpdateHandler.answer_update_affection :=
       fun _ _ _ => Raised (u "no model");
     ImpressionUpdateHandler.answer_update_message_state :=
       fun _ _ _ _ _ => Ok tt;
     ImpressionUpdateHandler.filter_mode := u "disabled";
     ImpressionUpdateHandler.high_threshold := 70%Q;
     ImpressionUpdateHandler.medium_threshold := 40%Q;
     ImpressionUpdateHandler.max_messages := 20%Z |}.

End Faulty.

(** ** The administrator commands of [components/commands.py] *)

Module Commands.
Import Py.

(** The values a configuration entry or an attribute of the sender can
    hold: [None], a [bool], an [int], a [str]. *)
Inductive Scalar : Type :=
  | SNone
  | SBool (b : bool)
  | SInt (z : Z)
  | SStr (s : pystr).

(** [bool(v)] *)
Definition scalar_truthy (v : Scalar) : bool :=
  match v with
  | SNone => false
  | SBool b => b
  | SInt z => negb (z =? 0)%Z
  | SStr s => truthy s
  end.

(** [str(v)] *)
Definition scalar_str (v : Scalar) : pystr :=
  match v with
  | SNone => u "None"
  | SBool true => u "True"
  | SBool false => u "False"
  | SInt z => of_Z z
  | SStr s => s
  end.

(** A value of the configuration: a scalar, a list of scalars or a table
    of scalars. *)
Inductive ConfigValue : Type :=
  | CScalar (v : Scalar)
  | CList (l : list Scalar)
  | CDict (d : gmap pystr Scalar).

Definition config_truthy (v : ConfigValue) : bool :=
  match v with
  | CScalar x => scalar_truthy x
  | CList l => match l with [] => false | _ => true end
  | CDict d => negb (bool_decide (d = ∅))
  end.

(** [type(v).__name__] *)
Definition type_name (v : ConfigValue) : pystr :=
  match v with
  | CScalar SNone => u "NoneType"
  | CScalar (SBool _) => u "bool"
  | CScalar (SInt _) => u "int"
  | CScalar (SStr _) => u "str"
  | CList _ => u "list"
  | CDict _ => u "dict"
  end.

(** [s in l] for a [str] [s]: an entry that is not a [str] is equal to
    no [str]. *)
Definition str_in (s : pystr) (l : list Scalar) : bool :=
  existsb (fun v => match v with SStr t => eqb s t | _ => false end) l.

Definition _is_admin_platform_user_id (platform user_id : pystr)
    (admin_list : list Scalar) : bool :=
  if negb (truthy platform) || negb (truthy user_id) then false
  else
    let platform_user_id := platform ++ u ":" ++ user_id in
    str_in platform_user_id admin_list || str_in user_id admin_list.

(** [self.message.message_info] as [_is_admin] reads it: [platform] is
    [getattr(message_info, "platform", "")], and [user_id] is
    [getattr(user_info, "user_id", "")] for [user_info] the attribute of
    that name or [None]; [None] here stands for the default [""] of a
    missing attribute. *)
Record MessageInfo : Type := {
  platform : option Scalar;
  user_id : option Scalar
}.

(** What a command reads of itself: the answer of
    [self.get_config("permissions.admin", [])], the sender and
    [self.matched_groups.get("state")]. *)
Record Command : Type := {
  admin_config : exc ConfigValue;
  message_info : attr MessageInfo;
  matched_state : option pystr
}.

(** [str(x or "")] *)
Definition str_or_empty (x : option Scalar) : pystr :=
  match x with
  | Some v => if scalar_truthy v then scalar_str v else []
  | None => []
  end.

Definition _is_admin (c : Command) : bool :=
  match admin_config c with
  | Raised _ => false
  | Ok v =>
    match (if config_truthy v then v else CList []) with
    | CList admin_list =>
      match read (message_info c) with
      | Raised _ => false
      | Ok info =>
        _is_admin_platform_user_id (str_or_empty (platform info))
          (str_or_empty (user_id info)) admin_list
      end
    | _ => false
    end
  end.

(** The tuple a command returns. *)
Definition CommandResult : Type := bool * option pystr * Z.

Definition _silent_block_if_not_admin (c : Command) : option CommandResult :=
  if negb (_is_admin c) then Some (true, None, 2%Z) else None.

(** The dict [self.plugin_config] and the texts sent so far, oldest
    first. *)
Record CommandWorld : Type := {
  plugin_config : gmap pystr ConfigValue;
  outbox : list pystr
}.

(** [d[key] = value] for [d] the value [setdefault] returned: a table is
    updated in place, anything else raises [TypeError]. *)
Definition setitem (section : ConfigValue) (key : pystr) (value : bool)
  : exc ConfigValue :=
  match section with
  | CDict d => Ok (CDict (<[key := SBool value]> d))
  | CList _ => Raised (u "list indices must be integers or slices, not str")
  | CScalar _ =>
    Raised (u "'" ++ type_name section
              ++ u "' object does not support item assignment")
  end.

(** [bool(d.get(key, False))] *)
Definition get_flag (section : ConfigValue) (key : pystr) : exc bool :=
  match section with
  | CDict d => Ok (scalar_truthy (default (SBool false) (d !! key)))
  | _ =>
    Raised (u "'" ++ type_name section ++ u "' object has no attribute 'get'")
  end.

Section Toggle.
Context `{PyBuiltins}.

(** [await self.send_text(text)]: the host delivers the text or
    raises. *)
Variable send_text : pystr -> exc unit.

Definition send (text : pystr) (w : CommandWorld)
  : CommandWorld * exc unit :=
  match send_text text with
  | Ok _ =>
    ({| plugin_config := plugin_config w; outbox := outbox w ++ [text] |}, Ok tt)
  | Raised e => (w, Raised e)
  end.

(** The two toggle commands have the same body up to the key they write
    and the label of their texts. *)
Definition toggle (key label : pystr) (c : Command) (w : CommandWorld)
  : CommandWorld * exc CommandResult :=
  match _silent_block_if_not_admin c with
  | Some blocked => (w, Ok blocked)
  | None =>
    let state := lower (default [] (matched_state c)) in
    (* self.plugin_config.setdefault("action_check", {}) *)
    let section := default (CDict ∅) (plugin_config w !! u "action_check") in
    let w1 := {| plugin_config :=
                   <[u "action_check" := section]> (plugin_config w);
                 outbox := outbox w |} in
    let store (value : bool) (text : pystr) :=
      match setitem section key value with
      | Raised e => (w1, Raised e)
      | Ok section' =>
        let w2 := {| plugin_config :=
                       <[u "action_check" := section']> (plugin_config w1);
                     outbox := outbox w1 |} in
        match send text w2 with
        | (w3, Raised e) => (w3, Raised e)
        | (w3, Ok _) => (w3, Ok (true, None, 2%Z))
        end
      end in
    if eqb state (u "on") then
      store true (label ++ u "：已开启（重启后恢复配置默认值）")
    else if eqb state (u "off") then
      store false (label ++ u "：已关闭（重启后恢复配置默认值）")
    else
      match get_flag section key with
      | Raised e => (w1, Raised e)
      | Ok enabled =>
        match send (label ++ u "：" ++ (if enabled then u "开启" else u "关闭"))
                w1 with
        | (w3, Raised e) => (w3, Raised e)
        | (w3, Ok _) => (w3, Ok (true, None, 2%Z))
        end
      end
  end.

End Toggle.

Module ToggleActionCheckCommand.
Definition execute `{PyBuiltins} (send_text : pystr -> exc unit) :=
  toggle send_text (u "enabled") (u "动作检定").
End ToggleActionCheckCommand.

Module ToggleActionCheckShowResultCommand.
Definition execute `{PyBuiltins} (send_text : pystr -> exc unit) :=
  toggle send_text (u "show_roll_result") (u "动作检定结果展示").
End ToggleActionCheckShowResultCommand.

(** The switch a toggle command wrote, as a later command reads it. *)
Definition flag_of (w : CommandWorld) (key : pystr) : option Scalar :=
  match plugin_config w !! u "action_check" with
  | Some (CDict d) => d !! key
  | _ => None
  end.

End Commands.

(** ** The services of [ImpressionUpdateHandler] *)

Module ServiceInit.

Section WithConstructors.

(** The objects the handler builds. They are taken to be true in a
    condition, as objects of classes without [__bool__] and [__len__]
    are. *)
Variable Obj : Type.

(** The five attributes of the handler that hold its services, and
    [_services_initialized]. *)
Record Handler : Type := {
  llm_client : option Obj;
  affection_service : option Obj;
  weight_service : option Obj;
  text_impression_service : option Obj;
  message_service : option Obj;
  _services_initialized : bool
}.

(** The constructors, each of which returns an object or raises:
    [LLMClient(self.plugin_config.get("llm_provider", {}))], the three
    services built from [self.llm_client] and the configuration, and
    [MessageService(self.plugin_config)]. *)
Record Constructors : Type := {
  LLMClient : exc Obj;
  AffectionService : option Obj -> exc Obj;
  WeightService : option Obj -> exc Obj;
  TextImpressionService : option Obj -> exc Obj;
  MessageService : exc Obj
}.

Variable new : Constructors.

Definition Init (A : Type) : Type := Handler -> Handler * exc A.

#[local] Instance Init_ret : MRet Init := fun A a h => (h, Ok a).
#[local] Instance Init_bind : MBind Init := fun A B f m h =>
  match m h with
  | (h', Ok a) => f a h'
  | (h', Raised e) => (h', Raised e)
  end.

(** [if not self.attr: self.attr = build] *)
Definition unless (attr : Handler -> option Obj) (build : Handler -> exc Obj)
    (assign : Obj -> Handler -> Handler) : Init unit :=
  fun h =>
    match attr h with
    | Some _ => (h, Ok tt)
    | None =>
      match build h with
      | Ok o => (assign o h, Ok tt)
      | Raised e => (h, Raised e)
      end
    end.

Definition set_llm_client (o : Obj) (h : Handler) : Handler :=
  {| llm_client := Some o;
     affection_service := affection_service h;
     weight_service := weight_service h;
     text_impression_service := text_impression_service h;
     message_service := message_service h;
     _services_initialized := _services_initialized h |}.

Definition set_affection_service (o : Obj) (h : Handler) : Handler :=
  {| llm_client := llm_client h;
     affection_service := Some o;
     weight_service := weight_service h;
     text_impression_service := text_impression_service h;
     message_service := message_service h;
     _services_initialized := _services_initialized h |}.

Definition set_weight_service (o : Obj) (h : Handler) : Handler :=
  {| llm_client := llm_client h;
     affection_service := affection_service h;
     weight_service := Some o;
     text_impression_service := text_impression_service h;
     message_service := message_service h;
     _services_initialized := _services_initialized h |}.

Definition set_text_impression_service (o : Obj) (h : Handler) : Handler :=
  {| llm_client := llm_client h;
     affection_service := affection_service h;
     weight_service := weight_service h;
     text_impression_service := Some o;
     message_service := message_service h;
     _services_initialized := _services_initialized h |}.

Definition set_message_service (o : Obj) (h : Handler) : Handler :=
  {| llm_client := llm_client h;
     affection_service := affection_service h;
     weight_service := weight_service h;
     text_impression_service := text_impression_service h;
     message_service := Some o;
     _services_initialized := _services_initialized h |}.

Definition set_initialized (h : Handler) : Handler :=
  {| llm_client := llm_client h;
     affection_service := affection_service h;
     weight_service := weight_service h;
     text_impression_service := text_impression_service h;
     message_service := message_service h;
     _services_initialized := true |}.

Definition _init_services : Init unit :=
  _ ← unless llm_client (fun _ => LLMClient new) set_llm_client;
  _ ← unless affection_service (fun h => AffectionService new (llm_client h))
        set_affection_service;
  _ ← unless weight_service (fun h => WeightService new (llm_client h))
        set_weight_service;
  _ ← unless text_impression_service
        (fun h => TextImpressionService new (llm_client h))
        set_text_impression_service;
  unless message_service (fun _ => MessageService new) set_message_service.

Definition _ensure_services_initialized : Init unit :=
  fun h =>
    if _services_initialized h then (h, Ok tt)
    else
      match _init_services h with
      | (h', Ok _) => (set_initialized h', Ok tt)
      | (h', Raised e) => (h', Raised e)
      end.

(** [__init__]: no service, not initialised. *)
Definition fresh : Handler :=
  {| llm_client := None;
     affection_service := None;
     weight_service := None;
     text_impression_service := None;
     message_service := None;
     _services_initialized := false |}.

End WithConstructors.

Arguments llm_client {Obj} _.
Arguments affection_service {Obj} _.
Arguments weight_service {Obj} _.
Arguments text_impression_service {Obj} _.
Arguments message_service {Obj} _.
Arguments _services_initialized {Obj} _.
Arguments _init_services {Obj} new h.
Arguments _ensure_services_initialized {Obj} new h.
Arguments fresh {Obj}.
Arguments LLMClient {Obj} _.
Arguments AffectionService {Obj} _ _.
Arguments WeightService {Obj} _ _.
Arguments TextImpressionService {Obj} _ _.
Arguments MessageService {Obj} _.

(** The handler holds its five services. *)
Definition all_services_set {Obj : Type} (h : Handler Obj) : Prop :=
  is_Some (llm_client h) /\ is_Some (affection_service h)
  /\ is_Some (weight_service h) /\ is_Some (text_impression_service h)
  /\ is_Some (message_service h).

End ServiceInit.

(** ** The turn [handle] resolves from the event (lines 440 to 567) *)

Module Event.
Import Py.

(** A raw user id or a time stamp as the host hands it over: [None], a
    [str], or a number. *)
Inductive Value : Type :=
  | VNone
  | VStr (s : pystr)
  | VNum (q : Q).

(** A segment as [_extract_message_content] sees it: without an attribute
    [data], or with [str(seg.data)]. *)
Inductive Segment : Type :=
  | NoData
  | Data (text : pystr).

(** An object a message is read from. For [plain_text] and
    [message_base_info] the outer [None] is a missing attribute and the
    inner one the value [None]; for [user_id], [None] is a missing
    attribute; for [message_segments], [None] is a missing attribute or a
    value that is false. *)
Record Object : Type := {
  plain_text : option (option pystr);
  message_segments : option (list Segment);
  message_base_info : option (option (gmap pystr Value));
  user_id : option Value
}.

(** An object without any of the attributes, as [None] is. *)
Definition bare : Object :=
  {| plain_text := None; message_segments := None;
     message_base_info := None; user_id := None |}.

(** The event: the attributes it has as a message; [stream_id], with
    [None] for a missing attribute or a false value; [reply_user_id], the
    value of [event_data.reply.user_id] when [event_data] has a [reply]
    that is true and has a [user_id]; whether it has a [__dict__]; and its
    attributes [message], [msg] and [data], each present or not. *)
Record EventData : Type := {
  self : Object;
  stream_id : option pystr;
  reply_user_id : option Value;
  has_dict : bool;
  attr_message : option Object;
  attr_msg : option Object;
  attr_data : option Object
}.

(** What the resolution asks of its environment.
    - [normalize_user_id] is [MessageService.normalize_user_id].
    - [stream_target sid] is lines 456 to 473 up to the raw user id: the
      user the last message of the stream replies to, or its sender;
      [Ok None] when the stream, its context or its last message is
      missing, [Raised] when any step raises.
    - [float_of v] is [float(v)] for a value that is not a number.
    - [get_main_message_id] is lines 553 and 554: [Ok None] without a
      connected database. *)
Record Host : Type := {
  normalize_user_id : Value -> exc pystr;
  stream_target : pystr -> exc (option Value);
  float_of : Value -> exc Q;
  get_main_message_id : pystr -> Q -> exc (option pystr)
}.

#[local] Instance exc_ret : MRet exc := fun A a => Ok a.
#[local] Instance exc_bind : MBind exc := fun A B f m =>
  match m with
  | Ok a => f a
  | Raised e => Raised e
  end.

(** [sep.join(l)] *)
Fixpoint join (sep : pystr) (l : list pystr) : pystr :=
  match l with
  | [] => []
  | [x] => x
  | x :: rest => x ++ sep ++ join sep rest
  end.

Definition data_text (seg : Segment) : option pystr :=
  match seg with
  | NoData => None
  | Data text => Some text
  end.

Definition _extract_message_content (message : Object) : pystr :=
  let message_content :=
    match plain_text message with
    | Some (Some text) =>
      if truthy text then text
      else
        match message_segments message with
        | Some (seg :: segs) => join (u " ") (omap data_text (seg :: segs))
        | _ => []
        end
    | _ =>
      match message_segments message with
      | Some (seg :: segs) => join (u " ") (omap data_text (seg :: segs))
      | _ => []
      end
    end in
  strip message_content.

(** [float(v)] *)
Definition py_float (host : Host) (v : Value) : exc Q :=
  match v with
  | VNum q => Ok q
  | _ => float_of host v
  end.

(** [int(x)] for a float: the integer part, towards zero. *)
Definition int_of (x : Q) : Z := Z.quot (Qnum x) (Z.pos (Qden x)).

Section Resolution.
Variable host : Host.
Variable now : Q.

(** Lines 454 to 478: the user id and the message after the look-up in
    the stream; an exception inside is logged and dropped. *)
Definition from_stream (event_data : EventData) : pystr * option Object :=
  match stream_id event_data with
  | Some sid =>
    if truthy sid then
      match stream_target host sid with
      | Ok (Some raw_user_id) =>
        match normalize_user_id host raw_user_id with
        | Ok user_id => (user_id, Some (self event_data))
        | Raised _ => ([], None)
        end
      | _ => ([], None)
      end
    else ([], None)
  | None => ([], None)
  end.

(** The loop of lines 507 to 515 over [message], [msg] and [data]: it
    stops at the first of them that has a [user_id]. *)
Fixpoint first_with_user_id (candidates : list (option Object))
  : option (Value * Object) :=
  match candidates with
  | [] => None
  | Some potential_msg :: rest =>
    match user_id potential_msg with
    | Some raw_user_id => Some (raw_user_id, potential_msg)
    | None => first_with_user_id rest
    end
  | None :: rest => first_with_user_id rest
  end.

(** The outcome of lines 481 to 523: a note to return, or the user id and
    the message. *)
Inductive Identity : Type :=
  | Unknown (note : pystr)
  | Known (user_id : pystr) (message : Object).

(** Lines 481 to 519, entered when the look-up gave no user id. *)
Definition fallback (event_data : EventData) (message : option Object)
  : exc (pystr * option Object + pystr) :=
  match reply_user_id event_data with
  | Some raw_user_id =>
    user_id ← normalize_user_id host raw_user_id;
    mret (inl (user_id, Some (self event_data)))
  | None =>
    match message_base_info (self event_data) with
    | Some info =>
      match info with
      | None => Raised (u "'NoneType' object has no attribute 'get'")
      | Some d =>
        user_id ← normalize_user_id host (default (VStr []) (d !! u "user_id"));
        mret (inl (user_id, Some (self event_data)))
      end
    | None =>
      match user_id (self event_data) with
      | Some raw_user_id =>
        user_id ← normalize_user_id host raw_user_id;
        mret (inl (user_id, Some (self event_data)))
      | None =>
        match plain_text (self event_data) with
        | Some _ =>
          user_id ← normalize_user_id host (VStr []);
          mret (inl (user_id, Some (self event_data)))
        | None =>
          '(user_id, message) ←
            (if has_dict event_data then
               match first_with_user_id [attr_message event_data;
                                         attr_msg event_data;
                                         attr_data event_data] with
               | Some (raw_user_id, potential_msg) =>
                 user_id ← normalize_user_id host raw_user_id;
                 mret (user_id, Some potential_msg)
               | None => mret ([], message)
               end
             else mret ([], message));
          if negb (truthy user_id)
          then mret (inr (u "无法从事件数据中提取用户ID"))
          else mret (inl (user_id, message))
        end
      end
    end
  end.

Definition identify (event_data : EventData) : exc Identity :=
  let '(user_id, message) := from_stream event_data in
  r ← (if negb (truthy user_id) then fallback event_data message
       else mret (inl (user_id, message)));
  match r with
  | inr note => mret (Unknown note)
  | inl (user_id, message) =>
    if negb (truthy user_id) then mret (Unknown (u "无法获取用户ID"))
    else mret (Known user_id (default bare message))
  end.

(** Lines 532 to 550: the time stamp of the message, or the current
    time. *)
Definition message_timestamp (message : Object) : exc Q :=
  stamp ←
    match message_base_info message with
    | Some (Some d) =>
      if bool_decide (d = ∅) then mret None
      else
        match d !! u "time" with
        | Some v => q ← py_float host v; mret (Some q)
        | None =>
          match d !! u "timestamp" with
          | Some v => q ← py_float host v; mret (Some q)
          | None =>
            match d !! u "create_time" with
            | Some v => q ← py_float host v; mret (Some q)
            | None => mret None
            end
          end
        end
    | _ => mret None
    end;
  match stamp with
  | Some q => if Qeq_bool q 0 then mret now else mret q
  | None => mret now
  end.

(** [f"temp_{user_id}_{int(message_timestamp)}"] *)
Definition temp_id (user_id : pystr) (stamp : Q) : pystr :=
  u "temp_" ++ user_id ++ u "_" ++ of_Z (int_of stamp).

(** Lines 552 to 564. *)
Definition message_id_of (user_id : pystr) (stamp : Q) : exc pystr :=
  found ← get_main_message_id host user_id stamp;
  match found with
  | Some message_id =>
    if truthy message_id then mret message_id else mret (temp_id user_id stamp)
  | None => mret (temp_id user_id stamp)
  end.

(** Lines 440 to 567. *)
Definition resolve (event_data : EventData)
  : exc ImpressionUpdateHandler.Resolution :=
  who ← identify event_data;
  match who with
  | Unknown note => mret (ImpressionUpdateHandler.Rejected note)
  | Known user_id message =>
    let message_content := _extract_message_content message in
    if negb (truthy message_content)
    then mret (ImpressionUpdateHandler.Rejected (u "消息内容为空"))
    else
      stamp ← message_timestamp message;
      message_id ← message_id_of user_id stamp;
      mret (ImpressionUpdateHandler.Resolved user_id message_content message_id)
  end.

End Resolution.

(** [handle] on an event: the resolution, then the turn. *)
Definition handle_event (sv : ImpressionUpdateHandler.Services) (host : Host)
    (now : Q) (event_data : EventData)
  : ImpressionUpdateHandler.M CustomEventHandlerResult :=
  ImpressionUpdateHandler.handle sv (resolve host now event_data).

End Event.

(** The event without its [stream_id]. *)
Definition without_stream_id (event_data : Event.EventData) : Event.EventData :=
  {| Event.self := Event.self event_data;
     Event.stream_id := None;
     Event.reply_user_id := Event.reply_user_id event_data;
     Event.has_dict := Event.has_dict event_data;
     Event.attr_message := Event.attr_message event_data;
     Event.attr_msg := Event.attr_msg event_data;
     Event.attr_data := Event.attr_data event_data |}.

(** ** Sample events for the examples *)

Module EventSample.
Import Py Event.

(** A host without chat manager and without database: the look-up in the
    stream raises, no message id is found, and a user id is normalised to
    its text. *)
Definition host : Host :=
  {| normalize_user_id := fun v =>
       match v with
       | VNone => Ok []
       | VStr s => Ok (strip s)
       | VNum q => Ok (of_Z (int_of q))
       end;
     stream_target := fun _ => Raised (u "no chat manager");
     float_of := fun _ => Raised (u "could not convert to float");
     get_main_message_id := fun _ _ => Ok None |}.

(** A message of user 42 sent at 1700000000.5 with the given plain text
    and segments. *)
Definition message_of (text : option pystr) (segs : list Segment) : Object :=
  {| plain_text := Some text;
     message_segments := Some segs;
     message_base_info :=
       Some (Some (<[u "user_id" := VStr (u "42")]>
                     (<[u "time" := VNum (3400000001 # 2)]> ∅)));
     user_id := None |}.

Definition event_of (sid : option pystr) (message : Object) : EventData :=
  {| self := message;
     stream_id := sid;
     reply_user_id := None;
     has_dict := true;
     attr_message := None;
     attr_msg := None;
     attr_data := None |}.

End EventSample.

(** ** What the relay stores *)

(** A context as Point B stores it: filed under its own stream id, with
    a chance in the range, one of the two results and an interaction. *)
Definition well_formed_context (sid : pystr) (c : ActionCheckContext) : Prop :=
  stream_id c = sid
  /\ (0 <= chance c <= 100)%Z
  /\ (result c = Py.u "success" \/ result c = Py.u "fail")
  /\ interaction c <> [].

(** A tag as Point C stages it: the tag of a chance in the range and of
    one of the two results. *)
Definition well_formed_tag (tag : pystr) : Prop :=
  exists chance result,
    (0 <= chance <= 100)%Z
    /\ (result = Py.u "success" \/ result = Py.u "fail")
    /\ tag = _format_action_check_tag chance result.

Definition well_formed_state (st : RelayState) : Prop :=
  (forall sid c, context_by_stream st !! sid = Some c -> well_formed_context sid c)
  /\ (forall sid tag ts,
        pending_tag_by_stream st !! sid = Some (tag, ts) -> well_formed_tag tag).

(** * Properties *)

(** Literals stay folded in the proofs. *)
Opaque Py.u.

(** ** Strings *)

Section StringFacts.
Import Py.
Local Open Scope N_scope.

Lemma startswith_app (p s : pystr) : startswith p (p ++ s) = true.
Proof.
  induction p as [|a p IH]; simpl; [reflexivity|].
  rewrite N.eqb_refl. exact IH.
Qed.

Lemma startswith_inv (p s : pystr) :
  startswith p s = true -> exists r, s = p ++ r.
Proof.
  revert s. induction p as [|a p IH]; intros s Hs.
  - exists s. reflexivity.
  - destruct s as [|b s]; simpl in Hs; [discriminate|].
    apply andb_prop in Hs as [Hab Hs]. apply N.eqb_eq in Hab. subst b.
    destruct (IH _ Hs) as [r ->]. exists r. reflexivity.
Qed.

Lemma contains_here (n h : pystr) : startswith n h = true -> contains n h = true.
Proof. intros Hs. destruct h; simpl in *; rewrite Hs; reflexivity. Qed.

Lemma contains_app_r (n h1 h2 : pystr) :
  contains n h2 = true -> contains n (h1 ++ h2) = true.
Proof.
  intros Hc. induction h1 as [|c h1 IH]; [exact Hc|].
  simpl. rewrite IH. apply orb_true_r.
Qed.

End StringFacts.

(** ** [json.loads] never runs out of fuel *)

Section JsonFuel.
Import Py Json.
Local Open Scope N_scope.

Lemma dropwhile_length (p : N -> bool) (s : pystr) :
  (length (dropwhile p s) <= length s)%nat.
Proof.
  induction s as [|c s IH]; cbn; [lia|]. destruct (p c); cbn; lia.
Qed.

Lemma push_inv c r body rest :
  push c r = Some (body, rest) -> exists body', r = Some (body', rest).
Proof.
  destruct r as [[b r']|]; cbn; [|discriminate].
  intros [= _ <-]. eexists. reflexivity.
Qed.

Lemma scanstring_shorter n : forall s body rest,
  (length s <= n)%nat -> scanstring s = Some (body, rest) ->
  (length rest < length s)%nat.
Proof.
  induction n as [|n IH]; intros s body rest Hlen.
  { destruct s; [discriminate|cbn in Hlen; lia]. }
  assert (Hrec : forall c x b',
             (S (length x) <= length s)%nat ->
             push c (scanstring x) = Some (b', rest) ->
             (length rest < length s)%nat).
  { intros c x b' Hx Hp. apply push_inv in Hp as [b'' Hp].
    apply IH in Hp; lia. }
  destruct s as [|c r]; [discriminate|]. cbn [scanstring].
  destruct (c =? 34); [intros [= _ <-]; cbn; lia|].
  destruct (c =? 92).
  2:{ destruct (c <? 32); [discriminate|]. apply Hrec. cbn. lia. }
  destruct r as [|e r1]; [discriminate|].
  destruct (e =? 117).
  2:{ destruct (simple_escape e); [|discriminate]. apply Hrec. cbn. lia. }
  destruct r1 as [|h1 [|h2 [|h3 [|h4 r2]]]]; try discriminate.
  destruct (hex4 h1 h2 h3 h4) as [cp|]; [|discriminate].
  destruct (is_high_surrogate cp); [|apply Hrec; cbn; lia].
  destruct r2 as [|b [|v [|g1 [|g2 [|g3 [|g4 r3]]]]]];
    try (apply Hrec; cbn; lia).
  destruct ((b =? 92) && (v =? 117)); [|apply Hrec; cbn; lia].
  destruct (hex4 g1 g2 g3 g4) as [cp2|]; [|discriminate].
  destruct (is_low_surrogate cp2); apply Hrec; cbn; lia.
Qed.

Lemma match_number_shorter s v rest :
  match_number s = Some (v, rest) -> (length rest < length s)%nat.
Proof.
  unfold match_number.
  set (head := match s with
               | c :: r => if c =? 45 then (true, r) else (false, s)
               | [] => (false, s)
               end).
  assert (Hhead : (length (snd head) <= length s)%nat).
  { subst head. destruct s as [|c r]; [cbn; lia|].
    destruct (c =? 45); cbn; lia. }
  destruct head as [neg s1]. cbn [snd] in Hhead.
  destruct s1 as [|d r]; [discriminate|].
  destruct (negb (is_digit d)); [discriminate|].
  set (ipart := if d =? 48 then ([d], r)
                else (d :: takewhile is_digit r, dropwhile is_digit r)).
  assert (Hip : (length (snd ipart) <= length r)%nat).
  { subst ipart. destruct (d =? 48); cbn [snd]; [lia|apply dropwhile_length]. }
  destruct ipart as [ip r1]. cbn [snd] in Hip.
  set (fpart := match r1 with
                | dot :: f :: _ =>
                  if (dot =? 46) && is_digit f
                  then (dot :: takewhile is_digit (tl r1),
                        dropwhile is_digit (tl r1))
                  else ([], r1)
                | _ => ([], r1)
                end).
  assert (Hfp : (length (snd fpart) <= length r1)%nat).
  { subst fpart. destruct r1 as [|dot [|f r1a]]; cbn [snd]; try lia.
    destruct ((dot =? 46) && is_digit f); cbn [snd tl]; [|lia].
    pose proof (dropwhile_length is_digit (f :: r1a)). cbn [length] in *. lia. }
  destruct fpart as [frac r2]. cbn [snd] in Hfp.
  set (epart := match r2 with
                | e :: r2a => _
                | [] => ([], r2)
                end).
  assert (Hep : (length (snd epart) <= length r2)%nat).
  { subst epart. destruct r2 as [|e r2a]; cbn [snd]; [lia|].
    destruct ((e =? 101) || (e =? 69)); cbn [snd]; [|lia].
    set (spart := match r2a with
                  | sg :: t => _
                  | [] => ([], r2a)
                  end).
    assert (Hsp : (length (snd spart) <= length r2a)%nat).
    { subst spart. destruct r2a as [|sg t]; cbn [snd]; [lia|].
      destruct ((sg =? 45) || (sg =? 43)); cbn [snd length]; lia. }
    destruct spart as [sgn r2b]. cbn [snd] in Hsp.
    destruct r2b as [|x r2c]; cbn [snd length]; [lia|].
    destruct (is_digit x); cbn [snd length]; [|lia].
    pose proof (dropwhile_length is_digit (x :: r2c)). cbn [length] in *. lia. }
  destruct epart as [ex r3]. cbn [snd] in Hep.
  cbn [length] in *.
  destruct frac, ex; intros [= _ <-]; lia.
Qed.

Lemma expect_shorter word v s v' rest :
  word <> [] -> expect word v s = Done v' rest -> (length rest < length s)%nat.
Proof.
  intros Hne. unfold expect. destruct (startswith word s) eqn:Hs; [|discriminate].
  intros [= _ <-]. apply startswith_inv in Hs as [r ->].
  rewrite drop_app_length, length_app. destruct word; [congruence|cbn; lia].
Qed.

Lemma skip_ws_length (s : pystr) : (length (skip_ws s) <= length s)%nat.
Proof. apply dropwhile_length. Qed.

Ltac literal_case :=
  split; [unfold expect; destruct (startswith _ _); discriminate|];
  intros v' r' Hd; apply expect_shorter in Hd; [exact Hd|vm_compute; discriminate].

(** With a budget above twice the length of the text, a scan ends with a
    value and a shorter rest or with a syntax error. *)
Lemma scan_has_fuel f :
  (forall s, (2 * length s < f)%nat ->
     scan_once f s <> OutOfFuel
     /\ forall v r, scan_once f s = Done v r -> (length r < length s)%nat)
  /\ (forall acc s, (2 * length s + 1 < f)%nat ->
        members f acc s <> OutOfFuel
        /\ forall v r, members f acc s = Done v r -> (length r < length s)%nat)
  /\ (forall acc s, (2 * length s + 1 < f)%nat ->
        elements f acc s <> OutOfFuel
        /\ forall v r, elements f acc s = Done v r -> (length r < length s)%nat).
Proof.
  induction f as [|f (IHs & IHm & IHe)].
  { repeat split; intros; lia. }
  split; [|split].
  - intros s Hf. destruct s as [|c r]; [split; [discriminate|discriminate]|].
    cbn [scan_once]. cbn [length] in Hf.
    destruct (c =? 34).
    { destruct (scanstring r) as [[body rest]|] eqn:Hs;
        [|split; discriminate].
      split; [discriminate|]. intros v r' [= _ <-].
      apply (scanstring_shorter _ _ _ _ (Nat.le_refl _)) in Hs. cbn. lia. }
    destruct (c =? 123).
    { pose proof (skip_ws_length r) as Hws.
      destruct (skip_ws r) as [|c1 r1]; [split; discriminate|].
      cbn [length] in Hws.
      destruct (c1 =? 125).
      - split; [discriminate|]. intros v r' [= _ <-]. cbn. lia.
      - destruct (IHm [] (c1 :: r1)) as [Hne Hpr]; [cbn; lia|].
        split; [exact Hne|]. intros v r' Hd. apply Hpr in Hd. cbn in *. lia. }
    destruct (c =? 91).
    { pose proof (skip_ws_length r) as Hws.
      destruct (skip_ws r) as [|c1 r1]; [split; discriminate|].
      cbn [length] in Hws.
      destruct (c1 =? 93).
      - split; [discriminate|]. intros v r' [= _ <-]. cbn. lia.
      - destruct (IHe [] (c1 :: r1)) as [Hne Hpr]; [cbn; lia|].
        split; [exact Hne|]. intros v r' Hd. apply Hpr in Hd. cbn in *. lia. }
    destruct ((c =? 110) && _); [literal_case|].
    destruct ((c =? 116) && _); [literal_case|].
    destruct ((c =? 102) && _); [literal_case|].
    destruct ((c =? 78) && _); [literal_case|].
    destruct ((c =? 73) && _); [literal_case|].
    destruct ((c =? 45) && _); [literal_case|].
    destruct (match_number (c :: r)) as [[v rest]|] eqn:Hn; [|split; discriminate].
    split; [discriminate|]. intros v' r' [= _ <-].
    exact (match_number_shorter _ _ _ Hn).
  - intros acc s Hf. destruct s as [|q r]; [split; discriminate|].
    cbn [members]. cbn [length] in Hf.
    destruct (negb (q =? 34)); [split; discriminate|].
    destruct (scanstring r) as [[key r1]|] eqn:Hs; [|split; discriminate].
    apply (scanstring_shorter _ _ _ _ (Nat.le_refl _)) in Hs.
    pose proof (skip_ws_length r1) as Hws1.
    destruct (skip_ws r1) as [|colon r2]; [split; discriminate|].
    cbn [length] in Hws1.
    destruct (negb (colon =? 58)); [split; discriminate|].
    pose proof (skip_ws_length r2) as Hws2.
    destruct (IHs (skip_ws r2)) as [Hne Hpr]; [lia|].
    destruct (scan_once f (skip_ws r2)) as [v r3| |] eqn:Hv;
      [|split; discriminate|congruence].
    specialize (Hpr _ _ eq_refl).
    pose proof (skip_ws_length r3) as Hws3.
    destruct (skip_ws r3) as [|d r4]; [split; discriminate|].
    cbn [length] in Hws3.
    destruct (d =? 125).
    { split; [discriminate|]. intros v' r' [= _ <-]. cbn. lia. }
    destruct (d =? 44); [|split; discriminate].
    pose proof (skip_ws_length r4) as Hws4.
    destruct (IHm ((key, v) :: acc) (skip_ws r4)) as [Hne' Hpr']; [lia|].
    split; [exact Hne'|]. intros v' r' Hd. apply Hpr' in Hd. cbn. lia.
  - intros acc s Hf. cbn [elements].
    destruct (IHs s) as [Hne Hpr]; [lia|].
    destruct (scan_once f s) as [v r1| |] eqn:Hv;
      [|split; discriminate|congruence].
    specialize (Hpr _ _ eq_refl).
    pose proof (skip_ws_length r1) as Hws1.
    destruct (skip_ws r1) as [|d r2]; [split; discriminate|].
    cbn [length] in Hws1.
    destruct (d =? 93).
    { split; [discriminate|]. intros v' r' [= _ <-]. lia. }
    destruct (d =? 44); [|split; discriminate].
    pose proof (skip_ws_length r2) as Hws2.
    destruct (IHe (v :: acc) (skip_ws r2)) as [Hne' Hpr']; [lia|].
    split; [exact Hne'|]. intros v' r' Hd. apply Hpr' in Hd. lia.
Qed.

(** [json.loads] is total: it returns a value or a syntax error. *)
Lemma decode_has_fuel (s : pystr) : decode s <> OutOfFuel.
Proof.
  unfold decode. pose proof (skip_ws_length s) as Hws.
  destruct (proj1 (scan_has_fuel (S (2 * length s))) (skip_ws s)) as [Hne _];
    [lia|].
  destruct (scan_once _ (skip_ws s)) as [v rest| |]; [|discriminate|congruence].
  destruct (skip_ws rest); discriminate.
Qed.

Lemma loads_none_is_error (s : pystr) : loads s = None <-> decode s = Error.
Proof.
  unfold loads. pose proof (decode_has_fuel s) as Hf.
  destruct (decode s); split; congruence.
Qed.

End JsonFuel.

(** ** Point A: the planner prompt is augmented once *)

Section PlannerPrompt.
Import Py ActionCheckPlannerPromptHandler.

Lemma extra_block_sentinel show platform uid score level :
  contains _ACTION_CHECK_SENTINEL (extra_block show platform uid score level) = true.
Proof. apply contains_here. unfold extra_block. apply startswith_app. Qed.

(** Whenever Point A hands back a message, the prompt of that message
    holds the sentinel. *)
Lemma execute_injects_sentinel cfg env message m1 :
  modified_message (execute cfg env message) = Some m1 ->
  exists prompt, MaiMessages.llm_prompt m1 = Has (Some prompt)
                 /\ contains _ACTION_CHECK_SENTINEL prompt = true.
Proof.
  unfold execute, body, modified_message.
  destruct (enabled cfg); cbn; [|discriminate].
  destruct message as [msg|]; cbn; [|discriminate].
  destruct (MaiMessages.llm_prompt msg) as [p|e]; cbn; [|discriminate].
  destruct (truthy_opt p); cbn; [|discriminate].
  destruct (contains _ACTION_CHECK_SENTINEL (default [] p)); cbn; [discriminate|].
  destruct (MaiMessages.message_base_info msg) as [info|e]; cbn; [|discriminate].
  destruct (normalize_user_id env _) as [uid|e]; cbn; [|discriminate].
  destruct (match select_impression env uid with
            | Ok (Some (score, level)) => _ | _ => _ end) as [score level].
  cbn. intros [= <-]. eexists. split; [reflexivity|].
  apply contains_app_r, contains_app_r, extra_block_sentinel.
Qed.

Lemma execute_sentinel_present cfg env msg prompt :
  MaiMessages.llm_prompt msg = Has (Some prompt) ->
  contains _ACTION_CHECK_SENTINEL prompt = true ->
  execute cfg env (Some msg) = pass_through.
Proof.
  intros Hp Hs. unfold execute, body.
  destruct (enabled cfg); simpl; [|reflexivity].
  rewrite Hp. simpl. destruct (truthy prompt); simpl; [|reflexivity].
  rewrite Hs. reflexivity.
Qed.

(** C4. A prompt that already holds the sentinel is left as it is (the
    handler returns the pass-through tuple, with no message), and running
    the augmentation on its own outcome changes nothing: the block is
    injected at most once. *)
Theorem planner_augmentation_idempotent (cfg : ActionCheckConfig) (env : PlannerEnv) :
  (forall msg prompt,
      MaiMessages.llm_prompt msg = Has (Some prompt) ->
      contains _ACTION_CHECK_SENTINEL prompt = true ->
      execute cfg env (Some msg) = pass_through)
  /\ (forall message,
        let once := continue_with message (execute cfg env message) in
        execute cfg env once = pass_through \/ once = message)
  /\ (forall message,
        let once := continue_with message (execute cfg env message) in
        continue_with once (execute cfg env once) = once).
Proof.
  split; [intros msg prompt; apply execute_sentinel_present|].
  assert (Hstep : forall message,
             execute cfg env (continue_with message (execute cfg env message))
             = pass_through
             \/ continue_with message (execute cfg env message) = message).
  { intros message.
    destruct (modified_message (execute cfg env message)) as [m1|] eqn:E.
    - left. destruct (execute_injects_sentinel _ _ _ _ E) as (prompt & Hp & Hs).
      destruct (execute cfg env message) as [[[[a b] c] d] m'].
      unfold modified_message in E. simpl in E. subst m'. simpl.
      eapply execute_sentinel_present; eassumption.
    - right. destruct (execute cfg env message) as [[[[a b] c] d] m'].
      unfold modified_message in E. simpl in E. subst m'. reflexivity. }
  split; [exact Hstep|].
  intros message once. subst once.
  destruct (Hstep message) as [Hpass|Hsame].
  - rewrite Hpass. reflexivity.
  - rewrite Hsame. exact Hsame.
Qed.

Lemma planner_augmentation_idempotent_witness :
  let msg := Sample.message_with (_ACTION_CHECK_SENTINEL ++ u " plan") [] in
  MaiMessages.llm_prompt msg = Has (Some (_ACTION_CHECK_SENTINEL ++ u " plan"))
  /\ contains _ACTION_CHECK_SENTINEL (_ACTION_CHECK_SENTINEL ++ u " plan") = true
  /\ execute Sample.cfg_on Sample.env (Some msg) = pass_through.
Proof.
  intros msg. split; [reflexivity|]. split; [vm_compute; reflexivity|].
  apply (proj1 (planner_augmentation_idempotent Sample.cfg_on Sample.env) msg
           (_ACTION_CHECK_SENTINEL ++ u " plan")).
  - reflexivity.
  - vm_compute. reflexivity.
Defined.

End PlannerPrompt.

(** ** The update orchestrator *)

Section Orchestrator.
Import Py ImpressionUpdateHandler Turn.

Lemma mark_all_ok user_id ids w :
  snd (mark_all user_id ids w) = Ok tt.
Proof.
  revert w. induction ids as [|i ids IH]; intros w; [reflexivity|].
  cbn. unfold mbind, M_bind. cbn. apply IH.
Qed.

Lemma mark_all_trace user_id ids w :
  trace (fst (mark_all user_id ids w))
  = trace w ++ List.map (EvRecordProcessed user_id) ids.
Proof.
  revert w. induction ids as [|i ids IH]; intros w.
  - cbn. rewrite app_nil_r. reflexivity.
  - cbn. unfold mbind, M_bind. cbn. rewrite IH. cbn.
    rewrite <- app_assoc. reflexivity.
Qed.

Lemma mark_all_ledger user_id ids w p :
  p ∈ ledger (fst (mark_all user_id ids w))
  <-> p ∈ ledger w \/ exists i, In i ids /\ p = (user_id, i).
Proof.
  revert w. induction ids as [|i ids IH]; intros w.
  - cbn. split; [auto|]. intros [Hp|(i & [] & _)]. exact Hp.
  - cbn. unfold mbind, M_bind. cbn. rewrite IH. cbn. rewrite elem_of_union.
    rewrite elem_of_singleton. split.
    + intros [[->|Hp]|(j & Hj & ->)]; eauto.
    + intros [Hp|(j & [<-|Hj] & ->)]; eauto.
Qed.

Lemma mark_all_run user_id ids w :
  mark_all user_id ids w = (fst (mark_all user_id ids w), Ok tt).
Proof.
  rewrite <- (mark_all_ok user_id ids w). destruct (mark_all user_id ids w).
  reflexivity.
Qed.

Lemma handle_resolved sv user_id message_content message_id w :
  handle sv (Ok (Resolved user_id message_content message_id)) w
  = match process sv user_id message_content message_id w with
    | (w', Ok r) => (w', Ok r)
    | (w', Raised e) => (w', Ok {| message := u "异常: " ++ e |})
    end.
Proof. reflexivity. Qed.

Ltac unfold_monad :=
  unfold mbind, M_bind, mret, M_ret, try_except, lift,
    is_message_processed, get_filtered_messages, evaluate_message,
    build_impression, update_affection, update_message_state in *.

Lemma process_seen sv user_id message_content message_id w :
  (user_id, message_id) ∈ ledger w ->
  process sv user_id message_content message_id w
  = (after_check user_id message_id w, Ok {| message := u "消息已处理，跳过" |}).
Proof.
  intros Hin. unfold process. unfold_monad.
  rewrite bool_decide_eq_true_2 by exact Hin. reflexivity.
Qed.

Lemma events_since_app w w' evs :
  trace w' = trace w ++ evs -> events_since w w' = evs.
Proof. intros E. unfold events_since. rewrite E. apply drop_app_length. Qed.

Lemma trace_log c w : trace (log c w) = trace w ++ [c].
Proof. reflexivity. Qed.

Lemma ledger_log c w : ledger (log c w) = ledger w.
Proof. reflexivity. Qed.

Lemma should_update_true sv ctx ok score :
  should_update sv ctx ok score = true
  <-> is_blank ctx = false /\ ok = true /\ accepts sv score.
Proof.
  unfold should_update, accepts, eqb.
  destruct (is_blank ctx); [intuition discriminate|].
  destruct ok; [|intuition discriminate].
  repeat case_bool_decide.
  - tauto.
  - rewrite Qle_bool_iff. split; [tauto|].
    intros (_ & _ & [?|[[_ ?]|[E ?]]]); [tauto|tauto|].
    exfalso. rewrite E in *. vm_compute in H0. discriminate.
  - rewrite Qle_bool_iff. split; [tauto|]. tauto.
  - split; [discriminate|]. tauto.
Qed.

Ltac break_answer :=
  match goal with
  | |- context [match ?x with _ => _ end] =>
    lazymatch x with
    | answer_get_filtered_messages _ _ _ _ => destruct x as [[? ?]|?] eqn:?
    | answer_evaluate_message _ _ _ _ _ _ => destruct x as [[[? ?] ?]|?] eqn:?
    | answer_build_impression _ _ _ _ _ => destruct x as [[? ?]|?] eqn:?
    | answer_update_affection _ _ _ _ => destruct x as [[? ?]|?] eqn:?
    | answer_update_message_state _ _ _ _ _ _ => destruct x as [?|?] eqn:?
    end
  end; cbv beta iota zeta.

(** What [dispatch] adds to the trace. *)
Lemma dispatch_run sv user_id message_content message_id ctx w :
  exists later,
    trace (fst (dispatch sv user_id message_content message_id ctx w))
    = trace w ++ later
    /\ ledger (fst (dispatch sv user_id message_content message_id ctx w))
       = ledger w
    /\ existsb is_record later = false
    /\ (existsb is_profile_derivation later = true ->
        is_blank ctx = false
        /\ exists score level,
            answer_evaluate_message sv w user_id message_id message_content ctx
            = Ok (true, score, level)
            /\ accepts sv score)
    /\ (existsb is_score_derivation later = true <->
        (is_blank ctx = true
         \/ exists r, answer_evaluate_message sv w user_id message_id
                        message_content ctx = Ok r))
    /\ (forall ev, In ev later -> is_score_derivation ev = true ->
                   ev = EvUpdateAffection user_id message_content).
Proof.
  unfold dispatch. unfold_monad.
  destruct (is_blank ctx) eqn:Hblank.
  - cbv beta iota zeta.
    rewrite (proj1 (not_true_iff_false (should_update _ _ _ _))); cycle 1.
    { rewrite should_update_true. rewrite Hblank. intros (? & _). discriminate. }
    cbv beta iota zeta. repeat break_answer; cbn; rewrite ?trace_log;
      rewrite <- ?app_assoc; eexists; (split; [reflexivity|]); cbn;
      (split; [reflexivity|]); (split; [reflexivity|]);
      (split; [discriminate|]); (split; [tauto|]);
      intros ev Hev Hs; repeat destruct Hev as [<-|Hev]; try discriminate;
      try reflexivity; destruct Hev.
  - cbv beta iota zeta.
    destruct (answer_evaluate_message sv w user_id message_id message_content ctx)
      as [[[ok score] level]|e] eqn:Heval; cbv beta iota zeta.
    + destruct (should_update sv ctx ok score) eqn:Hgate.
      * apply should_update_true in Hgate as (_ & -> & Hacc).
        repeat break_answer; cbn; rewrite ?trace_log;
          rewrite <- ?app_assoc; eexists; (split; [reflexivity|]); cbn;
          (split; [reflexivity|]); (split; [reflexivity|]);
          (split; [intros _; split; [reflexivity|]; eauto|]);
          (split; [split; [eauto|reflexivity]|]);
          intros ev Hev Hs; repeat destruct Hev as [<-|Hev]; try discriminate;
          try reflexivity; destruct Hev.
      * repeat break_answer; cbn; rewrite ?trace_log;
          rewrite <- ?app_assoc; eexists; (split; [reflexivity|]); cbn;
          (split; [reflexivity|]); (split; [reflexivity|]);
          (split; [discriminate|]);
          (split; [split; [eauto|reflexivity]|]);
          intros ev Hev Hs; repeat destruct Hev as [<-|Hev]; try discriminate;
          try reflexivity; destruct Hev.
    + cbn. exists [EvEvaluate user_id message_id message_content ctx].
      split; [reflexivity|]. split; [reflexivity|]. split; [reflexivity|].
      split; [discriminate|]. split.
      * split; [discriminate|]. intros [?|[r ?]]; discriminate.
      * intros ev [<-|[]]. discriminate.
Qed.

Lemma process_fetch_raised sv user_id message_content message_id w e :
  (user_id, message_id) ∉ ledger w ->
  answer_get_filtered_messages sv (after_check user_id message_id w) user_id
    (max_messages sv) = Raised e ->
  process sv user_id message_content message_id w
  = (after_fetch sv user_id message_id w, Raised e).
Proof.
  intros Hin Hf. unfold process. unfold_monad.
  rewrite bool_decide_eq_false_2 by exact Hin.
  fold (after_check user_id message_id w). rewrite Hf. reflexivity.
Qed.

Lemma process_fresh sv user_id message_content message_id w ctx ids :
  (user_id, message_id) ∉ ledger w ->
  answer_get_filtered_messages sv (after_check user_id message_id w) user_id
    (max_messages sv) = Ok (ctx, ids) ->
  process sv user_id message_content message_id w
  = dispatch sv user_id message_content message_id ctx
      (after_marking sv user_id message_id ids w).
Proof.
  intros Hin Hf. unfold process. unfold_monad.
  rewrite bool_decide_eq_false_2 by exact Hin.
  fold (after_check user_id message_id w). rewrite Hf.
  fold (after_fetch sv user_id message_id w).
  rewrite mark_all_run. reflexivity.
Qed.

Lemma handle_world sv user_id message_content message_id w :
  fst (handle sv (Ok (Resolved user_id message_content message_id)) w)
  = fst (process sv user_id message_content message_id w).
Proof.
  rewrite handle_resolved.
  destruct (process sv user_id message_content message_id w) as [w' [r|e]];
    reflexivity.
Qed.

Lemma after_marking_trace sv user_id message_id ids w :
  trace (after_marking sv user_id message_id ids w)
  = trace w ++ [EvIsProcessed user_id message_id;
                EvGetFiltered user_id (max_messages sv)]
      ++ List.map (EvRecordProcessed user_id) ids.
Proof.
  unfold after_marking. rewrite mark_all_trace. cbn.
  rewrite <- !app_assoc. reflexivity.
Qed.

Lemma after_marking_ledger sv user_id message_id ids w p :
  p ∈ ledger (after_marking sv user_id message_id ids w)
  <-> p ∈ ledger w \/ exists i, In i ids /\ p = (user_id, i).
Proof. unfold after_marking. rewrite mark_all_ledger. reflexivity. Qed.

(** The events of a fresh turn whose window was fetched: the check, the
    fetch, one record per id of the window, then what [dispatch] adds. *)
Lemma fresh_turn_events sv user_id message_content message_id w ctx ids :
  (user_id, message_id) ∉ ledger w ->
  answer_get_filtered_messages sv (after_check user_id message_id w) user_id
    (max_messages sv) = Ok (ctx, ids) ->
  let w' := fst (handle sv (Ok (Resolved user_id message_content message_id)) w) in
  let later := events_since (after_marking sv user_id message_id ids w) w' in
  events_since w w'
  = [EvIsProcessed user_id message_id; EvGetFiltered user_id (max_messages sv)]
      ++ List.map (EvRecordProcessed user_id) ids ++ later
  /\ trace w' = trace (after_marking sv user_id message_id ids w) ++ later
  /\ ledger w' = ledger (after_marking sv user_id message_id ids w).
Proof.
  intros Hin Hf w' later. subst w' later. rewrite handle_world.
  rewrite (process_fresh _ _ _ _ _ _ _ Hin Hf).
  destruct (dispatch_run sv user_id message_content message_id ctx
              (after_marking sv user_id message_id ids w))
    as (later & Htr & Hled & _).
  rewrite (events_since_app _ _ _ Htr). split; [|split; assumption].
  apply events_since_app. rewrite Htr, after_marking_trace.
  rewrite <- !app_assoc. reflexivity.
Qed.

(** C2. A turn whose (subject, message id) is in the ledger ends as
    skipped after the check alone: no fetch, no evaluation, no derivation.
    Otherwise, once the window is fetched, the calls that follow the fetch
    are the records of the ids of the window, one per id and in order, and
    only then whatever evaluation and derivation do; nothing they do
    records or removes an id, so every id of the window is in the ledger
    at the end of the turn, however evaluation and derivation behave. *)
Theorem ledger_skip_and_immediate_marking (sv : Services)
    (user_id message_content message_id : pystr) (w : World) :
  let turn := Ok (Resolved user_id message_content message_id) in
  ((user_id, message_id) ∈ ledger w ->
     handle sv turn w
     = (after_check user_id message_id w,
        Ok {| message := u "消息已处理，跳过" |})
     /\ events_since w (fst (handle sv turn w))
        = [EvIsProcessed user_id message_id]
     /\ ledger (fst (handle sv turn w)) = ledger w)
  /\ ((user_id, message_id) ∉ ledger w ->
      forall ctx ids,
        answer_get_filtered_messages sv (after_check user_id message_id w)
          user_id (max_messages sv) = Ok (ctx, ids) ->
        exists later,
          events_since w (fst (handle sv turn w))
          = [EvIsProcessed user_id message_id;
             EvGetFiltered user_id (max_messages sv)]
              ++ List.map (EvRecordProcessed user_id) ids ++ later
          /\ existsb is_record later = false
          /\ (forall i, In i ids ->
                        (user_id, i) ∈ ledger (fst (handle sv turn w)))
          /\ (forall p, p ∈ ledger w -> p ∈ ledger (fst (handle sv turn w)))).
Proof.
  intros turn. subst turn. split.
  - intros Hin. rewrite handle_resolved.
    rewrite (process_seen _ _ _ _ _ Hin). split; [reflexivity|].
    split; [|reflexivity]. apply events_since_app. reflexivity.
  - intros Hin ctx ids Hf.
    destruct (fresh_turn_events sv _ message_content _ _ _ _ Hin Hf)
      as (Hev & Htr & Hled).
    exists (events_since (after_marking sv user_id message_id ids w)
              (fst (handle sv (Ok (Resolved user_id message_content message_id)) w))).
    split; [exact Hev|].
    rewrite handle_world in *. rewrite (process_fresh _ _ _ _ _ _ _ Hin Hf) in *.
    destruct (dispatch_run sv user_id message_content message_id ctx
                (after_marking sv user_id message_id ids w))
      as (later & Htr' & Hled' & Hrec & _).
    rewrite (events_since_app _ _ _ Htr'). split; [exact Hrec|].
    split.
    + intros i Hi. rewrite Hled'. apply after_marking_ledger. eauto.
    + intros p Hp. rewrite Hled'. apply after_marking_ledger. auto.
Qed.

Lemma ledger_skip_and_immediate_marking_witness :
  ((Py.u "U1", Py.u "m0") ∈ ledger Sample.world_seen
   /\ events_since Sample.world_seen
        (fst (handle Sample.busy_services
                (Ok (Resolved (Py.u "U1") (Py.u "hello") (Py.u "m0")))
                Sample.world_seen))
      = [EvIsProcessed (Py.u "U1") (Py.u "m0")])
  /\ (((Py.u "U1", Py.u "m9") ∉ ledger Sample.world_seen)
      /\ (forall i, In i [Py.u "m1"; Py.u "m2"] ->
           (Py.u "U1", i)
             ∈ ledger (fst (handle Sample.busy_services
                              (Ok (Resolved (Py.u "U1") (Py.u "hello") (Py.u "m9")))
                              Sample.world_seen)))).
Proof.
  assert (Hin : (Py.u "U1", Py.u "m0") ∈ ledger Sample.world_seen).
  { vm_compute. reflexivity. }
  assert (Hout : (Py.u "U1", Py.u "m9") ∉ ledger Sample.world_seen).
  { vm_compute. discriminate. }
  split.
  - split; [exact Hin|].
    exact (proj1 (proj2 (proj1 (ledger_skip_and_immediate_marking
                                  Sample.busy_services (Py.u "U1") (Py.u "hello")
                                  (Py.u "m0") Sample.world_seen) Hin))).
  - split; [exact Hout|].
    destruct (proj2 (ledger_skip_and_immediate_marking
                       Sample.busy_services (Py.u "U1") (Py.u "hello")
                       (Py.u "m9") Sample.world_seen) Hout
                    (Py.u "hello there") [Py.u "m1"; Py.u "m2"] eq_refl)
      as (later & _ & _ & Hids & _).
    exact Hids.
Defined.

Lemma no_derivation_in_records user_id ids :
  existsb is_profile_derivation (List.map (EvRecordProcessed user_id) ids) = false
  /\ existsb is_score_derivation (List.map (EvRecordProcessed user_id) ids) = false.
Proof. induction ids as [|i ids [IH1 IH2]]; cbn; auto. Qed.

Lemma unresolved_turn_events sv w :
  (forall note, events_since w (fst (handle sv (Ok (Rejected note)) w)) = [])
  /\ (forall e, events_since w (fst (handle sv (Raised e) w)) = []).
Proof.
  split; intros; apply events_since_app; cbn; rewrite app_nil_r; reflexivity.
Qed.

(** C1, as the code has it. The profile derivation ([build_impression])
    is called only when the gate passes: the window fetched is not blank,
    the evaluation succeeded and the filter mode accepts its score; with a
    blank window or a failed evaluation it is not called. The score
    derivation ([update_affection]) is not behind the gate: it is called
    exactly when the turn passes the check of the ledger, the window is
    fetched, and the evaluation, if it runs, returns. *)
Theorem profile_gated_score_not_gated (sv : Services)
    (user_id message_content message_id : pystr) (w : World) :
  let evs :=
    events_since w
      (fst (handle sv (Ok (Resolved user_id message_content message_id)) w)) in
  (existsb is_profile_derivation evs = true ->
     gate_open sv user_id message_content message_id w)
  /\ (forall ctx ids,
        (user_id, message_id) ∉ ledger w ->
        answer_get_filtered_messages sv (after_check user_id message_id w)
          user_id (max_messages sv) = Ok (ctx, ids) ->
        (is_blank ctx = true
         \/ forall score level,
              answer_evaluate_message sv
                (after_marking sv user_id message_id ids w)
                user_id message_id message_content ctx
              <> Ok (true, score, level)) ->
        existsb is_profile_derivation evs = false)
  /\ (existsb is_score_derivation evs = true <->
      ((user_id, message_id) ∉ ledger w)
      /\ exists ctx ids,
          answer_get_filtered_messages sv (after_check user_id message_id w)
            user_id (max_messages sv) = Ok (ctx, ids)
          /\ (is_blank ctx = true
              \/ exists r,
                  answer_evaluate_message sv
                    (after_marking sv user_id message_id ids w)
                    user_id message_id message_content ctx = Ok r)).
Proof.
  intros evs.
  destruct (decide ((user_id, message_id) ∈ ledger w)) as [Hin|Hin].
  { assert (Hevs : evs = [EvIsProcessed user_id message_id]).
    { subst evs. rewrite handle_resolved, (process_seen _ _ _ _ _ Hin).
      apply events_since_app. reflexivity. }
    rewrite Hevs. cbn. split; [discriminate|]. split; [contradiction|].
    split; [discriminate|]. intros [? _]. contradiction. }
  destruct (answer_get_filtered_messages sv (after_check user_id message_id w)
              user_id (max_messages sv)) as [[ctx ids]|e] eqn:Hf.
  2:{ assert (Hevs : evs = [EvIsProcessed user_id message_id;
                            EvGetFiltered user_id (max_messages sv)]).
      { subst evs. rewrite handle_world, (process_fetch_raised _ _ _ _ _ _ Hin Hf).
        apply events_since_app. cbn. rewrite <- app_assoc. reflexivity. }
      rewrite Hevs. cbn. split; [discriminate|]. split; [discriminate|].
      split; [discriminate|]. intros (_ & ? & ? & ? & _). discriminate. }
  destruct (fresh_turn_events sv _ message_content _ _ _ _ Hin Hf)
    as (Hev & _ & _).
  fold evs in Hev. rewrite handle_world, (process_fresh _ _ _ _ _ _ _ Hin Hf) in Hev.
  destruct (dispatch_run sv user_id message_content message_id ctx
              (after_marking sv user_id message_id ids w))
    as (later & Htr & _ & _ & Hprof & Hscore & _).
  rewrite (events_since_app _ _ _ Htr) in Hev.
  destruct (no_derivation_in_records user_id ids) as [Hr1 Hr2].
  assert (Hp : existsb is_profile_derivation evs
               = existsb is_profile_derivation later).
  { rewrite Hev. cbn. rewrite existsb_app, Hr1. reflexivity. }
  assert (Hs : existsb is_score_derivation evs
               = existsb is_score_derivation later).
  { rewrite Hev. cbn. rewrite existsb_app, Hr2. reflexivity. }
  rewrite Hp, Hs. split; [|split].
  - intros Hex. destruct (Hprof Hex) as (Hb & score & level & He & Ha).
    exists ctx, ids, score, level. auto.
  - intros ctx' ids' _ [= <- <-] Hfail.
    destruct (existsb is_profile_derivation later) eqn:Hex; [|reflexivity].
    destruct (Hprof eq_refl) as (Hb & score & level & He & _).
    destruct Hfail as [Hb'|Hne]; [congruence|]. destruct (Hne _ _ He).
  - rewrite Hscore. split.
    + intros Hc. split; [exact Hin|]. exists ctx, ids. auto.
    + intros (_ & ctx' & ids' & [= <- <-] & Hc). exact Hc.
Qed.

Lemma profile_gated_score_not_gated_witness :
  existsb is_profile_derivation
    (events_since Sample.world0
       (fst (handle Sample.busy_services
               (Ok (Resolved (Py.u "U1") (Py.u "hello") (Py.u "m9")))
               Sample.world0))) = true
  /\ gate_open Sample.busy_services (Py.u "U1") (Py.u "hello") (Py.u "m9")
       Sample.world0.
Proof.
  assert (H : existsb is_profile_derivation
                (events_since Sample.world0
                   (fst (handle Sample.busy_services
                           (Ok (Resolved (Py.u "U1") (Py.u "hello") (Py.u "m9")))
                           Sample.world0))) = true).
  { vm_compute. reflexivity. }
  split; [exact H|].
  exact (proj1 (profile_gated_score_not_gated Sample.busy_services (Py.u "U1")
                  (Py.u "hello") (Py.u "m9") Sample.world0) H).
Defined.

(** C1 as stated fails for the score derivation: with an empty window the
    gate is closed, and [update_affection] is called all the same. *)
Lemma score_derivation_runs_on_empty_window :
  let evs :=
    events_since Sample.world0
      (fst (handle Sample.quiet_services
              (Ok (Resolved (Py.u "U1") (Py.u "hello") (Py.u "m9")))
              Sample.world0)) in
  evs = [EvIsProcessed (Py.u "U1") (Py.u "m9");
         EvGetFiltered (Py.u "U1") 20;
         EvUpdateAffection (Py.u "U1") (Py.u "hello");
         EvUpdateState (Py.u "U1") (Py.u "m9") false true]
  /\ existsb is_score_derivation evs = true
  /\ ~ gate_open Sample.quiet_services (Py.u "U1") (Py.u "hello") (Py.u "m9")
        Sample.world0.
Proof.
  split; [vm_compute; reflexivity|]. split; [vm_compute; reflexivity|].
  intros (ctx & ids & score & level & Hf & Hb & _).
  cbn in Hf. injection Hf as <- <-. vm_compute in Hb. discriminate.
Qed.

End Orchestrator.

(** ** The relay: expiry of the stored entries *)

Section Expiry.
Import Py.

Lemma older_than_true now created ttl :
  older_than now created ttl = true <-> (ttl < now - created)%Q.
Proof.
  unfold older_than. rewrite negb_true_iff, <- not_true_iff_false, Qle_bool_iff.
  split; [apply Qnot_le_lt | apply Qlt_not_le].
Qed.

Lemma older_than_false now created ttl :
  older_than now created ttl = false <-> (now - created <= ttl)%Q.
Proof. unfold older_than. rewrite negb_false_iff. apply Qle_bool_iff. Qed.

Lemma clean_context sid now st k :
  context_by_stream (_clean_expired_action_check_state sid now st) !! k
  = match context_by_stream st !! k with
    | Some c =>
      if bool_decide (k = sid)
         && older_than now (created_at c) _ACTION_CHECK_CONTEXT_TTL_SECONDS
      then None else Some c
    | None => None
    end.
Proof.
  unfold _clean_expired_action_check_state.
  set (st1 := match context_by_stream st !! sid with
              | Some ctx => _ | None => _ end).
  assert (H1 : context_by_stream st1 !! k
               = match context_by_stream st !! k with
                 | Some c =>
                   if bool_decide (k = sid)
                      && older_than now (created_at c)
                           _ACTION_CHECK_CONTEXT_TTL_SECONDS
                   then None else Some c
                 | None => None
                 end).
  { subst st1. case_bool_decide as Hk.
    - subst k. destruct (context_by_stream st !! sid) as [c|] eqn:E; cbn.
      + destruct (older_than _ _ _); cbn; [apply lookup_delete_eq|exact E].
      + exact E.
    - cbn. destruct (context_by_stream st !! sid) as [c|] eqn:E.
      + destruct (older_than _ _ _); cbn.
        * rewrite lookup_delete_ne by congruence.
          destruct (context_by_stream st !! k); reflexivity.
        * destruct (context_by_stream st !! k); reflexivity.
      + destruct (context_by_stream st !! k); reflexivity. }
  destruct (pending_tag_by_stream st1 !! sid) as [p|]; [|exact H1].
  destruct (older_than _ _ _); exact H1.
Qed.

Lemma clean_pending sid now st k :
  pending_tag_by_stream (_clean_expired_action_check_state sid now st) !! k
  = match pending_tag_by_stream st !! k with
    | Some p =>
      if bool_decide (k = sid)
         && older_than now (snd p) _ACTION_CHECK_PENDING_TAG_TTL_SECONDS
      then None else Some p
    | None => None
    end.
Proof.
  unfold _clean_expired_action_check_state.
  set (st1 := match context_by_stream st !! sid with
              | Some ctx => _ | None => _ end).
  assert (H1 : pending_tag_by_stream st1 = pending_tag_by_stream st).
  { subst st1. destruct (context_by_stream st !! sid) as [c|]; [|reflexivity].
    destruct (older_than _ _ _); reflexivity. }
  destruct (pending_tag_by_stream st1 !! sid) as [p|] eqn:E;
    rewrite H1 in E; [destruct (older_than now (snd p) _) eqn:Ho|]; cbn;
    rewrite ?H1; case_bool_decide as Hk; subst; cbn;
    rewrite ?lookup_delete_eq, ?E, ?Ho; cbn; try reflexivity;
    rewrite ?lookup_delete_ne by congruence;
    destruct (pending_tag_by_stream st !! k); reflexivity.
Qed.

Lemma relay_state_eq st st' :
  (forall k, context_by_stream st !! k = context_by_stream st' !! k) ->
  (forall k, pending_tag_by_stream st !! k = pending_tag_by_stream st' !! k) ->
  st = st'.
Proof.
  destruct st as [c p], st' as [c' p']. cbn. intros Hc Hp.
  f_equal; apply map_eq; assumption.
Qed.

Lemma clean_idempotent sid now st :
  _clean_expired_action_check_state sid now
    (_clean_expired_action_check_state sid now st)
  = _clean_expired_action_check_state sid now st.
Proof.
  apply relay_state_eq; intros k.
  - rewrite !clean_context. destruct (context_by_stream st !! k) as [c|]; [|reflexivity].
    destruct (bool_decide (k = sid) && older_than _ _ _) eqn:E; [reflexivity|].
    rewrite E. reflexivity.
  - rewrite !clean_pending. destruct (pending_tag_by_stream st !! k) as [p|]; [|reflexivity].
    destruct (bool_decide (k = sid) && older_than _ _ _) eqn:E; [reflexivity|].
    rewrite E. reflexivity.
Qed.

Lemma clean_same_elsewhere sid now st :
  same_elsewhere sid st (_clean_expired_action_check_state sid now st).
Proof.
  intros k Hk. rewrite clean_context, clean_pending.
  rewrite (bool_decide_eq_false_2 _ Hk). cbn.
  destruct (context_by_stream st !! k), (pending_tag_by_stream st !! k); auto.
Qed.

Lemma clean_nothing_stored sid now st :
  cleared sid st -> _clean_expired_action_check_state sid now st = st.
Proof.
  intros [Hc Hp]. unfold _clean_expired_action_check_state.
  rewrite Hc, Hp. reflexivity.
Qed.

End Expiry.

(** From here on the eviction and the updates of the two maps stay
    folded. *)
Arguments _clean_expired_action_check_state : simpl never.
Arguments pop_context : simpl never.
Arguments pop_pending : simpl never.
Arguments set_context : simpl never.
Arguments set_pending : simpl never.

(** ** Point D: the tag is prepended once *)

Section PostSend.
Import Py ActionCheckPostSendPrefixHandler.
Local Open Scope N_scope.

Lemma dropwhile_app_stop (p : N -> bool) (x y : pystr) c y' :
  y = c :: y' -> p c = false -> dropwhile p (x ++ y) = dropwhile p x ++ y.
Proof.
  intros -> Hc. induction x as [|a x IH]; cbn.
  - rewrite Hc. reflexivity.
  - destruct (p a); [exact IH|reflexivity].
Qed.

Lemma rstrip_app_keep (a b : pystr) c :
  last a = Some c -> isspace c = false -> rstrip (a ++ b) = a ++ rstrip b.
Proof.
  intros Hl Hc. apply last_Some in Hl as [a' ->].
  unfold rstrip. rewrite rev_app_distr.
  rewrite (dropwhile_app_stop isspace (rev b) (rev (a' ++ [c])) c (rev a')).
  - rewrite rev_app_distr, rev_involutive. reflexivity.
  - rewrite rev_app_distr. reflexivity.
  - exact Hc.
Qed.

Lemma tag_marker_chars :
  tag_marker = [91; 21160; 20316; 26816; 23450; 65306].
Proof. vm_compute. reflexivity. Qed.

Lemma closing_bracket : u "]" = [93].
Proof. vm_compute. reflexivity. Qed.

Lemma format_tag_marker chance result :
  startswith tag_marker (_format_action_check_tag chance result) = true.
Proof. unfold _format_action_check_tag. apply startswith_app. Qed.

Lemma format_tag_last chance result :
  last (_format_action_check_tag chance result) = Some 93.
Proof.
  unfold _format_action_check_tag. rewrite closing_bracket.
  rewrite !app_assoc. apply last_snoc.
Qed.

(** The text a tagged segment gets: the tag itself, then the old text
    after one space, without white space at the end. *)
Lemma prefixed_text chance result text :
  let tag := _format_action_check_tag chance result in
  rstrip (tag ++ u " " ++ text) = tag ++ rstrip (u " " ++ text)
  /\ startswith tag_marker (lstrip (rstrip (tag ++ u " " ++ text))) = true.
Proof.
  intros tag.
  assert (E : rstrip (tag ++ u " " ++ text) = tag ++ rstrip (u " " ++ text)).
  { apply (rstrip_app_keep _ _ 93); [apply format_tag_last|reflexivity]. }
  split; [exact E|]. rewrite E. subst tag. unfold _format_action_check_tag.
  rewrite <- !app_assoc. rewrite tag_marker_chars. reflexivity.
Qed.

Lemma is_text_true seg : is_text seg = true <-> seg_type seg = Some (u "text").
Proof.
  unfold is_text, eqb. destruct (seg_type seg) as [ty|]; [|split; discriminate].
  rewrite bool_decide_eq_true. split; congruence.
Qed.

Lemma not_text_bearing seg :
  (forall text, ~ text_bearing seg text) ->
  is_text seg = false \/ seg_data seg = DataOther.
Proof.
  intros Hn. destruct (is_text seg) eqn:E; [right|left; reflexivity].
  apply is_text_true in E. destruct (seg_data seg) as [t|] eqn:D; [|reflexivity].
  destruct (Hn t). split; assumption.
Qed.

Lemma prefix_loop_no_text tag segs :
  no_text_segment segs -> prefix_loop tag segs = NoTextSegment.
Proof.
  induction 1 as [|seg segs Hseg _ IH]; [reflexivity|].
  cbn. rewrite IH. destruct (not_text_bearing seg Hseg) as [-> | ->].
  - reflexivity.
  - destruct (is_text seg); reflexivity.
Qed.

Lemma prefix_loop_first tag pre seg post text :
  no_text_segment pre -> text_bearing seg text ->
  prefix_loop tag (pre ++ seg :: post)
  = if startswith tag_marker (lstrip text) then AlreadyTagged
    else Prefixed (pre ++ text_segment (rstrip (tag ++ u " " ++ text)) :: post).
Proof.
  intros Hpre [Hty Hdata]. induction Hpre as [|s pre Hs _ IH].
  - cbn. rewrite (proj2 (is_text_true seg) Hty), Hdata. cbn.
    destruct (startswith tag_marker (lstrip text)); [reflexivity|].
    unfold text_segment. rewrite Hty. reflexivity.
  - cbn [app prefix_loop]. rewrite IH.
    destruct (not_text_bearing s Hs) as [-> | ->].
    + cbn. destruct (startswith tag_marker (lstrip text)); reflexivity.
    + destruct (is_text s); cbn;
        destruct (startswith tag_marker (lstrip text)); reflexivity.
Qed.

Lemma pending_live sid now st tag ts :
  pending_tag_by_stream st !! sid = Some (tag, ts) ->
  (now - ts <= _ACTION_CHECK_PENDING_TAG_TTL_SECONDS)%Q ->
  pending_tag_by_stream (_clean_expired_action_check_state sid now st) !! sid
  = Some (tag, ts).
Proof.
  intros Hp Hage. rewrite clean_pending, Hp. cbn.
  rewrite (proj2 (older_than_false _ _ _) Hage), andb_false_r. reflexivity.
Qed.

Lemma context_live sid now st c :
  context_by_stream st !! sid = Some c ->
  (now - created_at c <= _ACTION_CHECK_CONTEXT_TTL_SECONDS)%Q ->
  context_by_stream (_clean_expired_action_check_state sid now st) !! sid
  = Some c.
Proof.
  intros Hc Hage. rewrite clean_context, Hc.
  rewrite (proj2 (older_than_false _ _ _) Hage), andb_false_r. reflexivity.
Qed.

Lemma popped_cleared sid st : cleared sid (pop_context sid (pop_pending sid st)).
Proof. split; unfold pop_context, pop_pending; cbn; apply lookup_delete_eq. Qed.

Lemma popped_same_elsewhere sid st :
  same_elsewhere sid st (pop_context sid (pop_pending sid st)).
Proof.
  intros k Hk. unfold pop_context, pop_pending. cbn.
  rewrite !lookup_delete_ne by congruence. auto.
Qed.

Section Run.
Variables (cfg : ActionCheckConfig) (msg : MaiMessages.t) (sid : pystr).
Hypothesis Hon : enabled cfg = true.
Hypothesis Hshow : show_roll_result cfg = true.
Hypothesis Hsid : MaiMessages.stream_id msg = Has (Some sid).
Hypothesis Hsid_truthy : truthy sid = true.

Lemma post_send_no_pending now st :
  pending_tag_by_stream (_clean_expired_action_check_state sid now st) !! sid
  = None ->
  execute cfg now (Some msg) st
  = (_clean_expired_action_check_state sid now st, pass_through).
Proof.
  intros Hp. unfold execute, body. rewrite Hon, Hshow, Hsid.
  cbv beta iota zeta delta [negb orb read truthy_opt default from_option id].
  rewrite Hsid_truthy. cbv beta iota zeta. rewrite Hp. reflexivity.
Qed.

Lemma post_send_no_text now st p :
  pending_tag_by_stream (_clean_expired_action_check_state sid now st) !! sid
  = Some p ->
  (MaiMessages.message_segments msg = Has None
   \/ exists segs, MaiMessages.message_segments msg = Has (Some segs)
                  /\ no_text_segment segs) ->
  execute cfg now (Some msg) st
  = (_clean_expired_action_check_state sid now st, pass_through).
Proof.
  intros Hp Hsegs. unfold execute, body. rewrite Hon, Hshow, Hsid.
  cbv beta iota zeta delta [negb orb read truthy_opt default from_option id].
  rewrite Hsid_truthy. cbv beta iota zeta. rewrite Hp. destruct p as [tag ts].
  destruct Hsegs as [-> | (segs & -> & Hno)]; [reflexivity|]. cbn.
  destruct segs as [|s segs]; [reflexivity|].
  rewrite (prefix_loop_no_text tag _ Hno). reflexivity.
Qed.

Lemma post_send_first_text now st tag ts pre seg post text :
  pending_tag_by_stream (_clean_expired_action_check_state sid now st) !! sid
  = Some (tag, ts) ->
  MaiMessages.message_segments msg = Has (Some (pre ++ seg :: post)) ->
  no_text_segment pre -> text_bearing seg text ->
  execute cfg now (Some msg) st
  = (pop_context sid
       (pop_pending sid (_clean_expired_action_check_state sid now st)),
     if startswith tag_marker (lstrip text) then pass_through
     else (true, true, Some (u "动作检定标签已加到发送消息"), None,
           Some (MaiMessages.modify_message_segments msg
                   (pre ++ text_segment (rstrip (tag ++ u " " ++ text)) :: post)))).
Proof.
  intros Hp Hsegs Hpre Hseg. unfold execute, body. rewrite Hon, Hshow, Hsid.
  cbv beta iota zeta delta [negb orb read truthy_opt default from_option id].
  rewrite Hsid_truthy. cbv beta iota zeta. rewrite Hp, Hsegs. cbn.
  destruct (pre ++ seg :: post) as [|s0 rest] eqn:E.
  { destruct pre; discriminate. }
  rewrite <- E. rewrite (prefix_loop_first tag _ _ _ _ Hpre Hseg).
  destruct (startswith tag_marker (lstrip text)); reflexivity.
Qed.

End Run.

(** C3. With a live pending tag and a first text segment that does not
    yet start with the marker, Point D prepends the tag to that segment,
    hands the message back and clears both entries of the conversation.
    Run again on the message it handed back, Point D leaves the message
    as it is: with the state the first run left, and also with the same
    pending tag stored again, in which case it finds the marker at the
    head of the segment and clears both entries. *)
Theorem pending_tag_prepended_once (cfg : ActionCheckConfig)
    (msg : MaiMessages.t) (sid : pystr) (st : RelayState) (now now2 : Q)
    (chance : Z) (result : pystr) (ts : Q)
    (pre post : list Seg) (seg : Seg) (text : pystr) :
  let tag := _format_action_check_tag chance result in
  enabled cfg = true -> show_roll_result cfg = true ->
  MaiMessages.stream_id msg = Has (Some sid) -> truthy sid = true ->
  pending_tag_by_stream st !! sid = Some (tag, ts) ->
  (now - ts <= _ACTION_CHECK_PENDING_TAG_TTL_SECONDS)%Q ->
  MaiMessages.message_segments msg = Has (Some (pre ++ seg :: post)) ->
  no_text_segment pre -> text_bearing seg text ->
  startswith tag_marker (lstrip text) = false ->
  let tagged := tag ++ rstrip (u " " ++ text) in
  let msg1 :=
    MaiMessages.modify_message_segments msg (pre ++ text_segment tagged :: post) in
  let st1 := fst (execute cfg now (Some msg) st) in
  snd (execute cfg now (Some msg) st)
  = (true, true, Some (u "动作检定标签已加到发送消息"), None, Some msg1)
  /\ cleared sid st1
  /\ same_elsewhere sid st st1
  /\ execute cfg now2 (Some msg1) st1 = (st1, pass_through)
  /\ (forall st2 ts2,
        pending_tag_by_stream st2 !! sid = Some (tag, ts2) ->
        (now2 - ts2 <= _ACTION_CHECK_PENDING_TAG_TTL_SECONDS)%Q ->
        snd (execute cfg now2 (Some msg1) st2) = pass_through
        /\ cleared sid (fst (execute cfg now2 (Some msg1) st2))).
Proof.
  intros tag Hon Hshow Hsid Htruthy Hp Hage Hsegs Hpre Hseg Hfresh tagged msg1 st1.
  pose proof (pending_live _ _ _ _ _ Hp Hage) as Hlive.
  pose proof (post_send_first_text cfg msg sid Hon Hshow Hsid Htruthy now st
                tag ts pre seg post text Hlive Hsegs Hpre Hseg) as Hrun.
  rewrite Hfresh in Hrun.
  destruct (prefixed_text chance result text) as [Etag Hmark].
  fold tag in Etag, Hmark. rewrite Etag in Hrun, Hmark. fold tagged in Hrun, Hmark.
  fold msg1 in Hrun.
  assert (Hst1 : st1 = pop_context sid
                         (pop_pending sid
                            (_clean_expired_action_check_state sid now st))).
  { subst st1. rewrite Hrun. reflexivity. }
  assert (Hcl : cleared sid st1) by (rewrite Hst1; apply popped_cleared).
  split; [rewrite Hrun; reflexivity|]. split; [exact Hcl|]. split.
  { rewrite Hst1. intros k Hk.
    destruct (popped_same_elsewhere sid
                (_clean_expired_action_check_state sid now st) k Hk) as [-> ->].
    apply clean_same_elsewhere. exact Hk. }
  assert (Hsid1 : MaiMessages.stream_id msg1 = Has (Some sid)) by exact Hsid.
  assert (Hsegs1 : MaiMessages.message_segments msg1
                   = Has (Some (pre ++ text_segment tagged :: post)))
    by reflexivity.
  assert (Hseg1 : text_bearing (text_segment tagged) tagged) by (split; reflexivity).
  split.
  - rewrite (post_send_no_pending cfg msg1 sid Hon Hshow Hsid1 Htruthy).
    + rewrite (clean_nothing_stored _ _ _ Hcl). reflexivity.
    + rewrite (clean_nothing_stored _ _ _ Hcl). apply Hcl.
  - intros st2 ts2 Hp2 Hage2.
    pose proof (pending_live _ _ _ _ _ Hp2 Hage2) as Hlive2.
    rewrite (post_send_first_text cfg msg1 sid Hon Hshow Hsid1 Htruthy now2 st2
               tag ts2 pre _ post tagged Hlive2 Hsegs1 Hpre Hseg1).
    rewrite Hmark. split; [reflexivity|]. apply popped_cleared.
Qed.

Lemma pending_tag_prepended_once_witness :
  let tag := _format_action_check_tag 80 (u "fail") in
  let msg := Sample.message_with (u "prompt") [text_segment (u "hi")] in
  let st := Sample.pending_state tag 10 in
  startswith tag_marker (lstrip (u "hi")) = false
  /\ (20 - 10 <= _ACTION_CHECK_PENDING_TAG_TTL_SECONDS)%Q
  /\ snd (execute Sample.cfg_on 20 (Some msg) st)
     = (true, true, Some (u "动作检定标签已加到发送消息"), None,
        Some (MaiMessages.modify_message_segments msg
                [text_segment (tag ++ rstrip (u " " ++ u "hi"))]))
  /\ cleared Sample.sid (fst (execute Sample.cfg_on 20 (Some msg) st)).
Proof.
  intros tag msg st.
  assert (Hfresh : startswith tag_marker (lstrip (u "hi")) = false)
    by (vm_compute; reflexivity).
  assert (Hage : (20 - 10 <= _ACTION_CHECK_PENDING_TAG_TTL_SECONDS)%Q)
    by (apply Qle_bool_imp_le; vm_compute; reflexivity).
  split; [exact Hfresh|]. split; [exact Hage|].
  destruct (pending_tag_prepended_once Sample.cfg_on msg Sample.sid st 20 30
              80 (u "fail") 10 [] [] (text_segment (u "hi")) (u "hi")
              eq_refl eq_refl eq_refl ltac:(vm_compute; reflexivity)
              ltac:(vm_compute; reflexivity) Hage eq_refl
              ltac:(constructor) ltac:(split; reflexivity) Hfresh)
    as (Hres & Hcl & _).
  split; [exact Hres|exact Hcl].
Defined.

(** C10, as the code has it. With a live pending tag and an outgoing
    message that has no segments, or none of type [text] with a string
    payload, Point D hands nothing back and does nothing to the state
    beyond the eviction of expired entries at its entry. The pending tag
    stays, and a later message of the conversation, sent before the tag
    expires, gets the tag. The context stays when it is not older than
    its own time to live; when it is older, the eviction at the entry
    removes it, live tag or not. *)
Theorem pending_tag_kept_without_text_segment (cfg : ActionCheckConfig)
    (msg : MaiMessages.t) (sid : pystr) (st : RelayState) (now : Q)
    (tag : pystr) (ts : Q) :
  enabled cfg = true -> show_roll_result cfg = true ->
  MaiMessages.stream_id msg = Has (Some sid) -> truthy sid = true ->
  pending_tag_by_stream st !! sid = Some (tag, ts) ->
  (now - ts <= _ACTION_CHECK_PENDING_TAG_TTL_SECONDS)%Q ->
  (MaiMessages.message_segments msg = Has None
   \/ exists segs, MaiMessages.message_segments msg = Has (Some segs)
                  /\ no_text_segment segs) ->
  let st' := fst (execute cfg now (Some msg) st) in
  snd (execute cfg now (Some msg) st) = pass_through
  /\ st' = _clean_expired_action_check_state sid now st
  /\ pending_tag_by_stream st' !! sid = Some (tag, ts)
  /\ (forall c, context_by_stream st !! sid = Some c ->
                (now - created_at c <= _ACTION_CHECK_CONTEXT_TTL_SECONDS)%Q ->
                context_by_stream st' !! sid = Some c)
  /\ (forall c, context_by_stream st !! sid = Some c ->
                (_ACTION_CHECK_CONTEXT_TTL_SECONDS < now - created_at c)%Q ->
                context_by_stream st' !! sid = None)
  /\ (context_by_stream st !! sid = None -> context_by_stream st' !! sid = None)
  /\ same_elsewhere sid st st'
  /\ (forall later (msg' : MaiMessages.t) pre seg post text,
        (later - ts <= _ACTION_CHECK_PENDING_TAG_TTL_SECONDS)%Q ->
        MaiMessages.stream_id msg' = Has (Some sid) ->
        MaiMessages.message_segments msg' = Has (Some (pre ++ seg :: post)) ->
        no_text_segment pre -> text_bearing seg text ->
        startswith tag_marker (lstrip text) = false ->
        snd (execute cfg later (Some msg') st')
        = (true, true, Some (u "动作检定标签已加到发送消息"), None,
           Some (MaiMessages.modify_message_segments msg'
                   (pre ++ text_segment (rstrip (tag ++ u " " ++ text)) :: post)))).
Proof.
  intros Hon Hshow Hsid Htruthy Hp Hage Hsegs st'.
  pose proof (pending_live _ _ _ _ _ Hp Hage) as Hlive.
  pose proof (post_send_no_text cfg msg sid Hon Hshow Hsid Htruthy now st _
                Hlive Hsegs) as Hrun.
  assert (Hst' : st' = _clean_expired_action_check_state sid now st)
    by (subst st'; rewrite Hrun; reflexivity).
  split; [rewrite Hrun; reflexivity|]. split; [exact Hst'|].
  split; [rewrite Hst'; exact Hlive|]. split.
  { intros c Hc Hc_age. rewrite Hst'. apply context_live; assumption. }
  split.
  { intros c Hc Hc_age. rewrite Hst', clean_context, Hc.
    rewrite bool_decide_eq_true_2 by reflexivity.
    rewrite (proj2 (older_than_true _ _ _) Hc_age). reflexivity. }
  split.
  { intros Hc. rewrite Hst', clean_context, Hc. reflexivity. }
  split; [rewrite Hst'; apply clean_same_elsewhere|].
  intros later msg' pre seg post text Hlater Hsid' Hsegs' Hpre Hseg Hfresh.
  assert (Hlive' : pending_tag_by_stream
                     (_clean_expired_action_check_state sid later st') !! sid
                   = Some (tag, ts)).
  { apply pending_live; [rewrite Hst'; exact Hlive|exact Hlater]. }
  rewrite (post_send_first_text cfg msg' sid Hon Hshow Hsid' Htruthy later st'
             tag ts pre seg post text Hlive' Hsegs' Hpre Hseg).
  rewrite Hfresh. reflexivity.
Qed.

Lemma pending_tag_kept_without_text_segment_witness :
  let tag := _format_action_check_tag 80 (u "fail") in
  let image := {| seg_type := Some (u "image"); seg_data := DataStr (u "b64") |} in
  let prompt := Sample.message_with (Sample.marker "hug" "80" "fail") [] in
  let msg := Sample.message_with (u "prompt") [image] in
  let decided := fst (@ActionCheckPostLLMHandler.execute Sample.builtins
                        Sample.cfg_on 0 (Some prompt) Sample.empty_state) in
  let st := fst (ActionCheckAfterLLMHandler.execute Sample.cfg_on 100
                   (Some prompt) decided) in
  context_by_stream st !! Sample.sid = Some (Sample.hug_context 0)
  /\ pending_tag_by_stream st !! Sample.sid = Some (tag, 100%Q)
  /\ (110 - 100 <= _ACTION_CHECK_PENDING_TAG_TTL_SECONDS)%Q
  /\ (110 - 0 <= _ACTION_CHECK_CONTEXT_TTL_SECONDS)%Q
  /\ no_text_segment [image]
  /\ snd (execute Sample.cfg_on 110 (Some msg) st) = pass_through
  /\ pending_tag_by_stream (fst (execute Sample.cfg_on 110 (Some msg) st))
       !! Sample.sid = Some (tag, 100%Q)
  /\ context_by_stream (fst (execute Sample.cfg_on 110 (Some msg) st))
       !! Sample.sid = Some (Sample.hug_context 0).
Proof.
  intros tag image prompt msg decided st.
  assert (Hctx : context_by_stream st !! Sample.sid = Some (Sample.hug_context 0))
    by (vm_compute; reflexivity).
  assert (Hpend : pending_tag_by_stream st !! Sample.sid = Some (tag, 100%Q))
    by (vm_compute; reflexivity).
  assert (Hage : (110 - 100 <= _ACTION_CHECK_PENDING_TAG_TTL_SECONDS)%Q)
    by (apply Qle_bool_imp_le; vm_compute; reflexivity).
  assert (Hold : (110 - 0 <= _ACTION_CHECK_CONTEXT_TTL_SECONDS)%Q)
    by (apply Qle_bool_imp_le; vm_compute; reflexivity).
  assert (Hno : no_text_segment [image]).
  { repeat constructor. intros text [Hty _]. vm_compute in Hty. discriminate. }
  split; [exact Hctx|]. split; [exact Hpend|]. split; [exact Hage|].
  split; [exact Hold|]. split; [exact Hno|].
  destruct (pending_tag_kept_without_text_segment Sample.cfg_on msg Sample.sid
              st 110 tag 100 eq_refl eq_refl eq_refl
              ltac:(vm_compute; reflexivity) Hpend
              Hage (or_intror (ex_intro _ [image] (conj eq_refl Hno))))
    as (Hres & _ & Hkept & Hlive & _).
  split; [exact Hres|]. split; [exact Hkept|].
  exact (Hlive _ Hctx Hold).
Defined.

(** C10 as stated fails for the context. A decision stored by Point B
    at time 0 and staged by Point C at time 100 leaves a context stamped
    0 and a tag stamped 100. At time 130 the tag is live and the context
    is older than 120 seconds: Point D, given a message with an image
    only, passes through and keeps the tag, and its entry eviction has
    removed the context. *)
Lemma live_tag_outlives_context :
  let tag := _format_action_check_tag 80 (u "fail") in
  let image := {| seg_type := Some (u "image"); seg_data := DataStr (u "b64") |} in
  let prompt := Sample.message_with (Sample.marker "hug" "80" "fail") [] in
  let msg := Sample.message_with (u "prompt") [image] in
  let decided := fst (@ActionCheckPostLLMHandler.execute Sample.builtins
                        Sample.cfg_on 0 (Some prompt) Sample.empty_state) in
  let st := fst (ActionCheckAfterLLMHandler.execute Sample.cfg_on 100
                   (Some prompt) decided) in
  let out := execute Sample.cfg_on 130 (Some msg) st in
  context_by_stream st !! Sample.sid = Some (Sample.hug_context 0)
  /\ pending_tag_by_stream st !! Sample.sid = Some (tag, 100%Q)
  /\ (130 - 100 <= _ACTION_CHECK_PENDING_TAG_TTL_SECONDS)%Q
  /\ snd out = pass_through
  /\ pending_tag_by_stream (fst out) !! Sample.sid = Some (tag, 100%Q)
  /\ context_by_stream (fst out) !! Sample.sid = None.
Proof.
  intros tag image prompt msg decided st out.
  split; [vm_compute; reflexivity|]. split; [vm_compute; reflexivity|].
  split; [apply Qle_bool_imp_le; vm_compute; reflexivity|].
  split; [vm_compute; reflexivity|]. split; vm_compute; reflexivity.
Qed.

End PostSend.

(** ** The parser of the decision marker *)

Section Parser.
Context `{PyBuiltins}.
Import Py.

Lemma normalize_result_table r :
  In r synonym_table -> normalize_result r = Some (canonical r).
Proof.
  intros Hin. unfold synonym_table in Hin. cbn in Hin.
  repeat destruct Hin as [<-|Hin]; try (vm_compute; reflexivity).
  destruct Hin.
Qed.

Lemma normalize_result_none r :
  ~ In r synonym_table -> normalize_result r = None.
Proof.
  intros Hn. unfold normalize_result, eqb.
  repeat case_bool_decide; try reflexivity; subst; exfalso; apply Hn;
    unfold synonym_table; cbn; tauto.
Qed.

Lemma normalize_result_values r r' :
  normalize_result r = Some r' -> r' = u "success" \/ r' = u "fail".
Proof.
  unfold normalize_result.
  destruct (_ || _ || _ || _); [intros [= <-]; auto|].
  destruct (_ || _ || _); [intros [= <-]; auto|discriminate].
Qed.

Lemma table_token_normal r :
  In r synonym_table -> lower (strip r) = r.
Proof.
  intros Hin. unfold synonym_table in Hin. cbn in Hin.
  repeat destruct Hin as [<-|Hin]; try (vm_compute; reflexivity).
  destruct Hin.
Qed.

Lemma truthy_nonempty (s : pystr) : s <> [] -> truthy s = true.
Proof. destruct s; [congruence|reflexivity]. Qed.

Lemma parse_last_marker text now m :
  last (Re.findall_marker text) = Some m ->
  _parse_action_check_marker text now
  = match Json.loads (strip m) with
    | Some (JObj payload) =>
      match py_int (Json.get payload (u "chance")) with
      | None => None
      | Some chance =>
        match normalize_result
                (lower (strip (field_text payload (u "result")))) with
        | None => None
        | Some result =>
          if negb (truthy (strip (field_text payload (u "interaction"))))
          then None
          else Some {| stream_id := [];
                       interaction := strip (field_text payload (u "interaction"));
                       chance := Z.max 0 (Z.min 100 chance);
                       result := result;
                       created_at := now |}
        end
      end
    | _ => None
    end.
Proof.
  intros Hlast. unfold _parse_action_check_marker.
  destruct text as [|c text]; [discriminate|].
  cbn [truthy negb]. rewrite Hlast. reflexivity.
Qed.

(** C5, as the code has it. When the last match of the marker pattern
    in the text (the prefix, white space, then the text from an opening
    brace to the last closing brace of the line) holds a JSON object
    whose interaction is a string that is not empty once stripped, whose
    chance is an integer and whose result is a token of the synonym
    table, parsing returns the decision of that match: the stripped
    interaction, the chance clamped into [0,100] (unchanged when it is in
    range) and the result as exactly [success] or [fail]. Only the last
    match counts: every text with the same last match gives the same
    decision, whatever precedes that match. *)
Theorem last_marker_decision_parsed (text : pystr) (now : Q) (m : pystr)
    (payload : list (pystr * json)) (i r : pystr) (z : Z) :
  last (Re.findall_marker text) = Some m ->
  Json.loads (strip m) = Some (JObj payload) ->
  Json.get payload (u "interaction") = Some (JStr i) ->
  strip i <> [] ->
  Json.get payload (u "chance") = Some (JInt z) ->
  Json.get payload (u "result") = Some (JStr r) ->
  In r synonym_table ->
  exists c,
    _parse_action_check_marker text now = Some c
    /\ interaction c = strip i
    /\ chance c = Z.max 0 (Z.min 100 z)
    /\ (0 <= chance c <= 100)%Z
    /\ ((0 <= z <= 100)%Z -> chance c = z)
    /\ result c = canonical r
    /\ (result c = u "success" \/ result c = u "fail")
    /\ created_at c = now
    /\ (forall other,
          last (Re.findall_marker other) = Some m ->
          _parse_action_check_marker other now = Some c).
Proof.
  intros Hlast Hjson Hi Hne Hz Hr Htable.
  assert (Hany : forall t,
            last (Re.findall_marker t) = Some m ->
            _parse_action_check_marker t now
            = Some {| stream_id := [];
                      interaction := strip i;
                      chance := Z.max 0 (Z.min 100 z);
                      result := canonical r;
                      created_at := now |}).
  { intros t Ht. rewrite (parse_last_marker _ _ _ Ht), Hjson.
    unfold field_text. rewrite Hz, Hr, Hi.
    cbn [py_int default from_option id py_str].
    rewrite (table_token_normal _ Htable), (normalize_result_table _ Htable).
    rewrite (truthy_nonempty _ Hne). reflexivity. }
  eexists. split; [exact (Hany text Hlast)|]. cbn.
  split; [reflexivity|]. split; [reflexivity|]. split; [lia|].
  split; [lia|]. split; [reflexivity|]. split; [|split; [reflexivity|exact Hany]].
  unfold canonical. case_bool_decide; auto.
Qed.

(** The parse fails outright on a malformed last marker. *)
Lemma parse_malformed text now m :
  last (Re.findall_marker text) = Some m -> malformed m ->
  _parse_action_check_marker text now = None.
Proof.
  intros Hlast Hbad. rewrite (parse_last_marker _ _ _ Hlast).
  destruct Hbad as [-> | [(v & -> & Hv) | (payload & -> & Hbad)]].
  - reflexivity.
  - destruct v; try reflexivity. destruct (Hv kv). reflexivity.
  - destruct (py_int _); [|reflexivity].
    destruct Hbad as [Hmiss | [Hempty | Hres]].
    + unfold field_text at 2. rewrite Hmiss. cbn [default from_option id py_str].
      destruct (normalize_result _); reflexivity.
    + rewrite Hempty. destruct (normalize_result _); reflexivity.
    + rewrite (normalize_result_none _ Hres). reflexivity.
Qed.

End Parser.

Section ParserExamples.
Import Py.

Lemma last_marker_decision_parsed_witness :
  let text := u "plan
" ++ Sample.marker "hug" "180" "passed" in
  let m := default [] (last (Re.findall_marker text)) in
  let payload := [(u "interaction", JStr (u "hug")); (u "chance", JInt 180);
                  (u "result", JStr (u "passed"))] in
  last (Re.findall_marker text) = Some m
  /\ Json.loads (strip m) = Some (JObj payload)
  /\ strip (u "hug") <> []
  /\ In (u "passed") synonym_table
  /\ exists c,
      @_parse_action_check_marker Sample.builtins text 5 = Some c
      /\ interaction c = strip (u "hug")
      /\ chance c = Z.max 0 (Z.min 100 180)
      /\ (0 <= chance c <= 100)%Z
      /\ ((0 <= 180 <= 100)%Z -> chance c = 180%Z)
      /\ result c = canonical (u "passed")
      /\ (result c = u "success" \/ result c = u "fail")
      /\ created_at c = 5%Q
      /\ (forall other,
            last (Re.findall_marker other) = Some m ->
            @_parse_action_check_marker Sample.builtins other 5 = Some c).
Proof.
  intros text m payload.
  assert (H1 : last (Re.findall_marker text) = Some m) by (vm_compute; reflexivity).
  assert (H2 : Json.loads (strip m) = Some (JObj payload)) by (vm_compute; reflexivity).
  assert (H3 : strip (u "hug") <> []) by (vm_compute; discriminate).
  assert (H4 : In (u "passed") synonym_table) by (vm_compute; tauto).
  split; [exact H1|]. split; [exact H2|]. split; [exact H3|]. split; [exact H4|].
  exact (@last_marker_decision_parsed Sample.builtins text 5 m payload
           (u "hug") (u "passed") 180 H1 H2 eq_refl H3 eq_refl eq_refl H4).
Defined.

(** C5 as stated fails. A well-formed marker followed by a match of the
    pattern that is malformed is not adopted: the last match decides,
    and the parse returns nothing. An interaction of white space only is
    a non-empty string, and the parse returns nothing either. And a
    well-formed object followed on its line by text with a closing brace
    is not what the pattern keeps: the group runs to the last brace of
    the line, does not parse, and the parse returns nothing. *)
Lemma earlier_valid_marker_not_adopted :
  let valid := Sample.marker "hug" "80" "fail" in
  let text := valid ++ newline ++ Sample.marker "hug" "80" "maybe" in
  let blank := Sample.marker " " "80" "fail" in
  let trailing := valid ++ u " (see {note})" in
  (exists c, @_parse_action_check_marker Sample.builtins valid 0 = Some c
             /\ interaction c = u "hug" /\ chance c = 80%Z
             /\ result c = u "fail")
  /\ length (Re.findall_marker text) = 2%nat
  /\ @_parse_action_check_marker Sample.builtins text 0 = None
  /\ Re.findall_marker blank
     = [u "{" ++ quote ++ u "interaction" ++ quote ++ u ":" ++ quote ++ u " "
          ++ quote ++ u "," ++ quote ++ u "chance" ++ quote ++ u ":80,"
          ++ quote ++ u "result" ++ quote ++ u ":" ++ quote ++ u "fail"
          ++ quote ++ u "}"]
  /\ @_parse_action_check_marker Sample.builtins blank 0 = None
  /\ Re.findall_marker trailing
     = [u "{" ++ quote ++ u "interaction" ++ quote ++ u ":" ++ quote ++ u "hug"
          ++ quote ++ u "," ++ quote ++ u "chance" ++ quote ++ u ":80,"
          ++ quote ++ u "result" ++ quote ++ u ":" ++ quote ++ u "fail"
          ++ quote ++ u "} (see {note}"]
  /\ @_parse_action_check_marker Sample.builtins trailing 0 = None.
Proof.
  intros valid text blank trailing.
  split; [eexists; split; [vm_compute; reflexivity|]; repeat split|].
  split; [vm_compute; reflexivity|]. split; [vm_compute; reflexivity|].
  split; [vm_compute; reflexivity|]. split; [vm_compute; reflexivity|].
  split; vm_compute; reflexivity.
Qed.

End ParserExamples.

(** ** Point B: the decision is stored or the stale one dropped *)

Section PostLLM.
Context `{PyBuiltins}.
Import Py ActionCheckPostLLMHandler.

Lemma parsed_text_truthy text now c :
  _parse_action_check_marker text now = Some c -> truthy text = true.
Proof.
  unfold _parse_action_check_marker. destruct text; [discriminate|reflexivity].
Qed.

Lemma findall_text_truthy text m :
  last (Re.findall_marker text) = Some m -> truthy text = true.
Proof. destruct text; [discriminate|reflexivity]. Qed.

Lemma post_llm_run cfg now msg sid st prompt :
  enabled cfg = true ->
  MaiMessages.llm_prompt msg = Has (Some prompt) -> truthy prompt = true ->
  MaiMessages.stream_id msg = Has (Some sid) -> truthy sid = true ->
  execute cfg now (Some msg) st
  = let st1 := _clean_expired_action_check_state sid now st in
    match _parse_action_check_marker prompt now with
    | None => (pop_context sid st1, pass_through)
    | Some parsed0 =>
      (set_context sid (with_stream_id sid parsed0) st1,
       (true, true, Some (u "动作检定结果已注入 replyer prompt"), None,
        Some (MaiMessages.modify_llm_prompt msg
                (rstrip (_strip_action_check_marker_lines prompt) ++ u "

" ++ injected (with_stream_id sid parsed0)))))
    end.
Proof.
  intros Hon Hp Hpt Hsid Hst. unfold execute, body. rewrite Hon, Hp, Hsid.
  cbv beta iota zeta delta [negb read truthy_opt default from_option id].
  rewrite Hpt, Hst. cbv beta iota zeta.
  destruct (_parse_action_check_marker prompt now); reflexivity.
Qed.

(** C6, as the code has it. When the last match of the marker pattern
    in the prompt (the prefix, white space, then the text from an opening
    brace to the last closing brace of the line) is malformed (its group
    does not parse to a JSON object, its interaction is missing or empty,
    or its result token is not in the synonym table), the parse returns
    nothing; Point B then removes the context stored for the
    conversation, leaves every other entry as the eviction left it, and
    hands no message back: the prompt goes on unchanged. *)
Theorem malformed_marker_rejected (text : pystr) (now : Q) (m : pystr) :
  last (Re.findall_marker text) = Some m -> malformed m ->
  _parse_action_check_marker text now = None
  /\ forall cfg msg sid st,
      enabled cfg = true ->
      MaiMessages.llm_prompt msg = Has (Some text) ->
      MaiMessages.stream_id msg = Has (Some sid) -> truthy sid = true ->
      let st' := fst (execute cfg now (Some msg) st) in
      execute cfg now (Some msg) st
      = (pop_context sid (_clean_expired_action_check_state sid now st),
         pass_through)
      /\ context_by_stream st' !! sid = None
      /\ pending_tag_by_stream st'
         = pending_tag_by_stream (_clean_expired_action_check_state sid now st)
      /\ same_elsewhere sid st st'
      /\ continue_with (Some msg) (snd (execute cfg now (Some msg) st)) = Some msg.
Proof.
  intros Hlast Hbad.
  pose proof (parse_malformed _ now _ Hlast Hbad) as Hnone.
  split; [exact Hnone|].
  intros cfg msg sid st Hon Hp Hsid Hst st'.
  pose proof (post_llm_run cfg now msg sid st text Hon Hp
                (findall_text_truthy _ _ Hlast) Hsid Hst) as Hrun.
  rewrite Hnone in Hrun. cbv zeta in Hrun. subst st'. rewrite Hrun.
  split; [reflexivity|]. cbn [fst snd].
  split; [unfold pop_context; cbn; apply lookup_delete_eq|].
  split; [reflexivity|]. split; [|reflexivity].
  intros k Hk. unfold pop_context. cbn. rewrite lookup_delete_ne by congruence.
  apply clean_same_elsewhere. exact Hk.
Qed.

End PostLLM.

Section PostLLMExamples.
Import Py ActionCheckPostLLMHandler.

Lemma malformed_marker_rejected_witness :
  let text := u "plan
" ++ Sample.marker "" "80" "fail" in
  let m := default [] (last (Re.findall_marker text)) in
  let msg := Sample.message_with text [] in
  let st := Sample.context_state (Sample.hug_context 0) in
  last (Re.findall_marker text) = Some m
  /\ @malformed Sample.builtins m
  /\ @_parse_action_check_marker Sample.builtins text 10 = None
  /\ @execute Sample.builtins Sample.cfg_on 10 (Some msg) st
     = (Sample.empty_state, pass_through).
Proof.
  intros text m msg st.
  assert (H1 : last (Re.findall_marker text) = Some m) by (vm_compute; reflexivity).
  assert (H2 : @malformed Sample.builtins m).
  { right. right.
    exists [(u "interaction", JStr []); (u "chance", JInt 80);
            (u "result", JStr (u "fail"))].
    split; [vm_compute; reflexivity|]. right. left. vm_compute. reflexivity. }
  split; [exact H1|]. split; [exact H2|].
  destruct (@malformed_marker_rejected Sample.builtins text 10 m H1 H2)
    as [Hparse Hrun].
  split; [exact Hparse|].
  destruct (Hrun Sample.cfg_on msg Sample.sid st eq_refl eq_refl eq_refl
              ltac:(vm_compute; reflexivity)) as (E & _).
  rewrite E. vm_compute. reflexivity.
Defined.

(** C6 as stated fails. A marker line the pattern does not match (here
    one cut before its closing brace) is not an occurrence: the match
    before it is the last one. The latest marker of the prompt is
    malformed, and yet the parse returns the decision of the marker
    before it, and Point B stores it and hands back a changed prompt. *)
Lemma cut_marker_line_keeps_earlier_decision :
  let valid := Sample.marker "hug" "80" "fail" in
  let cut := u "ACTION_CHECK_JSON: {" ++ quote ++ u "interaction" ++ quote
               ++ u ":" ++ quote ++ u "kiss" ++ quote ++ u "," ++ quote
               ++ u "chance" ++ quote ++ u ":50," in
  let text := valid ++ newline ++ cut in
  let msg := Sample.message_with text [] in
  let out := @execute Sample.builtins Sample.cfg_on 10 (Some msg)
               Sample.empty_state in
  Json.loads (strip (drop 19 cut)) = None
  /\ length (Re.findall_marker text) = 1%nat
  /\ @_parse_action_check_marker Sample.builtins text 10
     = Some {| stream_id := []; interaction := u "hug"; chance := 80;
               result := u "fail"; created_at := 10 |}
  /\ context_by_stream (fst out) !! Sample.sid = Some (Sample.hug_context 10)
  /\ modified_message (snd out) <> None.
Proof.
  intros valid cut text msg out.
  split; [vm_compute; reflexivity|]. split; [vm_compute; reflexivity|].
  split; [vm_compute; reflexivity|]. split; [vm_compute; reflexivity|].
  vm_compute. discriminate.
Qed.

End PostLLMExamples.

(** ** The removal of the marker lines *)

Section MarkerLines.
Import Py Re.
Local Open Scope N_scope.

Lemma prefix_chars :
  _ACTION_CHECK_MARKER_PREFIX
  = [65; 67; 84; 73; 79; 78; 95; 67; 72; 69; 67; 75; 95; 74; 83; 79; 78; 58].
Proof. vm_compute. reflexivity. Qed.

Lemma match_marker_line_none s :
  match_marker_line s = None <-> starts_marker s = false.
Proof.
  unfold match_marker_line, starts_marker.
  destruct (startswith _ (dropwhile isspace s)); split; congruence.
Qed.

Lemma bol_after_cons b c pre : bol_after b (c :: pre) = bol_after (c =? 10) pre.
Proof.
  unfold bol_after. destruct pre as [|x pre]; [reflexivity|].
  change (last (c :: x :: pre)) with (last (x :: pre)).
  destruct (last (x :: pre)) eqn:E; [reflexivity|].
  apply last_None in E. discriminate.
Qed.

Lemma dropwhile_split (p : N -> bool) (s : pystr) :
  s = takewhile p s ++ dropwhile p s.
Proof.
  induction s as [|c s IH]; [reflexivity|]. cbn.
  destruct (p c); [cbn; f_equal; exact IH|reflexivity].
Qed.

Lemma dropwhile_head (p : N -> bool) (s : pystr) c r :
  dropwhile p s = c :: r -> p c = false.
Proof.
  induction s as [|a s IH]; cbn; [discriminate|].
  destruct (p a) eqn:E; [exact IH|]. intros [= <- _]. exact E.
Qed.

Lemma sub_from_skip text : forall k b,
  sub_from k b text = sub_from 0 (bol_after b (take k text)) (drop k text).
Proof.
  induction text as [|c rest IH]; intros k b.
  - destruct k; reflexivity.
  - destruct k as [|k]; [reflexivity|].
    cbn [sub_from take drop]. rewrite IH, bol_after_cons. reflexivity.
Qed.

(** A match of the line pattern covers a non-empty head of the text that
    ends with a line feed or reaches the end of the text. *)
Lemma match_marker_line_split text n :
  match_marker_line text = Some n ->
  exists consumed rest,
    text = consumed ++ rest /\ length consumed = n /\ consumed <> []
    /\ (rest = [] \/ last consumed = Some 10).
Proof.
  unfold match_marker_line.
  destruct (startswith _ACTION_CHECK_MARKER_PREFIX (dropwhile isspace text))
    eqn:Hs; [|discriminate].
  intros [= <-]. apply startswith_inv in Hs as [t2 Ht1]. rewrite Ht1.
  rewrite drop_app_length.
  pose proof (dropwhile_split isspace text) as Hws. rewrite Ht1 in Hws.
  pose proof (dropwhile_split not_lf t2) as Hline.
  destruct (dropwhile not_lf t2) as [|c t4] eqn:Ht3.
  - exists text, []. rewrite app_nil_r. cbn. rewrite Nat.sub_0_r.
    split; [reflexivity|]. split; [reflexivity|]. split; [|auto].
    rewrite Hws, prefix_chars. destruct (takewhile isspace text); discriminate.
  - assert (Hc : c = 10).
    { apply dropwhile_head in Ht3. unfold not_lf in Ht3.
      apply negb_false_iff, N.eqb_eq in Ht3. exact Ht3. }
    subst c. cbn [tl].
    exists (takewhile isspace text ++ _ACTION_CHECK_MARKER_PREFIX
              ++ takewhile not_lf t2 ++ [10]), t4.
    assert (Htext : text = (takewhile isspace text ++ _ACTION_CHECK_MARKER_PREFIX
                              ++ takewhile not_lf t2 ++ [10]) ++ t4).
    { rewrite <- !app_assoc. cbn [app]. rewrite <- Hline. exact Hws. }
    split; [exact Htext|]. split.
    + pose proof (f_equal length Htext) as Hl. rewrite length_app in Hl. lia.
    + split; [rewrite prefix_chars; destruct (takewhile isspace text); discriminate|].
      right. rewrite !app_assoc. apply last_snoc.
Qed.

Lemma sub_from_match text n :
  match_marker_line text = Some n ->
  exists consumed rest,
    text = consumed ++ rest /\ consumed <> []
    /\ sub_from 0 true text = sub_from 0 true rest.
Proof.
  intros Hm. destruct (match_marker_line_split _ _ Hm)
    as (consumed & rest & Htext & Hlen & Hne & Hend).
  exists consumed, rest. split; [exact Htext|]. split; [exact Hne|].
  destruct text as [|c text']; [destruct consumed; [congruence|discriminate]|].
  cbn [sub_from]. rewrite Hm.
  destruct n as [|n']; [destruct consumed; [congruence|discriminate]|].
  replace (S n' - 1)%nat with n' by lia.
  change (sub_from n' (c =? 10) text') with (sub_from (S n') true (c :: text')).
  rewrite sub_from_skip, Htext, <- Hlen.
  rewrite take_app_length, drop_app_length.
  destruct Hend as [-> | Hlast]; [reflexivity|].
  unfold bol_after. rewrite Hlast. reflexivity.
Qed.

Lemma sub_from_mid_prefix p : forall rest,
  forallb not_lf p = true ->
  startswith p (sub_from 0 false rest) = startswith p rest.
Proof.
  induction p as [|x p IH]; intros rest Hp; [reflexivity|].
  cbn in Hp. apply andb_prop in Hp as [Hx Hp].
  destruct rest as [|c r]; [reflexivity|]. cbn [sub_from startswith].
  destruct (N.eqb_spec x c) as [<-|Hne]; [|reflexivity]. cbn [andb].
  unfold not_lf in Hx. apply negb_true_iff in Hx. rewrite Hx.
  apply IH. exact Hp.
Qed.

Lemma prefix_head :
  exists p', _ACTION_CHECK_MARKER_PREFIX = 65 :: p' /\ forallb not_lf p' = true.
Proof. rewrite prefix_chars. eexists. split; reflexivity. Qed.

Lemma sub_from_keeps_unmarked text : forall b,
  starts_marker text = false -> starts_marker (sub_from 0 b text) = false.
Proof.
  destruct prefix_head as (p' & HP & Hp').
  induction text as [|c rest IH]; intros b Hs; [exact Hs|].
  assert (Hstep : sub_from 0 b (c :: rest) = c :: sub_from 0 (c =? 10) rest).
  { cbn [sub_from]. rewrite (proj2 (match_marker_line_none _) Hs).
    destruct b; reflexivity. }
  rewrite Hstep. unfold starts_marker in *. cbn [dropwhile] in *.
  destruct (isspace c) eqn:Hc; [apply IH; exact Hs|].
  rewrite HP in *. cbn [startswith] in *.
  destruct (N.eqb_spec 65 c) as [<-|Hne]; [|reflexivity]. cbn [andb] in *.
  change (65 =? 10) with false. rewrite sub_from_mid_prefix; [exact Hs|exact Hp'].
Qed.

Lemma sub_from_no_marker_line n : forall text b pre post,
  (length text <= n)%nat ->
  sub_from 0 b text = pre ++ post -> bol_after b pre = true ->
  starts_marker post = false.
Proof.
  induction n as [|n IH]; intros text b pre post Hlen Hsplit Hbol.
  { destruct text; [|cbn in Hlen; lia]. cbn in Hsplit.
    destruct pre, post; try discriminate. reflexivity. }
  destruct text as [|c rest].
  { cbn in Hsplit. destruct pre, post; try discriminate. reflexivity. }
  destruct (if b then match_marker_line (c :: rest) else None) as [k|] eqn:Hm.
  - destruct b; [|discriminate].
    destruct (sub_from_match _ _ Hm) as (consumed & rest' & Htext & Hne & Hsub).
    rewrite Hsub in Hsplit. apply (IH rest' true pre post); [|exact Hsplit|exact Hbol].
    assert (Hl : length (c :: rest) = (length consumed + length rest')%nat)
      by (rewrite Htext, length_app; reflexivity).
    destruct consumed; [congruence|]. cbn in Hl, Hlen. lia.
  - assert (Hstep : sub_from 0 b (c :: rest) = c :: sub_from 0 (c =? 10) rest).
    { cbn [sub_from]. rewrite Hm. reflexivity. }
    destruct pre as [|c' pre'].
    + change ([] ++ post) with post in Hsplit. subst post.
      unfold bol_after in Hbol. cbn in Hbol. subst b.
      apply sub_from_keeps_unmarked. apply match_marker_line_none. exact Hm.
    + rewrite Hstep in Hsplit. cbn in Hsplit. injection Hsplit as <- Hsplit.
      rewrite bol_after_cons in Hbol.
      apply (IH rest (c =? 10) pre' post); [cbn in Hlen; lia|exact Hsplit|exact Hbol].
Qed.

Lemma line_start_bol pre : line_start pre -> bol_after true pre = true.
Proof.
  intros [-> | (pre' & ->)]; [reflexivity|].
  unfold bol_after. rewrite last_snoc. reflexivity.
Qed.

(** What [_strip_action_check_marker_lines] returns has no line that
    begins with the marker prefix. *)
Lemma strip_leaves_no_marker_line text :
  no_marker_line (_strip_action_check_marker_lines text).
Proof.
  intros pre post Hsplit Hstart. apply match_marker_line_none.
  unfold _strip_action_check_marker_lines in Hsplit.
  destruct text as [|c text].
  - cbn in Hsplit. destruct pre, post; try discriminate. reflexivity.
  - cbn [truthy negb] in Hsplit. unfold sub_marker_lines in Hsplit.
    eapply sub_from_no_marker_line;
      [reflexivity|exact Hsplit|apply line_start_bol; exact Hstart].
Qed.

(** A text without such a line is returned as it is. *)
Lemma sub_from_identity text : forall b,
  (forall pre post, text = pre ++ post -> bol_after b pre = true ->
                    starts_marker post = false) ->
  sub_from 0 b text = text.
Proof.
  induction text as [|c rest IH]; intros b Hfree; [reflexivity|].
  cbn [sub_from].
  assert (Hm : (if b then match_marker_line (c :: rest) else None) = None).
  { destruct b; [|reflexivity]. apply match_marker_line_none.
    apply (Hfree [] (c :: rest)); reflexivity. }
  rewrite Hm. f_equal. apply IH. intros pre post Hsplit Hbol.
  apply (Hfree (c :: pre) post); [rewrite Hsplit; reflexivity|].
  rewrite bol_after_cons. exact Hbol.
Qed.

Lemma strip_identity_without_marker_line text :
  no_marker_line text -> _strip_action_check_marker_lines text = text.
Proof.
  intros Hfree. unfold _strip_action_check_marker_lines.
  destruct text as [|c text]; [reflexivity|]. cbn [truthy negb].
  apply sub_from_identity. intros pre post Hsplit Hbol.
  apply match_marker_line_none. apply (Hfree pre post Hsplit).
  unfold bol_after in Hbol. destruct (last pre) as [x|] eqn:Hl.
  - right. apply last_Some in Hl as [pre' ->]. apply N.eqb_eq in Hbol.
    subst x. exists pre'. reflexivity.
  - left. apply last_None in Hl. exact Hl.
Qed.

End MarkerLines.

Section MarkerLinesOfPrompt.
Import Py Re.
Local Open Scope N_scope.





End MarkerLinesOfPrompt.

Section PostLLMStore.
Context `{PyBuiltins}.
Import Py ActionCheckPostLLMHandler.


End PostLLMStore.

Section PostLLMStoreExamples.
Import Py ActionCheckPostLLMHandler.



End PostLLMStoreExamples.

(** ** Expiry on access *)

Section ExpiryOnAccess.
Context `{PyBuiltins}.
Import Py.

Lemma same_elsewhere_refl sid st : same_elsewhere sid st st.
Proof. intros k _. auto. Qed.

Lemma same_elsewhere_trans sid st1 st2 st3 :
  same_elsewhere sid st1 st2 -> same_elsewhere sid st2 st3 ->
  same_elsewhere sid st1 st3.
Proof.
  intros H12 H23 k Hk. destruct (H12 k Hk) as [<- <-]. exact (H23 k Hk).
Qed.

Lemma same_elsewhere_pop_context sid st :
  same_elsewhere sid st (pop_context sid st).
Proof.
  intros k Hk. unfold pop_context. cbn.
  rewrite lookup_delete_ne by congruence. auto.
Qed.

Lemma same_elsewhere_pop_pending sid st :
  same_elsewhere sid st (pop_pending sid st).
Proof.
  intros k Hk. unfold pop_pending. cbn.
  rewrite lookup_delete_ne by congruence. auto.
Qed.

Lemma same_elsewhere_set_context sid c st :
  same_elsewhere sid st (set_context sid c st).
Proof.
  intros k Hk. unfold set_context. cbn.
  rewrite lookup_insert_ne by congruence. auto.
Qed.

Lemma same_elsewhere_set_pending sid p st :
  same_elsewhere sid st (set_pending sid p st).
Proof.
  intros k Hk. unfold set_pending. cbn.
  rewrite lookup_insert_ne by congruence. auto.
Qed.

Ltac elsewhere :=
  cbn [fst guarded];
  repeat match goal with
    | |- same_elsewhere _ ?s ?s => apply same_elsewhere_refl
    | |- same_elsewhere _ _ (_clean_expired_action_check_state _ _ _) =>
      apply clean_same_elsewhere
    | |- same_elsewhere _ _ (pop_context _ _) =>
      eapply same_elsewhere_trans; [|apply same_elsewhere_pop_context]
    | |- same_elsewhere _ _ (pop_pending _ _) =>
      eapply same_elsewhere_trans; [|apply same_elsewhere_pop_pending]
    | |- same_elsewhere _ _ (set_context _ _ _) =>
      eapply same_elsewhere_trans; [|apply same_elsewhere_set_context]
    | |- same_elsewhere _ _ (set_pending _ _ _) =>
      eapply same_elsewhere_trans; [|apply same_elsewhere_set_pending]
    end.

(** Each relay handler changes the entries of the conversation of its
    message only. *)
Lemma post_llm_elsewhere cfg now msg sid st :
  MaiMessages.stream_id msg = Has (Some sid) ->
  same_elsewhere sid st
    (fst (ActionCheckPostLLMHandler.execute cfg now (Some msg) st)).
Proof.
  intros Hsid.
  unfold ActionCheckPostLLMHandler.execute, ActionCheckPostLLMHandler.body.
  rewrite Hsid.
  destruct (enabled cfg); cbn [negb]; [|elsewhere].
  destruct (MaiMessages.llm_prompt msg) as [p|e]; cbn [read]; [|elsewhere].
  destruct (truthy_opt p); cbn [negb]; [|elsewhere].
  destruct (truthy_opt (Some sid)); cbn [negb]; [|elsewhere].
  cbv zeta. cbn [default from_option id].
  destruct (_parse_action_check_marker _ now); elsewhere.
Qed.

Lemma after_llm_elsewhere cfg now msg sid st :
  MaiMessages.stream_id msg = Has (Some sid) ->
  same_elsewhere sid st
    (fst (ActionCheckAfterLLMHandler.execute cfg now (Some msg) st)).
Proof.
  intros Hsid.
  unfold ActionCheckAfterLLMHandler.execute, ActionCheckAfterLLMHandler.body.
  rewrite Hsid.
  destruct (negb (enabled cfg) || negb (show_roll_result cfg)); [elsewhere|].
  cbn [read]. destruct (truthy_opt (Some sid)); cbn [negb]; [|elsewhere].
  cbv zeta. cbn [default from_option id].
  destruct (context_by_stream _ !! sid); elsewhere.
Qed.

Lemma post_send_elsewhere cfg now msg sid st :
  MaiMessages.stream_id msg = Has (Some sid) ->
  same_elsewhere sid st
    (fst (ActionCheckPostSendPrefixHandler.execute cfg now (Some msg) st)).
Proof.
  intros Hsid.
  unfold ActionCheckPostSendPrefixHandler.execute,
    ActionCheckPostSendPrefixHandler.body.
  rewrite Hsid.
  destruct (negb (enabled cfg) || negb (show_roll_result cfg)); [elsewhere|].
  cbn [read]. destruct (truthy_opt (Some sid)); cbn [negb]; [|elsewhere].
  cbv zeta. cbn [default from_option id].
  destruct (pending_tag_by_stream _ !! sid) as [[tag ts]|]; [|elsewhere].
  destruct (MaiMessages.message_segments msg) as [[[|s segs]|]|e];
    cbn [read]; try elsewhere.
  destruct (ActionCheckPostSendPrefixHandler.prefix_loop tag (s :: segs));
    elsewhere.
Qed.

Lemma after_llm_run cfg now msg sid st :
  enabled cfg = true -> show_roll_result cfg = true ->
  MaiMessages.stream_id msg = Has (Some sid) -> truthy sid = true ->
  ActionCheckAfterLLMHandler.execute cfg now (Some msg) st
  = let st1 := _clean_expired_action_check_state sid now st in
    match context_by_stream st1 !! sid with
    | None => (st1, pass_through)
    | Some ctx =>
      (set_pending sid (_format_action_check_tag (chance ctx) (result ctx), now) st1,
       (true, true, Some (u "动作检定标签已准备"), None, None))
    end.
Proof.
  intros Hon Hshow Hsid Hst.
  unfold ActionCheckAfterLLMHandler.execute, ActionCheckAfterLLMHandler.body.
  rewrite Hon, Hshow, Hsid.
  cbv beta iota zeta delta [negb orb read truthy_opt default from_option id].
  rewrite Hst. cbv beta iota zeta.
  destruct (context_by_stream _ !! sid); reflexivity.
Qed.

Lemma one_second_past_ttl (t0 : Q) :
  (_ACTION_CHECK_CONTEXT_TTL_SECONDS < t0 + 121 - t0)%Q.
Proof.
  assert (E : (t0 + 121 - t0 == 121)%Q) by ring.
  rewrite E. reflexivity.
Qed.

(** C8. The eviction at the entry of Points B, C and D removes the
    context of the conversation when its age exceeds 120 seconds and the
    pending tag when its age exceeds 60 seconds, keeps them otherwise, and
    touches no other conversation. Each of the three handlers, once past
    its guards, does what it would do on the state without the expired
    entries, so an expired entry is as good as absent: a context created at
    [t0] is gone at [t0 + 121], and Point C makes no tag from an expired
    context. Nothing else evicts: a handler called for one conversation
    leaves the entries of every other conversation as they are, expired or
    not. *)
Theorem expired_entries_evicted_on_access (sid : pystr) (now : Q)
    (st : RelayState) :
  let st1 := _clean_expired_action_check_state sid now st in
  (_ACTION_CHECK_CONTEXT_TTL_SECONDS = 120%Q
   /\ _ACTION_CHECK_PENDING_TAG_TTL_SECONDS = 60%Q)
  /\ (forall c, context_by_stream st !! sid = Some c ->
       ((_ACTION_CHECK_CONTEXT_TTL_SECONDS < now - created_at c)%Q ->
          context_by_stream st1 !! sid = None)
       /\ ((now - created_at c <= _ACTION_CHECK_CONTEXT_TTL_SECONDS)%Q ->
          context_by_stream st1 !! sid = Some c))
  /\ (forall tag ts, pending_tag_by_stream st !! sid = Some (tag, ts) ->
       ((_ACTION_CHECK_PENDING_TAG_TTL_SECONDS < now - ts)%Q ->
          pending_tag_by_stream st1 !! sid = None)
       /\ ((now - ts <= _ACTION_CHECK_PENDING_TAG_TTL_SECONDS)%Q ->
          pending_tag_by_stream st1 !! sid = Some (tag, ts)))
  /\ same_elsewhere sid st st1
  /\ (forall t0 c, context_by_stream st !! sid = Some c -> created_at c = t0 ->
       context_by_stream (_clean_expired_action_check_state sid (t0 + 121) st)
         !! sid = None)
  /\ (forall cfg msg,
        MaiMessages.stream_id msg = Has (Some sid) -> truthy sid = true ->
        enabled cfg = true ->
        (forall prompt,
            MaiMessages.llm_prompt msg = Has (Some prompt) ->
            truthy prompt = true ->
            ActionCheckPostLLMHandler.execute cfg now (Some msg) st
            = ActionCheckPostLLMHandler.execute cfg now (Some msg) st1)
        /\ (show_roll_result cfg = true ->
            ActionCheckAfterLLMHandler.execute cfg now (Some msg) st
            = ActionCheckAfterLLMHandler.execute cfg now (Some msg) st1
            /\ ActionCheckPostSendPrefixHandler.execute cfg now (Some msg) st
               = ActionCheckPostSendPrefixHandler.execute cfg now (Some msg) st1)
        /\ (show_roll_result cfg = true ->
            forall c, context_by_stream st !! sid = Some c ->
                      (_ACTION_CHECK_CONTEXT_TTL_SECONDS < now - created_at c)%Q ->
                      ActionCheckAfterLLMHandler.execute cfg now (Some msg) st
                      = (st1, pass_through)))
  /\ (forall cfg msg other,
        MaiMessages.stream_id msg = Has (Some other) ->
        same_elsewhere other st
          (fst (ActionCheckPostLLMHandler.execute cfg now (Some msg) st))
        /\ same_elsewhere other st
             (fst (ActionCheckAfterLLMHandler.execute cfg now (Some msg) st))
        /\ same_elsewhere other st
             (fst (ActionCheckPostSendPrefixHandler.execute cfg now (Some msg) st))).
Proof.
  intros st1. split; [split; reflexivity|].
  assert (Hctx : forall now' c, context_by_stream st !! sid = Some c ->
            (_ACTION_CHECK_CONTEXT_TTL_SECONDS < now' - created_at c)%Q ->
            context_by_stream (_clean_expired_action_check_state sid now' st)
              !! sid = None).
  { intros now' c Hc Hage. rewrite clean_context, Hc.
    rewrite (proj2 (older_than_true _ _ _) Hage).
    rewrite bool_decide_eq_true_2 by reflexivity. reflexivity. }
  split.
  { intros c Hc. split; [apply Hctx; exact Hc|].
    intros Hage. apply context_live; assumption. }
  split.
  { intros tag ts Hp. split.
    - intros Hage. subst st1. rewrite clean_pending, Hp. cbn [snd].
      rewrite (proj2 (older_than_true _ _ _) Hage).
      rewrite bool_decide_eq_true_2 by reflexivity. reflexivity.
    - intros Hage. apply pending_live; assumption. }
  split; [apply clean_same_elsewhere|].
  split.
  { intros t0 c Hc <-. apply (Hctx _ c Hc). apply one_second_past_ttl. }
  split.
  - intros cfg msg Hsid Hst Hon. split; [|split].
    + intros prompt Hp Hpt.
      rewrite !(post_llm_run cfg now msg sid _ prompt Hon Hp Hpt Hsid Hst).
      subst st1. rewrite clean_idempotent. reflexivity.
    + intros Hshow. split.
      * rewrite !(after_llm_run cfg now msg sid _ Hon Hshow Hsid Hst).
        subst st1. rewrite clean_idempotent. reflexivity.
      * unfold ActionCheckPostSendPrefixHandler.execute,
          ActionCheckPostSendPrefixHandler.body.
        rewrite Hon, Hshow, Hsid.
        cbv beta iota zeta delta [negb orb read truthy_opt default from_option id].
        rewrite Hst. cbv beta iota zeta.
        subst st1. rewrite clean_idempotent. reflexivity.
    + intros Hshow c Hc Hage.
      rewrite (after_llm_run cfg now msg sid _ Hon Hshow Hsid Hst). cbv zeta.
      fold st1. subst st1. rewrite (Hctx now c Hc Hage). reflexivity.
  - intros cfg msg other Hother. split; [|split].
    + apply post_llm_elsewhere. exact Hother.
    + apply after_llm_elsewhere. exact Hother.
    + apply post_send_elsewhere. exact Hother.
Qed.

End ExpiryOnAccess.

Section ExpiryExamples.
Import Py.

Lemma expired_entries_evicted_on_access_witness :
  let st := Sample.context_state (Sample.hug_context 1000) in
  let msg := Sample.message_with (u "prompt") [] in
  context_by_stream st !! Sample.sid = Some (Sample.hug_context 1000)
  /\ (_ACTION_CHECK_CONTEXT_TTL_SECONDS
      < 1121 - created_at (Sample.hug_context 1000))%Q
  /\ context_by_stream (_clean_expired_action_check_state Sample.sid 1121 st)
       !! Sample.sid = None
  /\ ActionCheckAfterLLMHandler.execute Sample.cfg_on 1121 (Some msg) st
     = (Sample.empty_state, pass_through).
Proof.
  intros st msg.
  assert (Hc : context_by_stream st !! Sample.sid = Some (Sample.hug_context 1000))
    by (vm_compute; reflexivity).
  assert (Hage : (_ACTION_CHECK_CONTEXT_TTL_SECONDS
                  < 1121 - created_at (Sample.hug_context 1000))%Q)
    by (vm_compute; reflexivity).
  split; [exact Hc|]. split; [exact Hage|].
  destruct (@expired_entries_evicted_on_access Sample.builtins Sample.sid 1121 st)
    as (_ & Hctx & _ & _ & _ & Hrun & _).
  split; [exact (proj1 (Hctx _ Hc) Hage)|].
  destruct (Hrun Sample.cfg_on msg eq_refl ltac:(vm_compute; reflexivity) eq_refl)
    as (_ & _ & Hgone).
  rewrite (Hgone eq_refl _ Hc Hage). vm_compute. reflexivity.
Defined.

End ExpiryExamples.

(** ** No handler raises *)

Section NeverRaises.
Context `{PyBuiltins}.
Import Py.

Lemma pass_through_continues : continues pass_through.
Proof. split; reflexivity. Qed.

Lemma guarded_continues (r : RelayState * exc HandlerResult) :
  (forall res, snd r = Ok res -> continues res) ->
  continues (snd (guarded r))
  /\ (forall e, snd r = Raised e -> snd (guarded r) = pass_through).
Proof.
  destruct r as [st [res|e]]; cbn; intros Hok.
  - split; [apply Hok; reflexivity|discriminate].
  - split; [apply pass_through_continues|reflexivity].
Qed.

Ltac returned :=
  cbn [snd]; intros res Hres;
  first [ injection Hres as <-; split; reflexivity | discriminate Hres ].

Lemma planner_returns cfg env message res :
  ActionCheckPlannerPromptHandler.body cfg env message = Ok res -> continues res.
Proof.
  unfold ActionCheckPlannerPromptHandler.body.
  destruct (enabled cfg); cbn [negb]; [|intros [= <-]; split; reflexivity].
  destruct message as [msg|]; [|intros [= <-]; split; reflexivity].
  destruct (MaiMessages.llm_prompt msg) as [p|e]; cbn [read]; [|discriminate].
  destruct (truthy_opt p); cbn [negb]; [|intros [= <-]; split; reflexivity].
  destruct (contains _ _); [intros [= <-]; split; reflexivity|].
  destruct (MaiMessages.message_base_info msg) as [info|e]; cbn [read];
    [|discriminate].
  destruct (normalize_user_id env _) as [uid|e]; [|discriminate].
  destruct (match select_impression env uid with
            | Ok (Some (score, level)) => _ | _ => _ end) as [score level].
  intros [= <-]. split; reflexivity.
Qed.

Lemma post_llm_returns cfg now message st res :
  snd (ActionCheckPostLLMHandler.body cfg now message st) = Ok res ->
  continues res.
Proof.
  revert res. unfold ActionCheckPostLLMHandler.body.
  destruct (enabled cfg); cbn [negb]; [|returned].
  destruct message as [msg|]; [|returned].
  destruct (MaiMessages.llm_prompt msg) as [p|e]; cbn [read]; [|returned].
  destruct (truthy_opt p); cbn [negb]; [|returned].
  destruct (MaiMessages.stream_id msg) as [s|e]; cbn [read]; [|returned].
  destruct (truthy_opt s); cbn [negb]; [|returned].
  cbv zeta. destruct (_parse_action_check_marker _ now); returned.
Qed.

Lemma after_llm_returns cfg now message st res :
  snd (ActionCheckAfterLLMHandler.body cfg now message st) = Ok res ->
  continues res.
Proof.
  revert res. unfold ActionCheckAfterLLMHandler.body.
  destruct (negb (enabled cfg) || negb (show_roll_result cfg)); [returned|].
  destruct message as [msg|]; [|returned].
  destruct (MaiMessages.stream_id msg) as [s|e]; cbn [read]; [|returned].
  destruct (truthy_opt s); cbn [negb]; [|returned].
  cbv zeta. destruct (context_by_stream _ !! _); returned.
Qed.

Lemma post_send_returns cfg now message st res :
  snd (ActionCheckPostSendPrefixHandler.body cfg now message st) = Ok res ->
  continues res.
Proof.
  revert res. unfold ActionCheckPostSendPrefixHandler.body.
  destruct (negb (enabled cfg) || negb (show_roll_result cfg)); [returned|].
  destruct message as [msg|]; [|returned].
  destruct (MaiMessages.stream_id msg) as [s|e]; cbn [read]; [|returned].
  destruct (truthy_opt s); cbn [negb]; [|returned].
  cbv zeta. destruct (pending_tag_by_stream _ !! _) as [[tag ts]|]; [|returned].
  destruct (MaiMessages.message_segments msg) as [[[|s0 segs]|]|e];
    cbn [read]; try returned.
  destruct (ActionCheckPostSendPrefixHandler.prefix_loop tag (s0 :: segs));
    returned.
Qed.

Lemma handle_returns sv resolved w :
  exists r, snd (ImpressionUpdateHandler.handle sv resolved w) = Ok r.
Proof.
  unfold ImpressionUpdateHandler.handle, ImpressionUpdateHandler.try_except.
  match goal with
  | |- context [match ?m with _ => _ end] => destruct m as [w' [r|e]]
  end; eexists; reflexivity.
Qed.

Lemma async_update_returns sv init resolved w :
  snd (ImpressionUpdateHandler._async_update_impression sv init resolved w)
  = Ok tt.
Proof.
  unfold ImpressionUpdateHandler._async_update_impression,
    ImpressionUpdateHandler.try_except.
  match goal with
  | |- context [match ?m with _ => _ end] => destruct m as [w' [[]|e]]
  end; reflexivity.
Qed.

(** C9. Whatever the message is ([None], a message whose attributes
    raise when read, any message at all), each entry point returns a
    tuple that tells the host to go on: both flags set, no custom result.
    When the body of a relay handler raises, the handler returns the
    pass-through tuple; when the start of the update task fails, the
    handler returns a note and no message. The update task itself and
    [handle] end without an exception. *)
Theorem entry_points_never_raise (message : option MaiMessages.t) :
  (forall cfg env,
      continues (ActionCheckPlannerPromptHandler.execute cfg env message)
      /\ (forall e, ActionCheckPlannerPromptHandler.body cfg env message = Raised e ->
                    ActionCheckPlannerPromptHandler.execute cfg env message
                    = pass_through))
  /\ (forall cfg now st,
        continues (snd (ActionCheckPostLLMHandler.execute cfg now message st))
        /\ (forall e,
              snd (ActionCheckPostLLMHandler.body cfg now message st) = Raised e ->
              snd (ActionCheckPostLLMHandler.execute cfg now message st)
              = pass_through))
  /\ (forall cfg now st,
        continues (snd (ActionCheckAfterLLMHandler.execute cfg now message st))
        /\ (forall e,
              snd (ActionCheckAfterLLMHandler.body cfg now message st) = Raised e ->
              snd (ActionCheckAfterLLMHandler.execute cfg now message st)
              = pass_through))
  /\ (forall cfg now st,
        continues (snd (ActionCheckPostSendPrefixHandler.execute cfg now message st))
        /\ (forall e,
              snd (ActionCheckPostSendPrefixHandler.body cfg now message st)
              = Raised e ->
              snd (ActionCheckPostSendPrefixHandler.execute cfg now message st)
              = pass_through))
  /\ (forall init create_task,
        continues (ImpressionUpdateHandler.execute init create_task message)
        /\ modified_message
             (ImpressionUpdateHandler.execute init create_task message) = None)
  /\ (forall sv init resolved w,
        (exists r, snd (ImpressionUpdateHandler.handle sv resolved w) = Ok r)
        /\ snd (ImpressionUpdateHandler._async_update_impression sv init resolved w)
           = Ok tt)
  /\ (message = None ->
      (forall cfg env,
          ActionCheckPlannerPromptHandler.execute cfg env message = pass_through)
      /\ (forall cfg now st,
            ActionCheckPostLLMHandler.execute cfg now message st
            = (st, pass_through)
            /\ ActionCheckAfterLLMHandler.execute cfg now message st
               = (st, pass_through)
            /\ ActionCheckPostSendPrefixHandler.execute cfg now message st
               = (st, pass_through))).
Proof.
  split.
  { intros cfg env. unfold ActionCheckPlannerPromptHandler.execute.
    destruct (ActionCheckPlannerPromptHandler.body cfg env message) as [res|e] eqn:E.
    - split; [exact (planner_returns _ _ _ _ E)|discriminate].
    - split; [apply pass_through_continues|reflexivity]. }
  split.
  { intros cfg now st. apply guarded_continues. apply post_llm_returns. }
  split.
  { intros cfg now st. apply guarded_continues. apply after_llm_returns. }
  split.
  { intros cfg now st. apply guarded_continues. apply post_send_returns. }
  split.
  { intros init create_task. unfold ImpressionUpdateHandler.execute.
    destruct init as [[]|e]; [destruct (create_task message) as [[]|e]|];
      repeat split. }
  split.
  { intros sv init resolved w.
    split; [apply handle_returns|apply async_update_returns]. }
  intros ->. split.
  - intros cfg env. unfold ActionCheckPlannerPromptHandler.execute,
      ActionCheckPlannerPromptHandler.body.
    destruct (enabled cfg); reflexivity.
  - intros cfg now st.
    unfold ActionCheckPostLLMHandler.execute, ActionCheckPostLLMHandler.body,
      ActionCheckAfterLLMHandler.execute, ActionCheckAfterLLMHandler.body,
      ActionCheckPostSendPrefixHandler.execute,
      ActionCheckPostSendPrefixHandler.body.
    destruct (enabled cfg), (show_roll_result cfg); repeat split.
Qed.

End NeverRaises.

Section NeverRaisesExamples.
Import Py.

Lemma entry_points_never_raise_witness :
  snd (ActionCheckPostSendPrefixHandler.body Sample.cfg_on 5
         (Some Sample.broken_message) Sample.empty_state) = Raised (u "boom")
  /\ snd (ActionCheckPostSendPrefixHandler.execute Sample.cfg_on 5
           (Some Sample.broken_message) Sample.empty_state) = pass_through
  /\ (@None MaiMessages.t = None ->
      ActionCheckAfterLLMHandler.execute Sample.cfg_on 5 None Sample.empty_state
      = (Sample.empty_state, pass_through)).
Proof.
  assert (Hraise : snd (ActionCheckPostSendPrefixHandler.body Sample.cfg_on 5
                          (Some Sample.broken_message) Sample.empty_state)
                   = Raised (u "boom")) by reflexivity.
  split; [exact Hraise|]. split.
  - destruct (@entry_points_never_raise Sample.builtins (Some Sample.broken_message))
      as (_ & _ & _ & HD & _).
    exact (proj2 (HD Sample.cfg_on 5%Q Sample.empty_state) _ Hraise).
  - intros Hnone.
    destruct (@entry_points_never_raise Sample.builtins None)
      as (_ & _ & _ & _ & _ & _ & Hn).
    destruct (Hn Hnone) as [_ Hrelay].
    exact (proj1 (proj2 (Hrelay Sample.cfg_on 5%Q Sample.empty_state))).
Defined.

End NeverRaisesExamples.

(** * Further properties of the relay *)

Section StripFacts.
Import Py.
Local Open Scope N_scope.

Lemma dropwhile_idem (p : N -> bool) (s : pystr) :
  dropwhile p (dropwhile p s) = dropwhile p s.
Proof.
  induction s as [|c s IH]; [reflexivity|]. cbn.
  destruct (p c) eqn:E; [exact IH|]. cbn. rewrite E. reflexivity.
Qed.

Lemma rstrip_idem (s : pystr) : rstrip (rstrip s) = rstrip s.
Proof. unfold rstrip. rewrite rev_involutive, dropwhile_idem. reflexivity. Qed.

Lemma lstrip_head (s : pystr) c r : lstrip s = c :: r -> isspace c = false.
Proof. apply dropwhile_head. Qed.

Lemma rstrip_cons_keep c (s : pystr) :
  isspace c = false -> rstrip (c :: s) = c :: rstrip s.
Proof. intros Hc. apply (rstrip_app_keep [c] s c); [reflexivity|exact Hc]. Qed.

Lemma lstrip_stripped (s : pystr) : lstrip (strip s) = strip s.
Proof.
  unfold strip. destruct (lstrip s) as [|c r] eqn:E; [reflexivity|].
  pose proof (lstrip_head _ _ _ E) as Hc.
  rewrite (rstrip_cons_keep _ _ Hc). unfold lstrip. cbn. rewrite Hc. reflexivity.
Qed.

Lemma strip_idem (s : pystr) : strip (strip s) = strip s.
Proof.
  unfold strip at 1. rewrite lstrip_stripped. unfold strip. apply rstrip_idem.
Qed.

End StripFacts.

Section ParserInvariant.
Context `{PyBuiltins}.
Import Py.

Lemma contains_cons n c h : contains n h = true -> contains n (c :: h) = true.
Proof. apply (contains_app_r n [c] h). Qed.

Lemma match_marker_prefix text g n :
  Re.match_marker text = Some (g, n) ->
  startswith _ACTION_CHECK_MARKER_PREFIX text = true.
Proof.
  unfold Re.match_marker.
  destruct (startswith _ACTION_CHECK_MARKER_PREFIX text); [reflexivity|discriminate].
Qed.

Lemma findall_needs_prefix text : forall k,
  Re.findall_from k text <> [] ->
  contains _ACTION_CHECK_MARKER_PREFIX text = true.
Proof.
  induction text as [|c rest IH]; intros k Hne; [destruct k; contradiction|].
  cbn [Re.findall_from] in Hne. destruct k as [|k].
  - destruct (Re.match_marker (c :: rest)) as [[g n]|] eqn:Hm.
    + apply contains_here. exact (match_marker_prefix _ _ _ Hm).
    + apply contains_cons. exact (IH _ Hne).
  - apply contains_cons. exact (IH _ Hne).
Qed.

(** X1. Whatever the text and the conversions of the interpreter, a
    decision the parser returns is well formed: the chance lies in
    [0,100], the result is exactly [success] or [fail], the interaction is
    not empty and has no white space at either end, the stream id is
    still empty and the creation time is the time of the call. A text
    that does not hold the marker prefix gives no decision. *)
Theorem parsed_decision_well_formed (text : pystr) (now : Q)
    (c : ActionCheckContext) :
  _parse_action_check_marker text now = Some c ->
  (0 <= chance c <= 100)%Z
  /\ (result c = u "success" \/ result c = u "fail")
  /\ interaction c <> []
  /\ strip (interaction c) = interaction c
  /\ stream_id c = []
  /\ created_at c = now
  /\ contains _ACTION_CHECK_MARKER_PREFIX text = true.
Proof.
  intros Hparse.
  assert (Hpre : contains _ACTION_CHECK_MARKER_PREFIX text = true).
  { unfold _parse_action_check_marker in Hparse.
    destruct (negb (truthy text)); [discriminate|].
    apply (findall_needs_prefix text 0). unfold Re.findall_marker in Hparse.
    destruct (Re.findall_from 0 text); [discriminate|discriminate]. }
  unfold _parse_action_check_marker in Hparse.
  destruct (negb (truthy text)); [discriminate|].
  destruct (last (Re.findall_marker text)) as [m|]; [|discriminate].
  destruct (Json.loads (strip m)) as [[| | | | | |payload]|]; try discriminate.
  destruct (py_int _) as [z|]; [|discriminate].
  destruct (normalize_result _) as [r|] eqn:Hr; [|discriminate].
  destruct (truthy (strip _)) eqn:Ht; cbn [negb] in Hparse; [|discriminate].
  injection Hparse as <-. cbn.
  split; [lia|]. split; [exact (normalize_result_values _ _ Hr)|].
  split; [intros E; rewrite E in Ht; discriminate|].
  split; [apply strip_idem|]. auto.
Qed.

End ParserInvariant.

Section ParserInvariantExamples.
Import Py.

Lemma parsed_decision_well_formed_witness :
  let text := Sample.marker "  hug " "-7" " OK " in
  @_parse_action_check_marker Sample.builtins text 3
  = Some {| stream_id := []; interaction := u "hug"; chance := 0;
            result := u "success"; created_at := 3 |}
  /\ contains _ACTION_CHECK_MARKER_PREFIX text = true.
Proof.
  intros text.
  assert (Hp : @_parse_action_check_marker Sample.builtins text 3
               = Some {| stream_id := []; interaction := u "hug"; chance := 0;
                         result := u "success"; created_at := 3 |})
    by (vm_compute; reflexivity).
  split; [exact Hp|].
  exact (proj2 (proj2 (proj2 (proj2 (proj2 (proj2
           (@parsed_decision_well_formed Sample.builtins text 3 _ Hp))))))).
Defined.

End ParserInvariantExamples.

Section MarkerLineRemoval.
Import Py Re.

Lemma sub_from_sublist text : forall k b, sublist (sub_from k b text) text.
Proof.
  induction text as [|c rest IH]; intros k b; [destruct k; constructor|].
  cbn [sub_from]. destruct k as [|k]; [|apply sublist_cons, IH].
  destruct (if b then match_marker_line (c :: rest) else None).
  - apply sublist_cons, IH.
  - apply sublist_skip, IH.
Qed.

(** X2. Removing the marker lines only deletes: what is kept is a
    subsequence of the text, in order. The result has no marker line left,
    so removing again changes nothing, and the text comes back whole
    exactly when it had no line beginning with the marker prefix. *)
Theorem marker_line_removal_only_deletes (text : pystr) :
  sublist (_strip_action_check_marker_lines text) text
  /\ (length (_strip_action_check_marker_lines text) <= length text)%nat
  /\ _strip_action_check_marker_lines (_strip_action_check_marker_lines text)
     = _strip_action_check_marker_lines text
  /\ (_strip_action_check_marker_lines text = text <-> no_marker_line text).
Proof.
  assert (Hsub : sublist (_strip_action_check_marker_lines text) text).
  { unfold _strip_action_check_marker_lines.
    destruct (negb (truthy text)); [reflexivity|apply sub_from_sublist]. }
  split; [exact Hsub|]. split; [apply sublist_length; exact Hsub|].
  split.
  - apply strip_identity_without_marker_line, strip_leaves_no_marker_line.
  - split.
    + intros E. rewrite <- E. apply strip_leaves_no_marker_line.
    + apply strip_identity_without_marker_line.
Qed.

End MarkerLineRemoval.

Section Eviction.
Import Py.

Lemma older_than_mono now later created ttl :
  (now <= later)%Q -> older_than now created ttl = true ->
  older_than later created ttl = true.
Proof.
  intros Hle Hold. apply older_than_true in Hold. apply older_than_true.
  eapply Qlt_le_trans; [exact Hold|].
  unfold Qminus. apply Qplus_le_compat; [exact Hle|apply Qle_refl].
Qed.

Lemma clean_context_subseteq sid now st :
  context_by_stream (_clean_expired_action_check_state sid now st)
  ⊆ context_by_stream st.
Proof.
  apply map_subseteq_spec. intros k c. rewrite clean_context.
  destruct (context_by_stream st !! k) as [c'|]; [|discriminate].
  destruct (_ && _); [discriminate|auto].
Qed.

Lemma clean_pending_subseteq sid now st :
  pending_tag_by_stream (_clean_expired_action_check_state sid now st)
  ⊆ pending_tag_by_stream st.
Proof.
  apply map_subseteq_spec. intros k p. rewrite clean_pending.
  destruct (pending_tag_by_stream st !! k) as [p'|]; [|discriminate].
  destruct (_ && _); [discriminate|auto].
Qed.

(** X3. The eviction only removes entries: both maps it returns are
    contained in the maps it was given. Running it twice at the same time
    is running it once, the evictions of two conversations commute, and an
    eviction at a later time subsumes one at an earlier time. *)
Theorem eviction_only_removes (sid : pystr) (now : Q) (st : RelayState) :
  let st1 := _clean_expired_action_check_state sid now st in
  context_by_stream st1 ⊆ context_by_stream st
  /\ pending_tag_by_stream st1 ⊆ pending_tag_by_stream st
  /\ _clean_expired_action_check_state sid now st1 = st1
  /\ (forall other,
        _clean_expired_action_check_state sid now
          (_clean_expired_action_check_state other now st)
        = _clean_expired_action_check_state other now st1)
  /\ (forall later, (now <= later)%Q ->
        _clean_expired_action_check_state sid later st1
        = _clean_expired_action_check_state sid later st).
Proof.
  intros st1. subst st1. split; [|split; [|split; [|split]]].
  - apply clean_context_subseteq.
  - apply clean_pending_subseteq.
  - apply clean_idempotent.
  - intros other. apply relay_state_eq; intros k.
    + rewrite !clean_context.
      destruct (context_by_stream st !! k) as [c|]; [|reflexivity].
      destruct (bool_decide (k = other) && _) eqn:E1,
               (bool_decide (k = sid) && _) eqn:E2;
        rewrite ?E1, ?E2; reflexivity.
    + rewrite !clean_pending.
      destruct (pending_tag_by_stream st !! k) as [p|]; [|reflexivity].
      destruct (bool_decide (k = other) && _) eqn:E1,
               (bool_decide (k = sid) && _) eqn:E2;
        rewrite ?E1, ?E2; reflexivity.
  - intros later Hle. apply relay_state_eq; intros k.
    + rewrite !clean_context.
      destruct (context_by_stream st !! k) as [c|]; [|reflexivity].
      destruct (bool_decide (k = sid)); cbn [andb]; [|reflexivity].
      destruct (older_than now _ _) eqn:E; [|reflexivity].
      rewrite (older_than_mono _ _ _ _ Hle E). reflexivity.
    + rewrite !clean_pending.
      destruct (pending_tag_by_stream st !! k) as [p|]; [|reflexivity].
      destruct (bool_decide (k = sid)); cbn [andb]; [|reflexivity].
      destruct (older_than now _ _) eqn:E; [|reflexivity].
      rewrite (older_than_mono _ _ _ _ Hle E). reflexivity.
Qed.

End Eviction.

Section AfterLLM.
Import Py ActionCheckAfterLLMHandler.

Lemma clean_context_inv sid now st k c :
  context_by_stream (_clean_expired_action_check_state sid now st) !! k = Some c ->
  context_by_stream st !! k = Some c
  /\ (k = sid -> (now - created_at c <= _ACTION_CHECK_CONTEXT_TTL_SECONDS)%Q).
Proof.
  rewrite clean_context. destruct (context_by_stream st !! k) as [c'|]; [|discriminate].
  destruct (bool_decide (k = sid) && older_than _ _ _) eqn:E; [discriminate|].
  intros [= ->]. split; [reflexivity|]. intros Hk.
  rewrite (bool_decide_eq_true_2 _ Hk) in E. cbn in E.
  apply older_than_false. exact E.
Qed.

Lemma clean_pending_inv sid now st k p :
  pending_tag_by_stream (_clean_expired_action_check_state sid now st) !! k = Some p ->
  pending_tag_by_stream st !! k = Some p
  /\ (k = sid -> (now - snd p <= _ACTION_CHECK_PENDING_TAG_TTL_SECONDS)%Q).
Proof.
  rewrite clean_pending. destruct (pending_tag_by_stream st !! k) as [p'|]; [|discriminate].
  destruct (bool_decide (k = sid) && older_than _ _ _) eqn:E; [discriminate|].
  intros [= ->]. split; [reflexivity|]. intros Hk.
  rewrite (bool_decide_eq_true_2 _ Hk) in E. cbn in E.
  apply older_than_false. exact E.
Qed.

(** X4. Point C never hands a message back and never adds a context. A
    pending tag that is in the state after the call was there before, or
    it is the tag of the conversation of the message, stamped with the
    time of the call and formatted from the chance and the result of a
    context of that conversation that is not expired; this needs both
    switches on. *)
Theorem after_llm_stages_tag_only (cfg : ActionCheckConfig) (now : Q)
    (message : option MaiMessages.t) (st : RelayState) :
  let st' := fst (execute cfg now message st) in
  modified_message (snd (execute cfg now message st)) = None
  /\ context_by_stream st' ⊆ context_by_stream st
  /\ (forall k tag ts,
        pending_tag_by_stream st' !! k = Some (tag, ts) ->
        pending_tag_by_stream st !! k = Some (tag, ts)
        \/ (ts = now /\ enabled cfg = true /\ show_roll_result cfg = true
            /\ exists msg c,
                message = Some msg
                /\ MaiMessages.stream_id msg = Has (Some k)
                /\ context_by_stream st !! k = Some c
                /\ (now - created_at c <= _ACTION_CHECK_CONTEXT_TTL_SECONDS)%Q
                /\ tag = _format_action_check_tag (chance c) (result c))).
Proof.
  intros st'. subst st'. unfold execute, body.
  destruct (enabled cfg) eqn:Hon; cbn [negb orb];
    [|split; [reflexivity|split; [reflexivity|auto]]].
  destruct (show_roll_result cfg) eqn:Hshow; cbn [negb];
    [|split; [reflexivity|split; [reflexivity|auto]]].
  destruct message as [msg|];
    [|split; [reflexivity|split; [reflexivity|auto]]].
  destruct (MaiMessages.stream_id msg) as [sid_raw|e] eqn:Hsid; cbn [read];
    [|split; [reflexivity|split; [reflexivity|auto]]].
  destruct (truthy_opt sid_raw) eqn:Ht; cbn [negb];
    [|split; [reflexivity|split; [reflexivity|auto]]].
  destruct sid_raw as [sid|]; [|discriminate]. cbn [default from_option id].
  cbv zeta.
  destruct (context_by_stream (_clean_expired_action_check_state sid now st) !! sid)
    as [c|] eqn:Hc; cbn [guarded fst snd].
  - split; [reflexivity|]. split.
    + unfold set_pending. cbn. apply clean_context_subseteq.
    + intros k tag ts. unfold set_pending. cbn.
      destruct (decide (sid = k)) as [<-|Hne].
      * rewrite lookup_insert_eq. intros [= <- <-]. right.
        destruct (clean_context_inv _ _ _ _ _ Hc) as [Hc0 Hage].
        split; [reflexivity|]. split; [reflexivity|]. split; [reflexivity|].
        exists msg, c. split; [reflexivity|]. split; [exact Hsid|].
        split; [exact Hc0|]. split; [exact (Hage eq_refl)|reflexivity].
      * rewrite lookup_insert_ne by exact Hne. intros Hp.
        left. exact (proj1 (clean_pending_inv _ _ _ _ _ Hp)).
  - split; [reflexivity|]. split; [apply clean_context_subseteq|].
    intros k tag ts Hp. left. exact (proj1 (clean_pending_inv _ _ _ _ _ Hp)).
Qed.

End AfterLLM.

Section PostSendInversion.
Import Py ActionCheckPostSendPrefixHandler.

Lemma text_bearing_dec seg :
  (exists text, text_bearing seg text) \/ (forall text, ~ text_bearing seg text).
Proof.
  destruct (is_text seg) eqn:Ht.
  - destruct (seg_data seg) as [text|] eqn:Hd.
    + left. exists text. split; [apply is_text_true; exact Ht|exact Hd].
    + right. intros text [_ Hd']. congruence.
  - right. intros text [Hty _]. apply is_text_true in Hty. congruence.
Qed.

(** The three outcomes of the loop, read backwards. *)
Lemma prefix_loop_inv tag segs :
  match prefix_loop tag segs with
  | NoTextSegment => no_text_segment segs
  | AlreadyTagged =>
    exists pre seg post text,
      segs = pre ++ seg :: post /\ no_text_segment pre /\ text_bearing seg text
      /\ startswith tag_marker (lstrip text) = true
  | Prefixed segs' =>
    exists pre seg post text,
      segs = pre ++ seg :: post /\ no_text_segment pre /\ text_bearing seg text
      /\ startswith tag_marker (lstrip text) = false
      /\ segs' = pre ++ text_segment (rstrip (tag ++ u " " ++ text)) :: post
  end.
Proof.
  induction segs as [|s segs IH]; [constructor|].
  destruct (text_bearing_dec s) as [[text Hs]|Hs].
  - assert (Hnil : no_text_segment []) by constructor.
    pose proof (prefix_loop_first tag [] s segs text Hnil Hs) as Hfirst.
    cbn [app] in Hfirst. rewrite Hfirst.
    destruct (startswith tag_marker (lstrip text)) eqn:E.
    + exists [], s, segs, text. repeat split; auto; apply Hs.
    + exists [], s, segs, text. repeat split; auto; apply Hs.
  - assert (Hstep : prefix_loop tag (s :: segs)
                    = match prefix_loop tag segs with
                      | Prefixed rest' => Prefixed (s :: rest')
                      | r => r
                      end).
    { cbn [prefix_loop]. destruct (not_text_bearing s Hs) as [-> | ->].
      - reflexivity.
      - destruct (is_text s); reflexivity. }
    rewrite Hstep. destruct (prefix_loop tag segs) as [|segs'|].
    + destruct IH as (pre & seg & post & text & -> & Hpre & Hseg & Ht).
      exists (s :: pre), seg, post, text. repeat split; auto; try apply Hseg.
      constructor; assumption.
    + destruct IH as (pre & seg & post & text & -> & Hpre & Hseg & Ht & ->).
      exists (s :: pre), seg, post, text. repeat split; auto; try apply Hseg.
      constructor; assumption.
    + constructor; assumption.
Qed.

Ltac passes :=
  cbn [guarded fst snd];
  split; [intros msg' Hm; discriminate Hm|];
  split; [reflexivity|];
  first [ split; reflexivity
        | split; [apply clean_context_subseteq|apply clean_pending_subseteq] ].

(** X5. Point D hands a message back only when it is due: both switches
    are on, the conversation of the message has a pending tag that is not
    expired, and the first segment of type [text] with a string payload
    does not start with the marker. The message handed back differs from
    the one given in that segment alone, which gets the tag, one space and
    its old text, with trailing white space removed; both entries of the
    conversation are then gone. In every
    other case the handler returns the pass-through tuple. Point D never
    adds an entry to either map. *)
Theorem post_send_changes_only_when_due (cfg : ActionCheckConfig) (now : Q)
    (message : option MaiMessages.t) (st : RelayState) :
  let st' := fst (execute cfg now message st) in
  let r := snd (execute cfg now message st) in
  (forall msg', modified_message r = Some msg' ->
     exists msg sid tag ts pre seg post text,
       message = Some msg
       /\ enabled cfg = true /\ show_roll_result cfg = true
       /\ MaiMessages.stream_id msg = Has (Some sid)
       /\ pending_tag_by_stream st !! sid = Some (tag, ts)
       /\ (now - ts <= _ACTION_CHECK_PENDING_TAG_TTL_SECONDS)%Q
       /\ MaiMessages.message_segments msg = Has (Some (pre ++ seg :: post))
       /\ no_text_segment pre /\ text_bearing seg text
       /\ startswith tag_marker (lstrip text) = false
       /\ msg' = MaiMessages.modify_message_segments msg
                   (pre ++ text_segment (rstrip (tag ++ u " " ++ text)) :: post)
       /\ cleared sid st')
  /\ (modified_message r = None -> r = pass_through)
  /\ context_by_stream st' ⊆ context_by_stream st
  /\ pending_tag_by_stream st' ⊆ pending_tag_by_stream st.
Proof.
  intros st' r. subst st' r. unfold execute, body.
  destruct (enabled cfg) eqn:Hon; cbn [negb orb]; [|passes].
  destruct (show_roll_result cfg) eqn:Hshow; cbn [negb]; [|passes].
  destruct message as [msg|]; [|passes].
  destruct (MaiMessages.stream_id msg) as [sid_raw|e] eqn:Hsid; cbn [read].
  2:{ cbn [guarded fst snd]. split; [discriminate|]. split; [reflexivity|].
      split; reflexivity. }
  destruct (truthy_opt sid_raw) eqn:Ht; cbn [negb]; [|passes].
  destruct sid_raw as [sid|]; [|discriminate]. cbn [default from_option id].
  cbv zeta.
  destruct (pending_tag_by_stream (_clean_expired_action_check_state sid now st)
              !! sid) as [[tag ts]|] eqn:Hp; [|passes].
  destruct (clean_pending_inv _ _ _ _ _ Hp) as [Hp0 Hage].
  specialize (Hage eq_refl). cbn [snd] in Hage.
  assert (Hpopped :
            context_by_stream
              (pop_context sid
                 (pop_pending sid (_clean_expired_action_check_state sid now st)))
            ⊆ context_by_stream st
            /\ pending_tag_by_stream
                 (pop_context sid
                    (pop_pending sid (_clean_expired_action_check_state sid now st)))
               ⊆ pending_tag_by_stream st).
  { unfold pop_context, pop_pending. cbn. split.
    - etrans; [apply delete_subseteq|apply clean_context_subseteq].
    - etrans; [apply delete_subseteq|apply clean_pending_subseteq]. }
  destruct (MaiMessages.message_segments msg) as [[[|s0 segs]|]|e] eqn:Hsegs;
    cbn [read]; try (passes).
  pose proof (prefix_loop_inv tag (s0 :: segs)) as Hinv.
  destruct (prefix_loop tag (s0 :: segs)) as [|segs'|]; cbn [guarded fst snd].
  - split; [discriminate|]. split; [reflexivity|]. exact Hpopped.
  - split; [|split; [discriminate|exact Hpopped]].
    intros msg' [= <-].
    destruct Hinv as (pre & seg & post & text & Hsplit & Hpre & Hseg & Hfresh & ->).
    exists msg, sid, tag, ts, pre, seg, post, text.
    rewrite <- Hsplit. repeat split; auto; try apply Hseg; apply popped_cleared.
  - split; [discriminate|]. split; [reflexivity|].
    split; [apply clean_context_subseteq|apply clean_pending_subseteq].
Qed.

End PostSendInversion.

Section RelayEndToEnd.
Context `{PyBuiltins}.
Import Py.

Lemma parsed_created_at text now c :
  _parse_action_check_marker text now = Some c -> created_at c = now.
Proof.
  unfold _parse_action_check_marker.
  destruct (negb (truthy text)); [discriminate|].
  destruct (last _) as [m|]; [|discriminate].
  destruct (Json.loads _) as [[| | | | | |payload]|]; try discriminate.
  destruct (py_int _); [|discriminate].
  destruct (normalize_result _); [|discriminate].
  destruct (negb _); [discriminate|]. intros [= <-]. reflexivity.
Qed.

(** X6. The relay end to end. A decision parsed at Point B, picked up
    by Point C within 120 seconds and met by Point D within 60 seconds of
    that, reaches the outgoing message: its first text segment, when it
    does not start with the marker yet, becomes the tag made of the
    chance and the result of the decision, one space and the old text,
    with trailing white space removed.
    After that neither map holds anything for the conversation, and the
    entries of all other conversations are as they were at the start. *)
Theorem decision_reaches_outgoing_message (cfg : ActionCheckConfig)
    (msgB msgC msgD : MaiMessages.t) (sid prompt : pystr) (t1 t2 t3 : Q)
    (st : RelayState) (parsed : ActionCheckContext)
    (pre post : list Seg) (seg : Seg) (text : pystr) :
  enabled cfg = true -> show_roll_result cfg = true -> truthy sid = true ->
  MaiMessages.llm_prompt msgB = Has (Some prompt) ->
  MaiMessages.stream_id msgB = Has (Some sid) ->
  MaiMessages.stream_id msgC = Has (Some sid) ->
  MaiMessages.stream_id msgD = Has (Some sid) ->
  _parse_action_check_marker prompt t1 = Some parsed ->
  (t2 - t1 <= _ACTION_CHECK_CONTEXT_TTL_SECONDS)%Q ->
  (t3 - t2 <= _ACTION_CHECK_PENDING_TAG_TTL_SECONDS)%Q ->
  MaiMessages.message_segments msgD = Has (Some (pre ++ seg :: post)) ->
  no_text_segment pre -> text_bearing seg text ->
  startswith tag_marker (lstrip text) = false ->
  let stB := fst (ActionCheckPostLLMHandler.execute cfg t1 (Some msgB) st) in
  let stC := fst (ActionCheckAfterLLMHandler.execute cfg t2 (Some msgC) stB) in
  let out := ActionCheckPostSendPrefixHandler.execute cfg t3 (Some msgD) stC in
  let tag := _format_action_check_tag (chance parsed) (result parsed) in
  snd out
  = (true, true, Some (u "动作检定标签已加到发送消息"), None,
     Some (MaiMessages.modify_message_segments msgD
             (pre ++ text_segment (tag ++ rstrip (u " " ++ text)) :: post)))
  /\ cleared sid (fst out)
  /\ same_elsewhere sid st (fst out).
Proof.
  intros Hon Hshow Hsid Hprompt HsB HsC HsD Hparse Hage2 Hage3 Hsegs Hpre Hseg
    Hfresh stB stC out tag.
  pose proof (post_llm_run cfg t1 msgB sid st prompt Hon Hprompt
                (parsed_text_truthy _ _ _ Hparse) HsB Hsid) as HB.
  rewrite Hparse in HB. cbv zeta in HB.
  set (d := ActionCheckPostLLMHandler.with_stream_id sid parsed) in *.
  assert (HctxB : context_by_stream stB !! sid = Some d).
  { subst stB. rewrite HB. unfold set_context. cbn. apply lookup_insert_eq. }
  assert (Hd : created_at d = t1) by exact (parsed_created_at _ _ _ Hparse).
  pose proof (after_llm_run cfg t2 msgC sid stB Hon Hshow HsC Hsid) as HC.
  cbv zeta in HC.
  rewrite (context_live sid t2 stB d HctxB) in HC by (rewrite Hd; exact Hage2).
  change (_format_action_check_tag (chance d) (result d)) with tag in HC.
  assert (HpendC : pending_tag_by_stream stC !! sid = Some (tag, t2)).
  { subst stC. rewrite HC. unfold set_pending. cbn. apply lookup_insert_eq. }
  pose proof (pending_live sid t3 stC tag t2 HpendC Hage3) as Hlive.
  pose proof (ActionCheckPostSendPrefixHandler.prefix_loop) as _.
  pose proof (post_send_first_text cfg msgD sid Hon Hshow HsD Hsid t3 stC tag t2
                pre seg post text Hlive Hsegs Hpre Hseg) as HD.
  rewrite Hfresh in HD.
  destruct (prefixed_text (chance parsed) (result parsed) text) as [Etag _].
  fold tag in Etag. rewrite Etag in HD.
  subst out. rewrite HD. cbn [fst snd].
  split; [reflexivity|]. split; [apply popped_cleared|].
  eapply same_elsewhere_trans; [apply (post_llm_elsewhere cfg t1 msgB sid st HsB)|].
  fold stB.
  eapply same_elsewhere_trans; [apply (after_llm_elsewhere cfg t2 msgC sid stB HsC)|].
  fold stC.
  eapply same_elsewhere_trans; [apply clean_same_elsewhere|].
  apply popped_same_elsewhere.
Qed.

End RelayEndToEnd.

Section RelayEndToEndExamples.
Import Py.

Lemma decision_reaches_outgoing_message_witness :
  let prompt := u "plan
" ++ Sample.marker "hug" "80" "fail" in
  let msgB := Sample.message_with prompt [] in
  let msgD := Sample.message_with (u "") [text_segment (u "hello")] in
  let stB := fst (@ActionCheckPostLLMHandler.execute Sample.builtins Sample.cfg_on
                    100 (Some msgB) Sample.empty_state) in
  let stC := fst (ActionCheckAfterLLMHandler.execute Sample.cfg_on 101
                    (Some msgB) stB) in
  @_parse_action_check_marker Sample.builtins prompt 100
  = Some {| stream_id := []; interaction := u "hug"; chance := 80;
            result := u "fail"; created_at := 100 |}
  /\ ActionCheckPostSendPrefixHandler.execute Sample.cfg_on 102 (Some msgD) stC
     = (Sample.empty_state,
        (true, true, Some (u "动作检定标签已加到发送消息"), None,
         Some (Sample.message_with (u "")
                 [text_segment (u "[动作检定： 80% 失败] hello")]))).
Proof.
  intros prompt msgB msgD stB stC.
  assert (Hparse : @_parse_action_check_marker Sample.builtins prompt 100
                   = Some {| stream_id := []; interaction := u "hug"; chance := 80;
                             result := u "fail"; created_at := 100 |})
    by (vm_compute; reflexivity).
  split; [exact Hparse|].
  destruct (@decision_reaches_outgoing_message Sample.builtins Sample.cfg_on
              msgB msgB msgD Sample.sid prompt 100 101 102 Sample.empty_state _
              [] [] (text_segment (u "hello")) (u "hello")
              eq_refl eq_refl ltac:(vm_compute; reflexivity) eq_refl eq_refl
              eq_refl eq_refl Hparse
              ltac:(apply Qle_bool_imp_le; vm_compute; reflexivity)
              ltac:(apply Qle_bool_imp_le; vm_compute; reflexivity)
              eq_refl ltac:(constructor) ltac:(split; reflexivity)
              ltac:(vm_compute; reflexivity))
    as (Hout & _).
  rewrite (surjective_pairing
             (ActionCheckPostSendPrefixHandler.execute Sample.cfg_on 102
                (Some msgD) stC)).
  fold stB in Hout. fold stC in Hout. rewrite Hout. vm_compute. reflexivity.
Defined.

End RelayEndToEndExamples.

Section StaleDecision.
Context `{PyBuiltins}.
Import Py.

(** X7. A non-empty prompt without a decision leaves nothing to show.
    When Point B is enabled and runs, for a message with a non-empty
    stream id, on a non-empty prompt from which no decision is parsed (no
    match of the marker pattern, or a last match that is malformed), the
    conversation has no context afterwards, whatever was stored for it
    before; Point C, at whatever time it runs next, then passes through,
    and the pending tags it leaves are among those that were there before
    Point B ran. On a prompt that is empty or [None], Point B returns at
    its guard before the removal and leaves the state as it is, so a
    context stored before is still there for Point C. *)
Theorem nonempty_prompt_without_decision_stages_no_tag
    (cfg : ActionCheckConfig) (msgB msgC : MaiMessages.t) (sid prompt : pystr)
    (t1 t2 : Q) (st : RelayState) :
  enabled cfg = true -> truthy sid = true -> truthy prompt = true ->
  MaiMessages.llm_prompt msgB = Has (Some prompt) ->
  MaiMessages.stream_id msgB = Has (Some sid) ->
  MaiMessages.stream_id msgC = Has (Some sid) ->
  _parse_action_check_marker prompt t1 = None ->
  let outB := ActionCheckPostLLMHandler.execute cfg t1 (Some msgB) st in
  let outC := ActionCheckAfterLLMHandler.execute cfg t2 (Some msgC) (fst outB) in
  snd outB = pass_through
  /\ context_by_stream (fst outB) !! sid = None
  /\ snd outC = pass_through
  /\ context_by_stream (fst outC) !! sid = None
  /\ pending_tag_by_stream (fst outC) ⊆ pending_tag_by_stream st
  /\ (forall silent : MaiMessages.t,
        MaiMessages.llm_prompt silent = Has None
        \/ MaiMessages.llm_prompt silent = Has (Some []) ->
        ActionCheckPostLLMHandler.execute cfg t1 (Some silent) st
        = (st, pass_through)).
Proof.
  intros Hon Hsid Hpt Hp HsB HsC Hparse outB outC.
  pose proof (post_llm_run cfg t1 msgB sid st prompt Hon Hp Hpt HsB Hsid) as HB.
  rewrite Hparse in HB. cbv zeta in HB.
  assert (HctxB : context_by_stream (fst outB) !! sid = None).
  { subst outB. rewrite HB. unfold pop_context. cbn. apply lookup_delete_eq. }
  assert (HpendB : pending_tag_by_stream (fst outB) ⊆ pending_tag_by_stream st).
  { subst outB. rewrite HB. unfold pop_context. cbn. apply clean_pending_subseteq. }
  assert (Hguard : forall silent : MaiMessages.t,
            MaiMessages.llm_prompt silent = Has None
            \/ MaiMessages.llm_prompt silent = Has (Some []) ->
            ActionCheckPostLLMHandler.execute cfg t1 (Some silent) st
            = (st, pass_through)).
  { intros silent Hsilent.
    unfold ActionCheckPostLLMHandler.execute, ActionCheckPostLLMHandler.body.
    rewrite Hon. destruct Hsilent as [-> | ->]; reflexivity. }
  split; [subst outB; rewrite HB; reflexivity|]. split; [exact HctxB|].
  destruct (show_roll_result cfg) eqn:Hshow.
  - pose proof (after_llm_run cfg t2 msgC sid (fst outB) Hon Hshow HsC Hsid) as HC.
    cbv zeta in HC.
    assert (Hnone : context_by_stream
                      (_clean_expired_action_check_state sid t2 (fst outB)) !! sid
                    = None)
      by exact (lookup_weaken_None _ _ _ HctxB (clean_context_subseteq sid t2 _)).
    rewrite Hnone in HC. subst outC. rewrite HC. cbn [fst snd].
    split; [reflexivity|]. split; [exact Hnone|].
    split; [|exact Hguard].
    etrans; [apply clean_pending_subseteq|exact HpendB].
  - assert (HC : outC = (fst outB, pass_through)).
    { subst outC. unfold ActionCheckAfterLLMHandler.execute,
        ActionCheckAfterLLMHandler.body.
      rewrite Hon, Hshow. reflexivity. }
    rewrite HC. cbn [fst snd]. auto.
Qed.

End StaleDecision.

Section StaleDecisionExamples.
Import Py.

Lemma nonempty_prompt_without_decision_stages_no_tag_witness :
  let msg := Sample.message_with (u "free text, no marker") [] in
  let silent := Sample.message_with [] [] in
  let st := Sample.context_state (Sample.hug_context 90) in
  let outB := @ActionCheckPostLLMHandler.execute Sample.builtins Sample.cfg_on
                100 (Some msg) st in
  let outC := ActionCheckAfterLLMHandler.execute Sample.cfg_on 101 (Some msg)
                (fst outB) in
  let keptB := @ActionCheckPostLLMHandler.execute Sample.builtins Sample.cfg_on
                 100 (Some silent) st in
  let stagedC := ActionCheckAfterLLMHandler.execute Sample.cfg_on 101
                   (Some silent) (fst keptB) in
  context_by_stream st !! Sample.sid = Some (Sample.hug_context 90)
  /\ snd outB = pass_through
  /\ context_by_stream (fst outB) !! Sample.sid = None
  /\ snd outC = pass_through
  /\ context_by_stream (fst outC) !! Sample.sid = None
  /\ pending_tag_by_stream (fst outC) ⊆ pending_tag_by_stream st
  /\ keptB = (st, pass_through)
  /\ pending_tag_by_stream (fst stagedC) !! Sample.sid
     = Some (_format_action_check_tag 80 (u "fail"), 101%Q).
Proof.
  intros msg silent st outB outC keptB stagedC.
  split; [vm_compute; reflexivity|].
  destruct (@nonempty_prompt_without_decision_stages_no_tag Sample.builtins
              Sample.cfg_on msg msg Sample.sid (u "free text, no marker")
              100 101 st eq_refl ltac:(vm_compute; reflexivity)
              ltac:(vm_compute; reflexivity) eq_refl eq_refl eq_refl
              ltac:(vm_compute; reflexivity))
    as (H1 & H2 & H3 & H4 & H5 & H6).
  split; [exact H1|]. split; [exact H2|]. split; [exact H3|].
  split; [exact H4|]. split; [exact H5|].
  split; [exact (H6 silent (or_intror eq_refl))|].
  vm_compute. reflexivity.
Defined.

End StaleDecisionExamples.

Section TurnFailures.
Import Py ImpressionUpdateHandler Turn.

Ltac unfold_calls :=
  unfold mbind, M_bind, mret, M_ret, try_except, lift,
    is_message_processed, get_filtered_messages, evaluate_message,
    build_impression, update_affection, update_message_state in *.

Ltac case_answer :=
  match goal with
  | |- context [match ?x with _ => _ end] =>
    lazymatch x with
    | answer_get_filtered_messages _ _ _ _ => destruct x as [[? ?]|?] eqn:?
    | answer_evaluate_message _ _ _ _ _ _ => destruct x as [[[? ?] ?]|?] eqn:?
    | answer_build_impression _ _ _ _ _ => destruct x as [[? ?]|?] eqn:?
    | answer_update_affection _ _ _ _ => destruct x as [[? ?]|?] eqn:?
    | answer_update_message_state _ _ _ _ _ _ => destruct x as [?|?] eqn:?
    end
  end; cbv beta iota zeta.

Lemma log_trace_app (w : World) evs c :
  log c {| ledger := ledger w; trace := trace w ++ evs |}
  = {| ledger := ledger w; trace := trace w ++ (evs ++ [c]) |}.
Proof. unfold log. cbn. rewrite <- app_assoc. reflexivity. Qed.

Lemma log_trace_one (w : World) c :
  log c w = {| ledger := ledger w; trace := trace w ++ [c] |}.
Proof. reflexivity. Qed.

Lemma world_trace_nil (w : World) :
  w = {| ledger := ledger w; trace := trace w ++ [] |}.
Proof. destruct w. cbn. rewrite app_nil_r. reflexivity. Qed.

(** [dispatch] once the evaluation is over: whatever the profile
    derivation does, the score derivation is asked once, and the message
    state is written last with the two outcomes. *)
Lemma dispatch_tail sv user_id message_content message_id ctx w :
  (is_blank ctx = true
   \/ exists r, answer_evaluate_message sv w user_id message_id message_content
                  ctx = Ok r) ->
  exists earlier iu,
    let wa := {| ledger := ledger w; trace := trace w ++ earlier |} in
    let au := match answer_update_affection sv wa user_id message_content with
              | Ok (ok, _) => ok
              | Raised _ => false
              end in
    let ws := log (EvUpdateAffection user_id message_content) wa in
    dispatch sv user_id message_content message_id ctx w
    = (log (EvUpdateState user_id message_id iu au) ws,
       match answer_update_message_state sv ws user_id message_id iu au with
       | Ok _ => Ok {| message := u "印象和好感度更新完成" |}
       | Raised e => Raised e
       end)
    /\ existsb is_score_derivation earlier = false
    /\ (iu = true ->
        exists latest, In (EvBuildImpression user_id message_content latest)
                         earlier).
Proof.
  intros Hev. unfold dispatch. unfold_calls.
  destruct (is_blank ctx) eqn:Hblank.
  - cbv beta iota zeta.
    rewrite (proj1 (not_true_iff_false (should_update _ _ _ _))); cycle 1.
    { rewrite should_update_true. rewrite Hblank. intros (? & _). discriminate. }
    cbv beta iota zeta. exists [], false. cbv zeta.
    rewrite <- (world_trace_nil w).
    split; [|split; [reflexivity|discriminate]].
    repeat case_answer; reflexivity.
  - destruct Hev as [?|[[[ok score] level] Heval]]; [discriminate|].
    rewrite Heval. cbv beta iota zeta.
    rewrite (log_trace_one w).
    destruct (should_update sv ctx ok score) eqn:Hgate.
    + rewrite log_trace_app. cbn [app].
      destruct (answer_get_filtered_messages sv _ user_id (max_messages sv))
        as [[latest ids2]|e2] eqn:Hf2; cbv beta iota zeta.
      * rewrite log_trace_app. cbn [app].
        destruct (answer_build_impression sv _ user_id message_content latest)
          as [[okb note]|eb] eqn:Hb; cbv beta iota zeta.
        -- exists [EvEvaluate user_id message_id message_content ctx;
                   EvGetFiltered user_id (max_messages sv);
                   EvBuildImpression user_id message_content latest], okb.
           cbv zeta. split; [|split; [reflexivity|]].
           ++ repeat case_answer; reflexivity.
           ++ intros _. exists latest. cbn. auto.
        -- exists [EvEvaluate user_id message_id message_content ctx;
                   EvGetFiltered user_id (max_messages sv);
                   EvBuildImpression user_id message_content latest], false.
           cbv zeta. split; [|split; [reflexivity|discriminate]].
           repeat case_answer; reflexivity.
      * exists [EvEvaluate user_id message_id message_content ctx;
                EvGetFiltered user_id (max_messages sv)], false.
        cbv zeta. split; [|split; [reflexivity|discriminate]].
        repeat case_answer; reflexivity.
    + exists [EvEvaluate user_id message_id message_content ctx], false.
      cbv zeta. split; [|split; [reflexivity|discriminate]].
      repeat case_answer; reflexivity.
Qed.

(** X8. An exception of the evaluation ends the turn after the marking.
    When the turn is not in the ledger, the window fetched is not blank
    and [evaluate_message] raises, [handle] returns the note of the
    exception; the calls of the turn are the check, the fetch, one record
    per id of the window and the evaluation, so neither derivation runs
    and the message state is not written, while every id of the window is
    in the ledger. *)
Theorem evaluation_error_ends_turn_after_marking (sv : Services)
    (user_id message_content message_id ctx e : pystr) (ids : list pystr)
    (w : World) :
  (user_id, message_id) ∉ ledger w ->
  answer_get_filtered_messages sv (after_check user_id message_id w) user_id
    (max_messages sv) = Ok (ctx, ids) ->
  is_blank ctx = false ->
  answer_evaluate_message sv (after_marking sv user_id message_id ids w)
    user_id message_id message_content ctx = Raised e ->
  let out := handle sv (Ok (Resolved user_id message_content message_id)) w in
  snd out = Ok {| message := u "异常: " ++ e |}
  /\ events_since w (fst out)
     = [EvIsProcessed user_id message_id;
        EvGetFiltered user_id (max_messages sv)]
       ++ List.map (EvRecordProcessed user_id) ids
       ++ [EvEvaluate user_id message_id message_content ctx]
  /\ (forall i, In i ids -> (user_id, i) ∈ ledger (fst out)).
Proof.
  intros Hin Hf Hblank Heval out.
  assert (Hd : dispatch sv user_id message_content message_id ctx
                 (after_marking sv user_id message_id ids w)
               = (log (EvEvaluate user_id message_id message_content ctx)
                    (after_marking sv user_id message_id ids w), Raised e)).
  { unfold dispatch. unfold_calls. rewrite Hblank, Heval. reflexivity. }
  assert (Hout : out = (log (EvEvaluate user_id message_id message_content ctx)
                          (after_marking sv user_id message_id ids w),
                        Ok {| message := u "异常: " ++ e |})).
  { subst out. rewrite handle_resolved, (process_fresh _ _ _ _ _ _ _ Hin Hf), Hd.
    reflexivity. }
  rewrite Hout. cbn [fst snd]. split; [reflexivity|]. split.
  - apply events_since_app. rewrite trace_log, after_marking_trace.
    rewrite <- !app_assoc. reflexivity.
  - intros i Hi. rewrite ledger_log. apply after_marking_ledger. eauto.
Qed.

Lemma evaluation_error_ends_turn_after_marking_witness :
  let out := handle Faulty.failing_evaluation
               (Ok (Resolved (u "U1") (u "hello") (u "m9"))) Sample.world0 in
  snd out = Ok {| message := u "异常: timeout" |}
  /\ events_since Sample.world0 (fst out)
     = [EvIsProcessed (u "U1") (u "m9"); EvGetFiltered (u "U1") 20;
        EvRecordProcessed (u "U1") (u "m1"); EvRecordProcessed (u "U1") (u "m2");
        EvEvaluate (u "U1") (u "m9") (u "hello") (u "hello there")]
  /\ (forall i, In i [u "m1"; u "m2"] -> (u "U1", i) ∈ ledger (fst out)).
Proof.
  exact (evaluation_error_ends_turn_after_marking Faulty.failing_evaluation
           (u "U1") (u "hello") (u "m9") (u "hello there") (u "timeout")
           [u "m1"; u "m2"] Sample.world0
           ltac:(vm_compute; set_solver) eq_refl ltac:(vm_compute; reflexivity)
           eq_refl).
Defined.

(** X9. An exception of a derivation does not end the turn. When the turn
    is not in the ledger, the window is fetched and the evaluation, if it
    runs, returns, the last two calls of the turn are the score derivation
    and the writing of the message state: the score derivation is asked
    once, its flag is false when it raises or reports a failure, the flag
    of the profile derivation is set only if that derivation was asked,
    and [handle] reports the turn as complete unless the writing of the
    state itself raises. *)
Theorem derivation_errors_do_not_end_turn (sv : Services)
    (user_id message_content message_id ctx : pystr) (ids : list pystr)
    (w : World) :
  (user_id, message_id) ∉ ledger w ->
  answer_get_filtered_messages sv (after_check user_id message_id w) user_id
    (max_messages sv) = Ok (ctx, ids) ->
  (is_blank ctx = true
   \/ exists r, answer_evaluate_message sv
                  (after_marking sv user_id message_id ids w)
                  user_id message_id message_content ctx = Ok r) ->
  let out := handle sv (Ok (Resolved user_id message_content message_id)) w in
  exists earlier iu,
    let wa := {| ledger := ledger (after_marking sv user_id message_id ids w);
                 trace := trace w ++ earlier |} in
    let au := match answer_update_affection sv wa user_id message_content with
              | Ok (ok, _) => ok
              | Raised _ => false
              end in
    let ws := log (EvUpdateAffection user_id message_content) wa in
    events_since w (fst out)
    = earlier ++ [EvUpdateAffection user_id message_content;
                  EvUpdateState user_id message_id iu au]
    /\ existsb is_score_derivation earlier = false
    /\ (iu = true ->
        exists latest, In (EvBuildImpression user_id message_content latest)
                         earlier)
    /\ snd out
       = Ok {| message :=
                 match answer_update_message_state sv ws user_id message_id
                         iu au with
                 | Ok _ => u "印象和好感度更新完成"
                 | Raised e => u "异常: " ++ e
                 end |}.
Proof.
  intros Hin Hf Hev out.
  destruct (dispatch_tail sv user_id message_content message_id ctx
              (after_marking sv user_id message_id ids w) Hev)
    as (later & iu & Hd & Hscore & Hiu).
  cbv zeta in Hd.
  set (pre := [EvIsProcessed user_id message_id;
               EvGetFiltered user_id (max_messages sv)]
              ++ List.map (EvRecordProcessed user_id) ids).
  assert (Htr : trace (after_marking sv user_id message_id ids w)
                = trace w ++ pre) by apply after_marking_trace.
  exists (pre ++ later), iu. cbv zeta.
  rewrite app_assoc, <- Htr.
  set (wa := {| ledger := ledger (after_marking sv user_id message_id ids w);
                trace := trace (after_marking sv user_id message_id ids w)
                         ++ later |}) in *.
  subst out. rewrite handle_resolved, (process_fresh _ _ _ _ _ _ _ Hin Hf), Hd.
  split; [|split; [|split]].
  - destruct (answer_update_message_state sv _ user_id message_id iu _);
      cbn [fst]; apply events_since_app; rewrite !trace_log; subst wa; cbn;
      rewrite Htr, <- !app_assoc; reflexivity.
  - subst pre. rewrite existsb_app. cbn.
    rewrite (proj2 (no_derivation_in_records user_id ids)). exact Hscore.
  - intros Ht. destruct (Hiu Ht) as (latest & Hl). exists latest.
    apply in_or_app. auto.
  - destruct (answer_update_message_state sv _ user_id message_id iu _);
      reflexivity.
Qed.

Lemma derivation_errors_do_not_end_turn_witness :
  let out := handle Faulty.failing_derivations
               (Ok (Resolved (u "U1") (u "hello") (u "m9"))) Sample.world0 in
  events_since Sample.world0 (fst out)
  = [EvIsProcessed (u "U1") (u "m9"); EvGetFiltered (u "U1") 20;
     EvRecordProcessed (u "U1") (u "m1"); EvRecordProcessed (u "U1") (u "m2");
     EvEvaluate (u "U1") (u "m9") (u "hello") (u "hello there");
     EvGetFiltered (u "U1") 20;
     EvBuildImpression (u "U1") (u "hello") (u "hello there");
     EvUpdateAffection (u "U1") (u "hello");
     EvUpdateState (u "U1") (u "m9") false false]
  /\ snd out = Ok {| message := u "印象和好感度更新完成" |}.
Proof.
  intros out.
  destruct (derivation_errors_do_not_end_turn Faulty.failing_derivations
              (u "U1") (u "hello") (u "m9") (u "hello there")
              [u "m1"; u "m2"] Sample.world0
              ltac:(vm_compute; set_solver) eq_refl
              ltac:(right; eexists; reflexivity))
    as (earlier & iu & _ & _ & _ & Hnote).
  split; [vm_compute; reflexivity|exact Hnote].
Defined.

End TurnFailures.

(** * The administrator commands *)

Section AdminCheck.
Import Py Commands.

Lemma str_in_spec s l : str_in s l = true <-> In (SStr s) l.
Proof.
  unfold str_in. rewrite existsb_exists. split.
  - intros ([| | |t] & Hin & Heq); try discriminate.
    unfold eqb in Heq. apply bool_decide_eq_true_1 in Heq. subst t. exact Hin.
  - intros Hin. exists (SStr s). split; [exact Hin|].
    unfold eqb. apply bool_decide_eq_true_2. reflexivity.
Qed.

Lemma truthy_spec (s : pystr) : truthy s = true <-> s <> [].
Proof. destruct s; cbn; split; congruence. Qed.

Lemma is_admin_platform_user_id_spec p uid l :
  _is_admin_platform_user_id p uid l = true
  <-> p <> [] /\ uid <> []
      /\ (In (SStr (p ++ u ":" ++ uid)) l \/ In (SStr uid) l).
Proof.
  unfold _is_admin_platform_user_id. rewrite <- !truthy_spec.
  destruct (truthy p), (truthy uid); cbn [negb orb];
    try (split; [discriminate|intros (? & ? & _); discriminate]).
  cbv zeta. rewrite orb_true_iff, !str_in_spec. tauto.
Qed.

(** X10. Who is an administrator. The sender is one exactly when the
    entry [permissions.admin] is read without an exception and is a
    non-empty list, the sender is read without an exception, its platform
    and its user id are both non-empty once converted to text, and the
    list holds, as a string, the user id or [platform:user_id]. So an
    entry that is not a string grants nothing, and a list with more
    entries never grants less. *)
Theorem admin_is_a_listed_sender :
  (forall c : Command,
     _is_admin c = true
     <-> exists l info,
           admin_config c = Ok (CList l) /\ message_info c = Has info
           /\ _is_admin_platform_user_id (str_or_empty (platform info))
                (str_or_empty (user_id info)) l = true)
  /\ (forall p uid l,
        _is_admin_platform_user_id p uid l = true
        <-> p <> [] /\ uid <> []
            /\ (In (SStr (p ++ u ":" ++ uid)) l \/ In (SStr uid) l))
  /\ (forall p uid l,
        (forall s, ~ In (SStr s) l) -> _is_admin_platform_user_id p uid l = false)
  /\ (forall p uid l l',
        _is_admin_platform_user_id p uid l = true ->
        _is_admin_platform_user_id p uid (l ++ l') = true
        /\ _is_admin_platform_user_id p uid (l' ++ l) = true).
Proof.
  split; [|split; [|split]].
  - intros c. unfold _is_admin. split.
    + destruct (admin_config c) as [v|e]; [|discriminate].
      destruct v as [x|l|d].
      * cbn [config_truthy]. destruct (scalar_truthy x); [discriminate|].
        destruct (message_info c) as [info|e]; [|discriminate].
        cbn [read]. intros Hadm. apply is_admin_platform_user_id_spec in Hadm.
        destruct Hadm as (_ & _ & [[]|[]]).
      * destruct (message_info c) as [info|e] eqn:Hinfo.
        2:{ destruct l; discriminate. }
        intros Hadm. exists l, info. split; [reflexivity|].
        split; [reflexivity|]. destruct l as [|x l]; exact Hadm.
      * cbn [config_truthy]. destruct (bool_decide (d = ∅)); cbn [negb];
          [|discriminate].
        destruct (message_info c) as [info|e]; [|discriminate].
        cbn [read]. intros Hadm. apply is_admin_platform_user_id_spec in Hadm.
        destruct Hadm as (_ & _ & [[]|[]]).
    + intros (l & info & -> & -> & Hadm). cbn [read].
      destruct l as [|x l]; exact Hadm.
  - exact is_admin_platform_user_id_spec.
  - intros p uid l Hnone.
    destruct (_is_admin_platform_user_id p uid l) eqn:E; [|reflexivity].
    apply is_admin_platform_user_id_spec in E as (_ & _ & [Hin|Hin]);
      destruct (Hnone _ Hin).
  - intros p uid l l' Hadm.
    apply is_admin_platform_user_id_spec in Hadm as (Hp & Hu & Hin).
    split; apply is_admin_platform_user_id_spec; (split; [exact Hp|]);
      (split; [exact Hu|]); rewrite !in_app_iff; tauto.
Qed.

End AdminCheck.

Section ToggleCommands.
Context `{PyBuiltins}.
Variable send_text : pystr -> exc unit.
Import Py Commands.

Ltac toggle_cases c w key :=
  unfold toggle, send;
  destruct (_silent_block_if_not_admin c) as [blocked|];
  [|cbv zeta;
    destruct (eqb (lower (default [] (matched_state c))) (u "on"));
    [|destruct (eqb (lower (default [] (matched_state c))) (u "off"))];
    [destruct (setitem (default (CDict ∅) (plugin_config w !! u "action_check"))
                 key true) as [?section|?e] eqn:?Hset
    |destruct (setitem (default (CDict ∅) (plugin_config w !! u "action_check"))
                 key false) as [?section|?e] eqn:?Hset
    |destruct (get_flag (default (CDict ∅) (plugin_config w !! u "action_check"))
                 key) as [?flag|?e] eqn:?Hget];
    try match goal with
        | |- context [send_text ?t] => destruct (send_text t) as [[]|?e]
        end].

Lemma setitem_inv section key value section' :
  setitem section key value = Ok section' ->
  exists d, section = CDict d /\ section' = CDict (<[key := SBool value]> d).
Proof.
  destruct section as [x|l|d]; cbn; try discriminate.
  intros [= <-]. eauto.
Qed.

(** What a toggle command leaves alone, for any key. *)
Lemma toggle_frame key label c w :
  let w' := fst (toggle send_text key label c w) in
  (forall name, name <> u "action_check" ->
                plugin_config w' !! name = plugin_config w !! name)
  /\ (forall other, other <> key -> flag_of w' other = flag_of w other)
  /\ (outbox w' = outbox w \/ exists text, outbox w' = outbox w ++ [text]).
Proof.
  cbv zeta. split; [|split].
  - intros name Hname. toggle_cases c w key; cbn [fst plugin_config];
      rewrite ?lookup_insert_ne by congruence; reflexivity.
  - intros other Hother. unfold flag_of.
    toggle_cases c w key; cbn [fst plugin_config];
      rewrite ?lookup_insert_eq; try reflexivity;
      try (apply setitem_inv in Hset as (d & Hd & ->);
           rewrite lookup_insert_ne by congruence);
      destruct (plugin_config w !! u "action_check") as [v|]; cbn in *;
      subst; try reflexivity; try discriminate;
      rewrite ?lookup_empty; try reflexivity.
    all: try (destruct v; reflexivity).
    all: match goal with
         | Hd : CDict _ = CDict _ |- _ => injection Hd as <-
         end; apply lookup_empty.
  - toggle_cases c w key; cbn [fst outbox]; eauto.
Qed.

(** X11. A toggle command touches one switch only. Whoever sends it,
    whatever the state word is and whether or not the reply can be sent,
    [/impression roll] leaves every section of the configuration other
    than [action_check] as it was and every switch of [action_check] other
    than [enabled] as it was, and sends at most one text;
    [/impression rollshow] does the same for [show_roll_result]. *)
Theorem toggle_touches_one_switch (c : Command) (w : CommandWorld) :
  let roll := fst (ToggleActionCheckCommand.execute send_text c w) in
  let show := fst (ToggleActionCheckShowResultCommand.execute send_text c w) in
  (forall name, name <> u "action_check" ->
     plugin_config roll !! name = plugin_config w !! name
     /\ plugin_config show !! name = plugin_config w !! name)
  /\ (forall other, other <> u "enabled" -> flag_of roll other = flag_of w other)
  /\ (forall other, other <> u "show_roll_result" ->
        flag_of show other = flag_of w other)
  /\ (outbox roll = outbox w \/ exists text, outbox roll = outbox w ++ [text])
  /\ (outbox show = outbox w \/ exists text, outbox show = outbox w ++ [text]).
Proof.
  cbv zeta.
  destruct (toggle_frame (u "enabled") (u "动作检定") c w) as (R1 & R2 & R3).
  destruct (toggle_frame (u "show_roll_result") (u "动作检定结果展示") c w)
    as (S1 & S2 & S3).
  unfold ToggleActionCheckCommand.execute,
    ToggleActionCheckShowResultCommand.execute.
  split; [|split; [|split; [|split]]]; auto.
Qed.

Lemma toggle_store key label c w (b : bool) :
  _is_admin c = true ->
  (forall v, plugin_config w !! u "action_check" = Some v -> exists d, v = CDict d) ->
  lower (default [] (matched_state c)) = (if b then u "on" else u "off") ->
  flag_of (fst (toggle send_text key label c w)) key = Some (SBool b).
Proof.
  intros Hadm Htable Hstate. unfold toggle, _silent_block_if_not_admin, send.
  rewrite Hadm. cbn [negb]. cbv zeta. rewrite Hstate.
  assert (Hsec : exists d, default (CDict ∅) (plugin_config w !! u "action_check")
                           = CDict d).
  { destruct (plugin_config w !! u "action_check") as [v|] eqn:E; cbn.
    - exact (Htable v eq_refl).
    - eauto. }
  destruct Hsec as (d & ->). unfold flag_of.
  destruct b; cbn [setitem].
  - replace (eqb (u "on") (u "on")) with true by (vm_compute; reflexivity).
    destruct (send_text _) as [[]|e]; cbn [fst plugin_config];
      rewrite lookup_insert_eq; apply lookup_insert_eq.
  - replace (eqb (u "off") (u "on")) with false by (vm_compute; reflexivity).
    replace (eqb (u "off") (u "off")) with true by (vm_compute; reflexivity).
    destruct (send_text _) as [[]|e]; cbn [fst plugin_config];
      rewrite lookup_insert_eq; apply lookup_insert_eq.
Qed.

Lemma toggle_status key label c w (b : bool) :
  _is_admin c = true ->
  flag_of w key = Some (SBool b) ->
  lower (default [] (matched_state c)) = u "status" ->
  send_text (label ++ u "：" ++ (if b then u "开启" else u "关闭")) = Ok tt ->
  toggle send_text key label c w
  = ({| plugin_config := plugin_config w;
        outbox := outbox w
                  ++ [label ++ u "：" ++ (if b then u "开启" else u "关闭")] |},
     Ok (true, None, 2%Z)).
Proof.
  intros Hadm Hflag Hstate Hsend. unfold toggle, _silent_block_if_not_admin, send.
  rewrite Hadm. cbn [negb]. cbv zeta. rewrite Hstate.
  replace (eqb (u "status") (u "on")) with false by (vm_compute; reflexivity).
  replace (eqb (u "status") (u "off")) with false by (vm_compute; reflexivity).
  unfold flag_of in Hflag.
  destruct (plugin_config w !! u "action_check") as [[x|l|d]|] eqn:E;
    try discriminate.
  cbn [default from_option id get_flag]. rewrite Hflag.
  cbn [default from_option id scalar_truthy]. rewrite Hsend.
  cbn [plugin_config outbox]. rewrite insert_id by exact E. reflexivity.
Qed.

(** X12. What a toggle command of an administrator does. With the state
    word [on] or [off], and [action_check] a table or missing, the switch
    of the command holds the new value afterwards, also when the reply
    cannot be sent; a status query that follows answers with that value
    and changes nothing in the configuration. A sender who is not an
    administrator gets no reply and changes nothing. *)
Theorem admin_toggle_sets_switch (c : Command) (w : CommandWorld) (b : bool) :
  _is_admin c = true ->
  (forall v, plugin_config w !! u "action_check" = Some v -> exists d, v = CDict d) ->
  lower (default [] (matched_state c)) = (if b then u "on" else u "off") ->
  let roll := fst (ToggleActionCheckCommand.execute send_text c w) in
  let show := fst (ToggleActionCheckShowResultCommand.execute send_text c w) in
  let word := if b then u "开启" else u "关闭" in
  flag_of roll (u "enabled") = Some (SBool b)
  /\ flag_of show (u "show_roll_result") = Some (SBool b)
  /\ (forall query,
        _is_admin query = true ->
        lower (default [] (matched_state query)) = u "status" ->
        (send_text (u "动作检定：" ++ word) = Ok tt ->
         ToggleActionCheckCommand.execute send_text query roll
         = ({| plugin_config := plugin_config roll;
               outbox := outbox roll ++ [u "动作检定：" ++ word] |},
            Ok (true, None, 2%Z)))
        /\ (send_text (u "动作检定结果展示：" ++ word) = Ok tt ->
            ToggleActionCheckShowResultCommand.execute send_text query show
            = ({| plugin_config := plugin_config show;
                  outbox := outbox show ++ [u "动作检定结果展示：" ++ word] |},
               Ok (true, None, 2%Z))))
  /\ (forall other,
        _is_admin other = false ->
        ToggleActionCheckCommand.execute send_text other w
        = (w, Ok (true, None, 2%Z))
        /\ ToggleActionCheckShowResultCommand.execute send_text other w
           = (w, Ok (true, None, 2%Z))).
Proof.
  intros Hadm Htable Hstate roll show word.
  pose proof (toggle_store (u "enabled") (u "动作检定") c w b Hadm Htable Hstate)
    as Hroll.
  pose proof (toggle_store (u "show_roll_result") (u "动作检定结果展示") c w b
                Hadm Htable Hstate) as Hshow.
  split; [exact Hroll|]. split; [exact Hshow|]. split.
  - intros query Hq Hword. split; intros Hsend.
    + exact (toggle_status (u "enabled") (u "动作检定") query roll b Hq Hroll
               Hword Hsend).
    + exact (toggle_status (u "show_roll_result") (u "动作检定结果展示") query
               show b Hq Hshow Hword Hsend).
  - intros other Hother.
    unfold ToggleActionCheckCommand.execute,
      ToggleActionCheckShowResultCommand.execute, toggle,
      _silent_block_if_not_admin.
    rewrite Hother. split; reflexivity.
Qed.

End ToggleCommands.

Section ToggleExamples.
Import Py Commands.

Lemma admin_toggle_sets_switch_witness :
  let admin :=
    {| admin_config := Ok (CList [SStr (u "qq:42")]);
       message_info := Has {| platform := Some (SStr (u "qq"));
                              user_id := Some (SInt 42) |};
       matched_state := Some (u "on") |} in
  let offline := fun _ : pystr => Raised (u "offline") in
  let w := {| plugin_config := ∅; outbox := [] |} in
  let out := @ToggleActionCheckCommand.execute Sample.builtins offline admin w in
  snd out = Raised (u "offline")
  /\ flag_of (fst out) (u "enabled") = Some (SBool true).
Proof.
  intros admin offline w out. split; [vm_compute; reflexivity|].
  exact (proj1 (@admin_toggle_sets_switch Sample.builtins offline admin w true
                  ltac:(vm_compute; reflexivity)
                  ltac:(intros v Hv; exfalso; revert Hv; apply lookup_empty_Some)
                  ltac:(vm_compute; reflexivity))).
Defined.

End ToggleExamples.

(** * The services of the update handler *)

Section ServiceInitFacts.
Import ServiceInit.
Context {Obj : Type}.
Variable new : Constructors Obj.

Ltac run_init h :=
  unfold _ensure_services_initialized, _init_services, mbind, Init_bind, unless;
  destruct h as [c a w t m flag]; cbn;
  destruct flag; cbn;
  repeat match goal with
         | |- context [match ?x with _ => _ end] =>
           lazymatch x with
           | LLMClient _ => destruct x eqn:?
           | AffectionService _ _ => destruct x eqn:?
           | WeightService _ _ => destruct x eqn:?
           | TextImpressionService _ _ => destruct x eqn:?
           | MessageService _ => destruct x eqn:?
           | _ => is_var x; destruct x
           end; cbn
         end.

(** X13. The services are built once. [_ensure_services_initialized]
    never replaces a service the handler already holds; the services it
    builds get the client the handler ends up with; it marks the handler
    as initialised exactly when it returns, and then the handler holds its
    five services if it was not marked before; once it has returned,
    running it again changes nothing. When a constructor raises, the
    handler stays unmarked. *)
Theorem services_are_built_once (h : Handler Obj) :
  let out := _ensure_services_initialized new h in
  let h' := fst out in
  ((forall o, llm_client h = Some o -> llm_client h' = Some o)
   /\ (forall o, affection_service h = Some o -> affection_service h' = Some o)
   /\ (forall o, weight_service h = Some o -> weight_service h' = Some o)
   /\ (forall o, text_impression_service h = Some o ->
                 text_impression_service h' = Some o)
   /\ (forall o, message_service h = Some o -> message_service h' = Some o))
  /\ ((forall o, affection_service h = None -> affection_service h' = Some o ->
                 AffectionService new (llm_client h') = Ok o)
      /\ (forall o, weight_service h = None -> weight_service h' = Some o ->
                    WeightService new (llm_client h') = Ok o)
      /\ (forall o, text_impression_service h = None ->
                    text_impression_service h' = Some o ->
                    TextImpressionService new (llm_client h') = Ok o))
  /\ (snd out = Ok tt <-> _services_initialized h' = true)
  /\ (_services_initialized h = false -> snd out = Ok tt -> all_services_set h')
  /\ (snd out = Ok tt -> _ensure_services_initialized new h' = (h', Ok tt))
  /\ (forall e, snd out = Raised e ->
        _services_initialized h = false /\ _services_initialized h' = false).
Proof.
  cbv zeta. unfold all_services_set.
  split; [|split; [|split; [|split; [|split]]]].
  - run_init h; repeat split; intros; congruence.
  - run_init h; repeat split; intros; congruence.
  - run_init h; split; intros; congruence.
  - run_init h; intros; try congruence; repeat split; eauto.
  - run_init h; intros; try congruence; reflexivity.
  - run_init h; intros; try congruence; split; reflexivity.
Qed.

End ServiceInitFacts.

(** * The resolution of the turn *)

Section ResolutionFacts.
Import Py Event.
Variable host : Host.
Variable now : Q.

Lemma exc_bind_ok {A B : Type} (m : exc A) (f : A -> exc B) (b : B) :
  exc_bind A B f m = Ok b -> exists a, m = Ok a /\ f a = Ok b.
Proof. destruct m as [a|e]; [eauto|discriminate]. Qed.

Lemma identify_known event_data user_id message :
  identify host event_data = Ok (Known user_id message) -> user_id <> [].
Proof.
  unfold identify. destruct (from_stream host event_data) as [uid0 m0].
  intros Hid. apply exc_bind_ok in Hid as ([[uid1 m1]|note] & _ & Hid);
    [|discriminate].
  destruct (truthy uid1) eqn:Ht; cbn [negb] in Hid; [|discriminate].
  injection Hid as <- _. intros ->. discriminate.
Qed.

Lemma temp_id_nonempty user_id stamp : temp_id user_id stamp <> [].
Proof.
  unfold temp_id.
  replace (u "temp_") with [116; 101; 109; 112; 95]%N by (vm_compute; reflexivity).
  discriminate.
Qed.

Lemma message_id_of_inv user_id stamp message_id :
  message_id_of host user_id stamp = Ok message_id ->
  message_id <> []
  /\ (message_id = temp_id user_id stamp
      \/ get_main_message_id host user_id stamp = Ok (Some message_id)).
Proof.
  unfold message_id_of. intros Hid.
  apply exc_bind_ok in Hid as (found & Hfound & Hid).
  destruct found as [m|].
  - destruct (truthy m) eqn:Ht; injection Hid as <-.
    + split; [intros ->; discriminate|]. right. exact Hfound.
    + split; [apply temp_id_nonempty|]. left. reflexivity.
  - injection Hid as <-. split; [apply temp_id_nonempty|]. left. reflexivity.
Qed.

(** X14. A turn that is resolved is well formed. When lines 440 to 567
    hand a turn to the ledger check, its user id is not empty, its text is
    not empty and has no white space at either end, and its message id is
    not empty: it is the id the database of the host gave for the user and
    the time stamp, or the temporary id made of them. *)
Theorem resolved_turn_is_well_formed (event_data : EventData)
    (user_id message_content message_id : pystr) :
  resolve host now event_data
  = Ok (ImpressionUpdateHandler.Resolved user_id message_content message_id) ->
  user_id <> [] /\ message_content <> []
  /\ strip message_content = message_content
  /\ message_id <> []
  /\ exists message stamp,
       identify host event_data = Ok (Known user_id message)
       /\ message_content = _extract_message_content message
       /\ message_timestamp host now message = Ok stamp
       /\ (message_id = temp_id user_id stamp
           \/ get_main_message_id host user_id stamp = Ok (Some message_id)).
Proof.
  unfold resolve. intros Hres.
  apply exc_bind_ok in Hres as ([note|uid message] & Hwho & Hres);
    [discriminate|].
  destruct (truthy (_extract_message_content message)) eqn:Hcontent;
    cbn [negb] in Hres; [|discriminate].
  apply exc_bind_ok in Hres as (stamp & Hstamp & Hres).
  apply exc_bind_ok in Hres as (mid & Hmid & Hres).
  injection Hres as <- <- <-.
  destruct (message_id_of_inv _ _ _ Hmid) as [Hne Hfrom].
  split; [exact (identify_known _ _ _ Hwho)|].
  split; [intros E; rewrite E in Hcontent; discriminate|].
  split; [apply strip_idem|]. split; [exact Hne|].
  exists message, stamp. auto.
Qed.

Lemma fallback_message_unused event_data m1 m2 :
  match fallback host event_data m1, fallback host event_data m2 with
  | Ok (inl (uid1, r1)), Ok (inl (uid2, r2)) =>
    uid1 = uid2 /\ (uid1 <> [] -> r1 = r2)
  | Ok (inr n1), Ok (inr n2) => n1 = n2
  | Raised e1, Raised e2 => e1 = e2
  | _, _ => False
  end.
Proof.
  unfold fallback, mbind, mret, exc_bind, exc_ret.
  destruct (reply_user_id event_data) as [raw|].
  { cbn. destruct (normalize_user_id host raw); cbn; auto. }
  destruct (message_base_info (self event_data)) as [[d|]|].
  { cbn. destruct (normalize_user_id host _); cbn; auto. }
  { reflexivity. }
  destruct (user_id (self event_data)) as [raw|].
  { cbn. destruct (normalize_user_id host raw); cbn; auto. }
  destruct (plain_text (self event_data)) as [t|].
  { cbn. destruct (normalize_user_id host _); cbn; auto. }
  destruct (has_dict event_data); cbv beta iota.
  - destruct (first_with_user_id [attr_message event_data; attr_msg event_data;
                                  attr_data event_data])
      as [[raw potential_msg]|]; cbv beta iota.
    + destruct (normalize_user_id host raw) as [uid|e]; cbn; [|reflexivity].
      destruct (truthy uid) eqn:Ht; cbn; [|reflexivity].
      split; [reflexivity|auto].
    + reflexivity.
  - reflexivity.
Qed.

Lemma identify_without_stream event_data :
  fst (from_stream host event_data) = [] ->
  identify host event_data = identify host (without_stream_id event_data).
Proof.
  unfold identify. destruct (from_stream host event_data) as [uid0 m0].
  cbn [fst]. intros ->. cbn.
  pose proof (fallback_message_unused event_data m0 None) as Hsame.
  change (fallback host (without_stream_id event_data) None)
    with (fallback host event_data None).
  destruct (fallback host event_data m0) as [[[uid1 r1]|n1]|e1],
           (fallback host event_data None) as [[[uid2 r2]|n2]|e2];
    try contradiction; cbn.
  - destruct Hsame as [<- Hr]. destruct uid1 as [|c uid1]; [reflexivity|].
    cbn. rewrite Hr by discriminate. reflexivity.
  - subst. reflexivity.
  - subst. reflexivity.
Qed.

(** X15. A failed look-up in the stream is not fatal. When the event has
    a stream id and the look-up of the target user raises, finds no last
    message, or ends in a user id that cannot be normalised or is empty,
    the turn is resolved as for the same event without stream id: the
    exception is dropped and the other sources of the user id are
    tried. *)
Theorem stream_lookup_failure_falls_back (event_data : EventData) (sid : pystr) :
  stream_id event_data = Some sid ->
  ((exists e, stream_target host sid = Raised e)
   \/ stream_target host sid = Ok None
   \/ (exists raw, stream_target host sid = Ok (Some raw)
                   /\ ((exists e, normalize_user_id host raw = Raised e)
                       \/ normalize_user_id host raw = Ok []))) ->
  resolve host now event_data = resolve host now (without_stream_id event_data).
Proof.
  intros Hsid Hfail.
  assert (Hnone : fst (from_stream host event_data) = []).
  { unfold from_stream. rewrite Hsid.
    destruct (truthy sid); [|reflexivity].
    destruct Hfail as [[e ->]|[->|(raw & -> & [[e ->]| ->])]]; reflexivity. }
  unfold resolve. rewrite (identify_without_stream _ Hnone). reflexivity.
Qed.

End ResolutionFacts.

Section ResolutionExamples.
Import Py Event.

Lemma resolved_turn_is_well_formed_witness :
  let ev := EventSample.event_of None
              (EventSample.message_of (Some (u "  hello ")) []) in
  resolve EventSample.host 1700000060 ev
  = Ok (ImpressionUpdateHandler.Resolved (u "42") (u "hello")
          (u "temp_42_1700000000"))
  /\ strip (u "hello") = u "hello".
Proof.
  intros ev.
  assert (Hres : resolve EventSample.host 1700000060 ev
                 = Ok (ImpressionUpdateHandler.Resolved (u "42") (u "hello")
                         (u "temp_42_1700000000")))
    by (vm_compute; reflexivity).
  split; [exact Hres|].
  exact (proj1 (proj2 (proj2 (resolved_turn_is_well_formed EventSample.host
                                1700000060 ev _ _ _ Hres)))).
Defined.

Lemma stream_lookup_failure_falls_back_witness :
  let ev := EventSample.event_of (Some (u "stream-1"))
              (EventSample.message_of (Some (u "  hello ")) []) in
  resolve EventSample.host 1700000060 ev
  = resolve EventSample.host 1700000060 (without_stream_id ev).
Proof.
  intros ev.
  exact (stream_lookup_failure_falls_back EventSample.host 1700000060 ev
           (u "stream-1") eq_refl
           (or_introl (ex_intro _ (u "no chat manager") eq_refl))).
Defined.

End ResolutionExamples.

Section TimeStamps.
Import Py Event.
Variable host : Host.
Variable now : Q.

Lemma lookup_nonempty (d : gmap pystr Value) k v :
  d !! k = Some v -> bool_decide (d = ∅) = false.
Proof.
  intros Hk. apply bool_decide_eq_false_2. intros ->.
  rewrite lookup_empty in Hk. discriminate.
Qed.

(** X16. The time stamp of a message is that of the first key present.
    Of the keys [time], [timestamp] and [create_time] of a non-empty
    [message_base_info], the first one present decides, whatever the
    others hold: its value converted to a float is the time stamp, the
    current time if that float is zero, and the exception of the
    conversion if it fails. Without any of the keys the time stamp is the
    current time. So a time stamp that is zero never comes from the
    message. *)
Theorem first_stamp_key_decides (message : Object) :
  let stamp_of v :=
    match py_float host v with
    | Ok q => Ok (if Qeq_bool q 0 then now else q)
    | Raised e => Raised e
    end in
  (forall d v,
     message_base_info message = Some (Some d) -> d !! u "time" = Some v ->
     message_timestamp host now message = stamp_of v)
  /\ (forall d v,
        message_base_info message = Some (Some d) -> d !! u "time" = None ->
        d !! u "timestamp" = Some v ->
        message_timestamp host now message = stamp_of v)
  /\ (forall d v,
        message_base_info message = Some (Some d) -> d !! u "time" = None ->
        d !! u "timestamp" = None -> d !! u "create_time" = Some v ->
        message_timestamp host now message = stamp_of v)
  /\ ((forall d, message_base_info message = Some (Some d) ->
                 d !! u "time" = None /\ d !! u "timestamp" = None
                 /\ d !! u "create_time" = None) ->
      message_timestamp host now message = Ok now)
  /\ (forall stamp,
        message_timestamp host now message = Ok stamp ->
        Qeq_bool stamp 0 = true -> stamp = now).
Proof.
  cbv zeta. unfold message_timestamp, mbind, mret, exc_bind, exc_ret.
  split; [|split; [|split; [|split]]].
  - intros d v -> Hk. rewrite (lookup_nonempty _ _ _ Hk), Hk.
    destruct (py_float host v) as [q|e]; [|reflexivity].
    destruct (Qeq_bool q 0); reflexivity.
  - intros d v -> Hk0 Hk. rewrite (lookup_nonempty _ _ _ Hk), Hk0, Hk.
    destruct (py_float host v) as [q|e]; [|reflexivity].
    destruct (Qeq_bool q 0); reflexivity.
  - intros d v -> Hk0 Hk1 Hk. rewrite (lookup_nonempty _ _ _ Hk), Hk0, Hk1, Hk.
    destruct (py_float host v) as [q|e]; [|reflexivity].
    destruct (Qeq_bool q 0); reflexivity.
  - intros Hnone. destruct (message_base_info message) as [[d|]|];
      try reflexivity.
    destruct (Hnone d eq_refl) as (-> & -> & ->).
    destruct (bool_decide (d = ∅)); reflexivity.
  - intros stamp Hst Hzero.
    assert (Hcase : forall r : exc Q,
              match r with
              | Ok q => Ok (if Qeq_bool q 0 then now else q)
              | Raised e => Raised e
              end = Ok stamp -> stamp = now).
    { intros [q|e] Hr; [|discriminate]. injection Hr as Hr.
      destruct (Qeq_bool q 0) eqn:E; [congruence|]. subst q. congruence. }
    destruct (message_base_info message) as [[d|]|]; try congruence.
    destruct (bool_decide (d = ∅)); [congruence|].
    destruct (d !! u "time") as [v|].
    { apply (Hcase (py_float host v)). destruct (py_float host v) as [q|e];
        [|discriminate]. destruct (Qeq_bool q 0); exact Hst. }
    destruct (d !! u "timestamp") as [v|].
    { apply (Hcase (py_float host v)). destruct (py_float host v) as [q|e];
        [|discriminate]. destruct (Qeq_bool q 0); exact Hst. }
    destruct (d !! u "create_time") as [v|]; [|congruence].
    apply (Hcase (py_float host v)). destruct (py_float host v) as [q|e];
      [|discriminate]. destruct (Qeq_bool q 0); exact Hst.
Qed.

End TimeStamps.

Section TemporaryIds.
Import Py Event.

Transparent Py.u.

Lemma utf8_decode_ascii (l : list N) :
  Forall (fun b => (b < 128)%N) l -> utf8_decode l = l.
Proof.
  induction 1 as [|b l Hb _ IH]; [reflexivity|].
  cbn [utf8_decode]. apply N.ltb_lt in Hb. rewrite Hb, IH. reflexivity.
Qed.

Lemma uint_chars (d : Decimal.uint) :
  Forall (fun a => (48 <= N_of_ascii a <= 57)%N)
    (list_ascii_of_string (NilEmpty.string_of_uint d)).
Proof.
  induction d; cbn [NilEmpty.string_of_uint list_ascii_of_string];
    constructor; try assumption; vm_compute; split; discriminate.
Qed.

Lemma int_chars (z : Z) :
  Forall (fun a => (48 <= N_of_ascii a <= 57)%N \/ N_of_ascii a = 45%N)
    (list_ascii_of_string (NilZero.string_of_int (Z.to_int z))).
Proof.
  assert (Hu : forall d,
            Forall (fun a => (48 <= N_of_ascii a <= 57)%N \/ N_of_ascii a = 45%N)
              (list_ascii_of_string (NilZero.string_of_uint d))).
  { intros d. unfold NilZero.string_of_uint.
    destruct d; try (eapply Forall_impl; [apply uint_chars|]; cbn; auto).
    constructor; [|constructor]. left. vm_compute. split; discriminate. }
  destruct z as [|p|p]; cbn [Z.to_int NilZero.string_of_int].
  - apply Hu.
  - apply Hu.
  - cbn [list_ascii_of_string]. constructor; [right; reflexivity|apply Hu].
Qed.

Lemma of_Z_codes (z : Z) :
  of_Z z
  = List.map N_of_ascii
      (list_ascii_of_string (NilZero.string_of_int (Z.to_int z))).
Proof.
  unfold of_Z, u. apply utf8_decode_ascii.
  apply Forall_map. eapply Forall_impl; [apply int_chars|].
  cbn. intros a [[_ Hle]| ->]; lia.
Qed.

Lemma of_Z_no_underscore (z : Z) : ~ In 95%N (of_Z z).
Proof.
  rewrite of_Z_codes. intros Hin. apply in_map_iff in Hin as (a & Ha & Hin).
  destruct (proj1 (List.Forall_forall _ _) (int_chars z) a Hin)
    as [[Hlo Hhi]|Hm]; lia.
Qed.

Lemma of_Z_inj (z1 z2 : Z) : of_Z z1 = of_Z z2 -> z1 = z2.
Proof.
  rewrite !of_Z_codes. intros Heq.
  apply (f_equal (List.map ascii_of_N)) in Heq.
  rewrite !List.map_map in Heq.
  rewrite !(List.map_ext _ id ascii_N_embedding), !List.map_id in Heq.
  apply (f_equal string_of_list_ascii) in Heq.
  rewrite !string_of_list_ascii_of_string in Heq.
  assert (Hnn : forall z, Z.to_int z <> Decimal.Pos Decimal.Nil
                          /\ Z.to_int z <> Decimal.Neg Decimal.Nil).
  { intros [|p|p]; cbn; split; try discriminate; intros [= Hp];
      exact (DecimalPos.Unsigned.to_uint_nonnil p Hp). }
  pose proof (NilZero.isi _ (proj1 (Hnn z1)) (proj2 (Hnn z1))) as H1.
  pose proof (NilZero.isi _ (proj1 (Hnn z2)) (proj2 (Hnn z2))) as H2.
  rewrite Heq, H2 in H1. injection H1 as H1.
  rewrite <- (DecimalZ.of_to z1), <- (DecimalZ.of_to z2), H1. reflexivity.
Qed.

Opaque Py.u.

Lemma split_at_last (c : N) : forall (x y a b : list N),
  ~ In c x -> ~ In c y -> a ++ c :: x = b ++ c :: y -> a = b /\ x = y.
Proof.
  intros x y a. revert y. induction a as [|h a IH]; intros y b Hx Hy Heq.
  - destruct b as [|h' b]; cbn in Heq.
    + injection Heq as <-. auto.
    + injection Heq as <- ->. destruct Hx. apply in_or_app. right. left.
      reflexivity.
  - destruct b as [|h' b]; cbn in Heq.
    + injection Heq as -> <-. destruct Hy. apply in_or_app. right. left.
      reflexivity.
    + injection Heq as <- Heq. destruct (IH _ _ Hx Hy Heq) as [-> ->]. auto.
Qed.

Lemma int_of_whole (t : Q) (k : Z) :
  (0 <= t)%Q -> (inject_Z k <= t)%Q -> (t < inject_Z (k + 1))%Q -> int_of t = k.
Proof.
  destruct t as [n d]. unfold int_of, Qle, Qlt, inject_Z. cbn.
  intros H0 Hlo Hhi.
  rewrite Z.quot_div_nonneg by lia.
  symmetry. apply (Z.div_unique n (Z.pos d) k (n - Z.pos d * k)); lia.
Qed.

(** X17. The temporary id identifies the user and the second. Two
    temporary ids are equal exactly when they are made for the same user
    id and for time stamps with the same integer part; a time stamp that
    is not negative has the whole second it lies in as its integer part.
    The temporary id is the message id whenever the look-up in the
    database of the host finds no id or an empty one. *)
Theorem temporary_id_identifies_user_and_second :
  (forall user1 user2 stamp1 stamp2,
     temp_id user1 stamp1 = temp_id user2 stamp2
     <-> user1 = user2 /\ int_of stamp1 = int_of stamp2)
  /\ (forall (stamp : Q) (second : Z),
        (0 <= stamp)%Q -> (inject_Z second <= stamp)%Q ->
        (stamp < inject_Z (second + 1))%Q -> int_of stamp = second)
  /\ (forall host user_id stamp,
        get_main_message_id host user_id stamp = Ok None
        \/ get_main_message_id host user_id stamp = Ok (Some []) ->
        message_id_of host user_id stamp = Ok (temp_id user_id stamp)).
Proof.
  split; [|split].
  - intros user1 user2 stamp1 stamp2. unfold temp_id. split.
    + intros Heq. apply app_inv_head in Heq.
      replace (u "_") with [95%N] in Heq by (vm_compute; reflexivity).
      cbn [app] in Heq.
      apply split_at_last in Heq as [-> Hz]; try apply of_Z_no_underscore.
      split; [reflexivity|]. exact (of_Z_inj _ _ Hz).
    + intros [-> ->]. reflexivity.
  - exact int_of_whole.
  - intros host user_id stamp [Hdb|Hdb]; unfold message_id_of;
      rewrite Hdb; reflexivity.
Qed.

End TemporaryIds.

Section BlankContent.
Import Py Event.

(** X18. A plain text of white space rejects the turn. The text of a
    message is its plain text when that is not empty, and the segments
    are then not looked at; so when the user id is known and the plain
    text consists of white space only, the turn ends with the note of an
    empty message and without a call to a service, whatever the segments
    hold. *)
Theorem blank_plain_text_rejects_turn (sv : ImpressionUpdateHandler.Services)
    (host : Host) (now : Q) (event_data : EventData)
    (user_id text : pystr) (message : Object) (w : ImpressionUpdateHandler.World) :
  identify host event_data = Ok (Known user_id message) ->
  plain_text message = Some (Some text) -> text <> [] -> strip text = [] ->
  _extract_message_content message = []
  /\ handle_event sv host now event_data w
     = (w, Ok {| message := u "消息内容为空" |}).
Proof.
  intros Hwho Hplain Hne Hblank.
  assert (Hcontent : _extract_message_content message = []).
  { unfold _extract_message_content. rewrite Hplain.
    destruct text as [|c text]; [contradiction|]. exact Hblank. }
  split; [exact Hcontent|].
  unfold handle_event, resolve, mbind, exc_bind. rewrite Hwho, Hcontent.
  reflexivity.
Qed.

Lemma blank_plain_text_rejects_turn_witness :
  let message := EventSample.message_of (Some (u "   "))
                   [Data (u "hello"); Data (u "there")] in
  let ev := EventSample.event_of None message in
  _extract_message_content message = []
  /\ handle_event Sample.busy_services EventSample.host 1700000060 ev
       Sample.world0
     = (Sample.world0, Ok {| message := u "消息内容为空" |}).
Proof.
  intros message ev.
  exact (blank_plain_text_rejects_turn Sample.busy_services EventSample.host
           1700000060 ev (u "42") (u "   ") message Sample.world0
           ltac:(vm_compute; reflexivity) eq_refl
           ltac:(vm_compute; discriminate) ltac:(vm_compute; reflexivity)).
Defined.

End BlankContent.

(** * What the relay stores *)

Section RelayInvariant.
Context `{PyBuiltins}.
Import Py.

Lemma parsed_fields text now c :
  _parse_action_check_marker text now = Some c ->
  (0 <= chance c <= 100)%Z
  /\ (result c = u "success" \/ result c = u "fail")
  /\ interaction c <> [].
Proof.
  unfold _parse_action_check_marker.
  destruct (negb (truthy text)); [discriminate|].
  destruct (last (Re.findall_marker text)) as [m|]; [|discriminate].
  destruct (Json.loads (strip m)) as [[| | | | | |payload]|]; try discriminate.
  destruct (py_int _) as [z|]; [|discriminate].
  destruct (normalize_result _) as [r|] eqn:Hr; [|discriminate].
  destruct (truthy (strip _)) eqn:Ht; cbn [negb]; [|discriminate].
  intros [= <-]. cbn.
  split; [lia|]. split; [exact (normalize_result_values _ _ Hr)|].
  intros E. rewrite E in Ht. discriminate.
Qed.

Lemma well_formed_smaller st st' :
  context_by_stream st' ⊆ context_by_stream st ->
  pending_tag_by_stream st' ⊆ pending_tag_by_stream st ->
  well_formed_state st -> well_formed_state st'.
Proof.
  intros Hc Hp [Ic Ip]. split.
  - intros sid c Hl. exact (Ic sid c (lookup_weaken _ _ _ _ Hl Hc)).
  - intros sid tag ts Hl. exact (Ip sid tag ts (lookup_weaken _ _ _ _ Hl Hp)).
Qed.

Lemma well_formed_clean sid now st :
  well_formed_state st ->
  well_formed_state (_clean_expired_action_check_state sid now st).
Proof.
  apply well_formed_smaller;
    [apply clean_context_subseteq|apply clean_pending_subseteq].
Qed.

Lemma well_formed_pop_context sid st :
  well_formed_state st -> well_formed_state (pop_context sid st).
Proof.
  apply well_formed_smaller; unfold pop_context; cbn;
    [apply delete_subseteq|reflexivity].
Qed.

Lemma well_formed_pop_pending sid st :
  well_formed_state st -> well_formed_state (pop_pending sid st).
Proof.
  apply well_formed_smaller; unfold pop_pending; cbn;
    [reflexivity|apply delete_subseteq].
Qed.

Lemma well_formed_set_context sid c st :
  well_formed_context sid c -> well_formed_state st ->
  well_formed_state (set_context sid c st).
Proof.
  intros Hc [Ic Ip]. split; unfold set_context; cbn; [|exact Ip].
  intros k c' Hl. destruct (decide (sid = k)) as [<-|Hne].
  - rewrite lookup_insert_eq in Hl. injection Hl as <-. exact Hc.
  - rewrite lookup_insert_ne in Hl by exact Hne. exact (Ic _ _ Hl).
Qed.

Lemma well_formed_set_pending sid tag ts st :
  well_formed_tag tag -> well_formed_state st ->
  well_formed_state (set_pending sid (tag, ts) st).
Proof.
  intros Ht [Ic Ip]. split; unfold set_pending; cbn; [exact Ic|].
  intros k tag' ts' Hl. destruct (decide (sid = k)) as [<-|Hne].
  - rewrite lookup_insert_eq in Hl. injection Hl as <- _. exact Ht.
  - rewrite lookup_insert_ne in Hl by exact Hne. exact (Ip _ _ _ Hl).
Qed.

(** X19. What the relay stores is well formed. Starting from the two
    empty dicts, after any sequence of calls of Points B, C and D, with
    any messages and at any times, every context stored is filed under
    its own stream id and holds a chance between 0 and 100, the result
    [success] or [fail] and an interaction that is not empty, and every
    pending tag is the tag of such a chance and such a result. *)
Theorem relay_stores_well_formed_decisions :
  well_formed_state {| context_by_stream := ∅; pending_tag_by_stream := ∅ |}
  /\ (forall (cfg : ActionCheckConfig) (now : Q)
             (message : option MaiMessages.t) (st : RelayState),
        well_formed_state st ->
        well_formed_state
          (fst (ActionCheckPostLLMHandler.execute cfg now message st))
        /\ well_formed_state
             (fst (ActionCheckAfterLLMHandler.execute cfg now message st))
        /\ well_formed_state
             (fst (ActionCheckPostSendPrefixHandler.execute cfg now message st))).
Proof.
  split.
  { split; cbn; intros sid ?; rewrite lookup_empty; discriminate. }
  intros cfg now message st Hst. split; [|split].
  - unfold ActionCheckPostLLMHandler.execute, ActionCheckPostLLMHandler.body.
    destruct (enabled cfg); cbn [negb]; [|exact Hst].
    destruct message as [msg|]; [|exact Hst].
    destruct (MaiMessages.llm_prompt msg) as [p|e]; cbn [read]; [|exact Hst].
    destruct (truthy_opt p); cbn [negb]; [|exact Hst].
    destruct (MaiMessages.stream_id msg) as [sid_raw|e]; cbn [read];
      [|exact Hst].
    destruct (truthy_opt sid_raw); cbn [negb]; [|exact Hst].
    cbv zeta.
    destruct (_parse_action_check_marker (default [] p) now) as [parsed|]
      eqn:Hparse; cbn [guarded fst].
    + apply well_formed_set_context; [|apply well_formed_clean, Hst].
      destruct (parsed_fields _ _ _ Hparse) as (Hch & Hres & Hint).
      split; [reflexivity|]. split; [exact Hch|]. split; [exact Hres|exact Hint].
    + apply well_formed_pop_context, well_formed_clean, Hst.
  - unfold ActionCheckAfterLLMHandler.execute, ActionCheckAfterLLMHandler.body.
    destruct (negb (enabled cfg) || negb (show_roll_result cfg)); [exact Hst|].
    destruct message as [msg|]; [|exact Hst].
    destruct (MaiMessages.stream_id msg) as [sid_raw|e]; cbn [read];
      [|exact Hst].
    destruct (truthy_opt sid_raw); cbn [negb]; [|exact Hst].
    cbv zeta.
    pose proof (well_formed_clean (default [] sid_raw) now st Hst) as Hclean.
    destruct (context_by_stream
                (_clean_expired_action_check_state (default [] sid_raw) now st)
              !! default [] sid_raw) as [c|] eqn:Hc; cbn [guarded fst];
      [|exact Hclean].
    apply well_formed_set_pending; [|exact Hclean].
    destruct (proj1 Hclean _ _ Hc) as (_ & Hch & Hres & _).
    exists (chance c), (result c). auto.
  - unfold ActionCheckPostSendPrefixHandler.execute,
      ActionCheckPostSendPrefixHandler.body.
    destruct (negb (enabled cfg) || negb (show_roll_result cfg)); [exact Hst|].
    destruct message as [msg|]; [|exact Hst].
    destruct (MaiMessages.stream_id msg) as [sid_raw|e]; cbn [read];
      [|exact Hst].
    destruct (truthy_opt sid_raw); cbn [negb]; [|exact Hst].
    cbv zeta.
    pose proof (well_formed_clean (default [] sid_raw) now st Hst) as Hclean.
    assert (Hpop : well_formed_state
                     (pop_context (default [] sid_raw)
                        (pop_pending (default [] sid_raw)
                           (_clean_expired_action_check_state
                              (default [] sid_raw) now st))))
      by (apply well_formed_pop_context, well_formed_pop_pending, Hclean).
    destruct (pending_tag_by_stream _ !! _) as [[tag ts]|]; [|exact Hclean].
    destruct (MaiMessages.message_segments msg) as [[[|s segs]|]|e];
      cbn [read guarded fst]; try exact Hclean; try exact Hpop.
    destruct (ActionCheckPostSendPrefixHandler.prefix_loop tag (s :: segs));
      cbn [guarded fst]; try exact Hclean; exact Hpop.
Qed.

End RelayInvariant.
